(** * quizmd: answer evaluation, question synthesis and quiz assembly

    A shallow embedding of the Python sources [evaluator.py],
    [question_generator.py] and [quiz_runner.py], of [parse_command] and
    [run_autoquiz] of [main.py], and of [load] and [get_sections] of
    [loader.py].

    Conventions of the embedding.
    - A Python [str] is a [list ascii]; a character is a code point below
      256 (the Latin-1 block, which [str.lower] maps into itself).  The
      character classes are those of CPython's [str.isspace], [str.isupper]
      and of the [re] module's [\w], [\s] and [\d] on that block.
    - A Python [float] is a primitive binary64 float, so products, quotients
      and comparisons round exactly as they do in the source.
    - A Python [set] of strings is a [gset]; a list is a [list].
    - A call that may raise returns a [Py.result]; [try] and [except] are
      matches on it.
    - The regular expressions of the source are terms of [Re.regex], run by
      a backtracking matcher; the random module draws from an explicit
      sequence.
    - Calls into the other libraries (difflib, NLTK, scikit-learn, numpy)
      are Section variables, and so is reading a file.
    - What the program prints is left out; the lines typed at a prompt are
      an explicit list. *)

From Stdlib Require Import List Ascii String ZArith Lia Bool Floats Uint63.
From Stdlib Require Import DecimalString DecimalNat.
From stdpp Require Import gmap strings.
Import ListNotations.

Set Warnings "-inexact-float".
Local Open Scope nat_scope.
Local Open Scope list_scope.

(** ** Python strings *)

Abbreviation str := (list ascii).

(** A string literal of the source. *)
Definition lit (s : string) : str := list_ascii_of_string s.

Module PyStr.

Definition code (c : ascii) : nat := nat_of_ascii c.

Definition between (lo hi n : nat) : bool := (lo <=? n) && (n <=? hi).

(** [str.isspace] on one character; also the class [\s] of [re]. *)
Definition isspace (c : ascii) : bool :=
  let n := code c in
  between 9 13 n || between 28 32 n || (n =? 133) || (n =? 160).

(** The class [\d] of [re]. *)
Definition isdigit (c : ascii) : bool := between 48 57 (code c).

(** The class [\w] of [re]: alphanumeric characters and the underscore. *)
Definition isword (c : ascii) : bool :=
  let n := code c in
  between 48 57 n || between 65 90 n || (n =? 95) || between 97 122 n
  || (n =? 170) || between 178 179 n || (n =? 181) || between 185 186 n
  || between 188 190 n || between 192 214 n || between 216 246 n
  || between 248 255 n.

(** [str.isupper] on one character. *)
Definition isupper (c : ascii) : bool :=
  let n := code c in
  between 65 90 n || between 192 214 n || between 216 222 n.

Definition lower_char (c : ascii) : ascii :=
  if isupper c then ascii_of_nat (code c + 32) else c.

(** [s.lower()] *)
Definition lower (s : str) : str := map lower_char s.

Definition space : ascii := " "%char.

(** [s.split()]: the maximal runs of non-whitespace characters. *)
Fixpoint split (s : str) : list str :=
  match s with
  | [] => []
  | c :: s' =>
      if isspace c then split s'
      else match s' with
           | [] => [[c]]
           | d :: _ =>
               if isspace d then [c] :: split s'
               else match split s' with
                    | w :: ws => (c :: w) :: ws
                    | [] => [[c]]
                    end
           end
  end.

(** [sep.join(ws)] *)
Fixpoint join (sep : str) (ws : list str) : str :=
  match ws with
  | [] => []
  | [w] => w
  | w :: ws' => w ++ sep ++ join sep ws'
  end.

Fixpoint lstrip (s : str) : str :=
  match s with
  | c :: s' => if isspace c then lstrip s' else s
  | [] => []
  end.

(** [s.strip()] *)
Definition strip (s : str) : str := rev (lstrip (rev (lstrip s))).

Fixpoint lstrip_chars (p : ascii -> bool) (s : str) : str :=
  match s with
  | c :: s' => if p c then lstrip_chars p s' else s
  | [] => []
  end.

(** [s.rstrip(chars)], the set of characters given as a predicate. *)
Definition rstrip_chars (p : ascii -> bool) (s : str) : str :=
  rev (lstrip_chars p (rev s)).

Definition eqb_char (a b : ascii) : bool := Ascii.eqb a b.

Fixpoint eqb (a b : str) : bool :=
  match a, b with
  | [], [] => true
  | x :: a', y :: b' => eqb_char x y && eqb a' b'
  | _, _ => false
  end.

Fixpoint startswith (p s : str) : bool :=
  match p, s with
  | [], _ => true
  | x :: p', y :: s' => eqb_char x y && startswith p' s'
  | _ :: _, [] => false
  end.

(** [p in s]: [p] occurs in [s] as a contiguous substring. *)
Fixpoint contains (p s : str) : bool :=
  startswith p s ||
  match s with
  | [] => false
  | _ :: s' => contains p s'
  end.

(** [s[:n]] for [n >= 0]. *)
Definition prefix (n : nat) (s : str) : str := firstn n s.

Fixpoint drop_to_space (r : str) : option str :=
  match r with
  | [] => None
  | c :: r' => if eqb_char c space then Some r' else drop_to_space r'
  end.

(** [s.rsplit(' ', 1)[0]]: what precedes the last space, or all of [s]
    when it has none. *)
Definition rsplit1_head (s : str) : str :=
  match drop_to_space (rev s) with
  | Some r => rev r
  | None => s
  end.

(** Truthiness of a string: [if s:]. *)
Definition truthy (s : str) : bool :=
  match s with [] => false | _ :: _ => true end.

(** A word, as [split] returns them: non-empty and free of whitespace. *)
Definition word (w : str) : Prop :=
  w <> [] /\ forall c, In c w -> isspace c = false.

End PyStr.

(** ** Python numbers *)

Module PyNum.

(** [float(n)] for a length or a count [n]; exact below [2^53]. *)
Definition of_nat (n : nat) : float :=
  PrimFloat.of_uint63 (Uint63.of_Z (Z.of_nat n)).

(** [a / b] on two counts: true division. *)
Definition truediv (a b : nat) : float := PrimFloat.div (of_nat a) (of_nat b).

(** [x >= y], [x > y] on floats. *)
Definition ge (x y : float) : bool := PrimFloat.leb y x.
Definition gt (x y : float) : bool := PrimFloat.ltb y x.

End PyNum.

(** ** Python exceptions and sequences *)

Module Py.

Inductive exn : Set := IndexError | ValueError | LookupError | LibraryError.

(** The outcome of a call that may raise. *)
Inductive result (A : Type) : Type :=
| Ok (a : A)
| Raise (e : exn).

Arguments Ok {A} a.
Arguments Raise {A} e.

Definition bind {A B : Type} (r : result A) (k : A -> result B) : result B :=
  match r with
  | Ok a => k a
  | Raise e => Raise e
  end.

(** [try: r  except Exception: handler] *)
Definition try_except {A : Type} (r : result A) (handler : result A) : result A :=
  match r with
  | Ok a => Ok a
  | Raise _ => handler
  end.

(** [l[i]] for an integer [i]: negative indices count from the end, and an
    index outside the list raises. *)
Definition index {A : Type} (l : list A) (i : Z) : result A :=
  let n := Z.of_nat (length l) in
  let j := if (i <? 0)%Z then (i + n)%Z else i in
  if (j <? 0)%Z then Raise IndexError
  else match nth_error l (Z.to_nat j) with
       | Some x => Ok x
       | None => Raise IndexError
       end.

(** [l[-n:]] for [n >= 0]: the last [n] elements, and everything for
    [n = 0] since [-0] is [0]. *)
Definition last_n {A : Type} (n : nat) (l : list A) : list A :=
  if n =? 0 then l else skipn (length l - n) l.

(** Insertion behind the elements whose key is at least as large. *)
Fixpoint insert_desc {A : Type} (key : A -> nat) (x : A) (l : list A) : list A :=
  match l with
  | [] => [x]
  | y :: l' => if key y <? key x then x :: l else y :: insert_desc key x l'
  end.

(** [l.sort(key=key, reverse=True)]: descending and stable. *)
Definition sort_desc {A : Type} (key : A -> nat) (l : list A) : list A :=
  fold_left (fun acc x => insert_desc key x acc) l [].

End Py.

(** ** evaluator.py *)

Module Evaluator.
Import PyStr.

(** [re.sub(r'[^\w\s]', '', text)] *)
Definition remove_punctuation (s : str) : str :=
  List.filter (fun c => isword c || isspace c) s.

Definition _normalize_text (text : str) : str :=
  let text := lower text in
  let text := remove_punctuation text in
  let text := join [space] (split text) in
  strip text.

Definition stop_words : gset str :=
  list_to_set (map lit
    ["the"; "a"; "an"; "and"; "or"; "but"; "in"; "on"; "at"; "to"; "for";
     "of"; "with"; "by"; "is"; "are"; "was"; "were"; "be"; "been"; "being";
     "have"; "has"; "had"; "do"; "does"; "did"; "will"; "would"; "should";
     "could"; "may"; "might"; "must"; "can"; "this"; "that"; "these";
     "those"]%string).

Definition _extract_keywords (text : str) : gset str :=
  let words := split (_normalize_text text) in
  list_to_set
    (List.filter
       (fun w => (2 <? length w) && negb (bool_decide (w ∈ stop_words)))
       words).

(** Truthiness of a set: [if keywords:]. *)
Definition nonempty (k : gset str) : bool := negb (size k =? 0).

Section WithLibraries.

(** [SequenceMatcher(None, a, b).ratio()] of difflib. *)
Variable ratio : str -> str -> float.
(** [f"{x:.0%}"], the percentage rendering of a float. *)
Variable format_percent : float -> str.

Definition _fuzzy_match (text1 text2 : str) : float :=
  let norm1 := _normalize_text text1 in
  let norm2 := _normalize_text text2 in
  if negb (truthy norm1) || negb (truthy norm2) then 0%float
  else
    let similarity := ratio norm1 norm2 in
    let keywords1 := _extract_keywords text1 in
    let keywords2 := _extract_keywords text2 in
    if nonempty keywords1 && nonempty keywords2 then
      let overlap := size (keywords1 ∩ keywords2) in
      let union := size (keywords1 ∪ keywords2) in
      let keyword_similarity :=
        if 0 <? union then PyNum.truediv overlap union else 0%float in
      let combined :=
        PrimFloat.add (PrimFloat.mul similarity 0.4%float)
                      (PrimFloat.mul keyword_similarity 0.6%float) in
      combined
    else similarity.

(** The adjacent two-word phrases longer than five characters. *)
Fixpoint key_phrases (correct_words : list str) : list str :=
  match correct_words with
  | w1 :: ((w2 :: _) as rest) =>
      let phrase := w1 ++ [space] ++ w2 in
      if 5 <? length phrase then phrase :: key_phrases rest
      else key_phrases rest
  | _ => []
  end.

Definition _check_key_phrases (user_answer correct_answer : str) : bool :=
  let user_norm := _normalize_text user_answer in
  let correct_norm := _normalize_text correct_answer in
  let correct_words := split correct_norm in
  if length correct_words <? 2 then false
  else
    let phrases := key_phrases correct_words in
    if existsb (fun phrase => contains phrase user_norm) phrases then true
    else
      let important_words :=
        List.filter (fun w => 4 <? length w) correct_words in
      let matches :=
        length (List.filter (fun w => contains w user_norm)
                            important_words) in
      match important_words with
      | [] => false
      | _ :: _ =>
          PyNum.ge (PyNum.of_nat matches)
                   (PrimFloat.mul (PyNum.of_nat (length important_words))
                                  0.5%float)
      end.

Definition incorrect_feedback (correct_answer : str) : str :=
  lit "Incorrect. The correct answer is: " ++ correct_answer.

(** [self.similarity_threshold] is the first argument. *)
Definition evaluate_answer (similarity_threshold : float)
    (user_answer correct_answer question context : str) : bool * str :=
  if negb (truthy (strip user_answer)) then
    (false, incorrect_feedback correct_answer)
  else
    let user_norm := _normalize_text user_answer in
    let correct_norm := _normalize_text correct_answer in
    if eqb user_norm correct_norm then (true, lit "Correct!")
    else if contains correct_norm user_norm then (true, lit "Correct!")
    else if contains user_norm correct_norm
            && PyNum.gt (PyNum.of_nat (length user_norm))
                        (PrimFloat.mul (PyNum.of_nat (length correct_norm))
                                       0.7%float)
    then (true, lit "Correct!")
    else
      let similarity := _fuzzy_match user_answer correct_answer in
      if PyNum.ge similarity similarity_threshold then
        (true, lit "Correct!")
      else if _check_key_phrases user_answer correct_answer then
        (true, lit "Correct!")
      else
        let feedback := incorrect_feedback correct_answer in
        let feedback :=
          if PyNum.gt similarity 0.3%float then
            feedback ++ lit " (Your answer was close: "
                     ++ format_percent similarity ++ lit " similar)"
          else feedback in
        (false, feedback).

End WithLibraries.

(** The default of [AnswerEvaluator.__init__]. *)
Definition default_threshold : float := 0.6%float.

End Evaluator.

(** ** quiz_runner.py *)

Module QuizRunner.
Import PyStr Py.

(** One entry of [self.results]. *)
Record QuizResult : Type := {
  question : str;
  user_answer : str;
  correct_answer : str;
  is_correct : bool;
  context : str
}.

Definition nl : str := ["010"%char].

Definition not_found : str := lit "Question not found. Please run a quiz first.".

(** The marks of the last line lie outside the modelled block of characters
    and are written as the bytes of their UTF-8 encoding. *)
Definition mark_correct : str := lit "✅ Correct".
Definition mark_incorrect : str := lit "❌ Incorrect".

(** [self.results] is the first argument. *)
Definition explain_question (results : list QuizResult) (question_number : Z)
  : result str :=
  if negb (0 <? length results) || (question_number <? 1)%Z
     || (Z.of_nat (length results) <? question_number)%Z
  then Ok not_found
  else
    bind (index results (question_number - 1)%Z) (fun result =>
    let explanation := nl ++ lit "Question: " ++ question result ++ nl in
    let explanation :=
      explanation ++ lit "Correct Answer: " ++ correct_answer result ++ nl in
    let explanation :=
      if truthy (context result) then
        explanation ++ lit "Source: " ++ prefix 200 (context result)
                    ++ lit "..." ++ nl
      else explanation in
    let explanation :=
      explanation ++ lit "Your Answer: " ++ user_answer result ++ nl in
    let explanation :=
      explanation ++ lit "Result: "
        ++ (if is_correct result then mark_correct else mark_incorrect) ++ nl in
    Ok explanation).

End QuizRunner.

(** ** The random module

    A generator is the sequence of its future draws.  [random_sample] can
    return every selection of [k] positions in every order, and nothing
    else, as the generator ranges over all sequences. *)

Module Random.
Import Py.

Definition rng : Set := list nat.

Definition draw (g : rng) (bound : nat) : nat * rng :=
  match g with
  | [] => (0, [])
  | x :: g' => (x mod bound, g')
  end.

Fixpoint remove_at {A : Type} (i : nat) (l : list A) : list A :=
  match l, i with
  | [], _ => []
  | _ :: l', 0 => l'
  | x :: l', S i' => x :: remove_at i' l'
  end.

Fixpoint choose {A : Type} (k : nat) (pool : list A) (g : rng) : list A * rng :=
  match k with
  | 0 => ([], g)
  | S k' =>
      let (i, g') := draw g (length pool) in
      match nth_error pool i with
      | None => ([], g')
      | Some x =>
          let (rest, g'') := choose k' (remove_at i pool) g' in
          (x :: rest, g'')
      end
  end.

(** [random.sample(population, k)] for [k >= 0] *)
Definition random_sample {A : Type} (population : list A) (k : nat) (g : rng)
  : result (list A) * rng :=
  if length population <? k then (Raise ValueError, g)
  else let (l, g') := choose k population g in (Ok l, g').

(** [random.shuffle(l)], returning the shuffled list. *)
Definition random_shuffle {A : Type} (l : list A) (g : rng) : list A * rng :=
  choose (length l) l g.

End Random.

(** ** The re module

    Regular expressions with the backtracking semantics of Python's [re]:
    alternatives are tried from left to right, a greedy repetition tries
    one more iteration before it tries to stop, and a lazy one the other
    way round; the first way through that reaches the end of the pattern is
    the match. *)

Module Re.
Import PyStr.

Inductive regex : Type :=
| Eps
| Chr (p : ascii -> bool)
| Cat (r1 r2 : regex)
| Alt (r1 r2 : regex)
| Rep (greedy : bool) (lo : nat) (hi : option nat) (r : regex)
| Grp (i : nat) (r : regex)
| Bol
| Eol
| WordBoundary.

(** The text of each group, the latest binding first. *)
Definition captures : Type := list (nat * str).

Definition below (hi : option nat) (count : nat) : bool :=
  match hi with
  | None => true
  | Some h => count <? h
  end.

Definition at_word_boundary (before after : str) : bool :=
  xorb (match before with c :: _ => isword c | [] => false end)
       (match after with c :: _ => isword c | [] => false end).

(** [$]: the end of the string, or the newline that ends it. *)
Definition at_end (after : str) : bool :=
  match after with
  | [] => true
  | [c] => eqb_char c "010"%char
  | _ => false
  end.

(** Matching [r] at a position, the text before it reversed in [before];
    [k] continues with what follows [r] in the pattern.  An iteration of a
    repetition has to consume a character. *)
Fixpoint run {T : Type} (r : regex) (before after : str) (caps : captures)
    (k : str -> str -> captures -> option T) {struct r} : option T :=
  match r with
  | Eps => k before after caps
  | Chr p =>
      match after with
      | c :: after' => if p c then k (c :: before) after' caps else None
      | [] => None
      end
  | Cat r1 r2 =>
      run r1 before after caps (fun b a c => run r2 b a c k)
  | Alt r1 r2 =>
      match run r1 before after caps k with
      | Some x => Some x
      | None => run r2 before after caps k
      end
  | Rep greedy lo hi r1 =>
      (fix loop (fuel count : nat) (before after : str) (caps : captures)
           {struct fuel} : option T :=
         let stop (_ : unit) :=
           if lo <=? count then k before after caps else None in
         let more (_ : unit) :=
           match fuel with
           | 0 => None
           | S fuel' =>
               if below hi count then
                 run r1 before after caps
                     (fun b a c =>
                        if length a <? length after
                        then loop fuel' (S count) b a c
                        else None)
               else None
           end in
         if greedy then
           match more tt with Some x => Some x | None => stop tt end
         else
           match stop tt with Some x => Some x | None => more tt end)
        (S (length after)) 0 before after caps
  | Grp i r1 =>
      run r1 before after caps
          (fun b a c =>
             k b a ((i, firstn (length after - length a) after) :: c))
  | Bol => match before with [] => k before after caps | _ :: _ => None end
  | Eol => if at_end after then k before after caps else None
  | WordBoundary =>
      if at_word_boundary before after then k before after caps else None
  end.

(** A match object: the text before the match, the match, the text behind
    it, and the groups. *)
Record match_object : Type := {
  pre : str;
  matched : str;
  post : str;
  groups : captures
}.

Fixpoint search_from (r : regex) (before after : str) : option match_object :=
  match run r before after []
            (fun b a c =>
               Some {| pre := rev before;
                       matched := firstn (length after - length a) after;
                       post := a;
                       groups := c |}) with
  | Some m => Some m
  | None =>
      match after with
      | [] => None
      | c :: after' => search_from r (c :: before) after'
      end
  end.

(** [re.search(r, s)] *)
Definition search (r : regex) (s : str) : option match_object :=
  search_from r [] s.

(** [m.group(i)] for a group that took part in the match. *)
Definition group (m : match_object) (i : nat) : str :=
  match find (fun entry => fst entry =? i) (groups m) with
  | Some entry => snd entry
  | None => []
  end.

(** [re.sub(r, '', s)]: every match, from left to right, is deleted; an
    empty match lets one character through. *)
Fixpoint delete_from (fuel : nat) (r : regex) (before after : str) : str :=
  match fuel with
  | 0 => after
  | S fuel' =>
      match search_from r before after with
      | None => after
      | Some m =>
          let skipped := firstn (length (pre m) - length before) after in
          match matched m, post m with
          | [], c :: rest =>
              skipped ++ c :: delete_from fuel' r (c :: rev (pre m)) rest
          | [], [] => skipped
          | _ :: _, _ =>
              skipped
              ++ delete_from fuel' r (rev (matched m) ++ rev (pre m)) (post m)
          end
      end
  end.

Definition delete_all (r : regex) (s : str) : str :=
  delete_from (S (length s)) r [] s.

(** *** Building patterns *)

Definition upper_char (c : ascii) : ascii :=
  let n := code c in
  if between 97 122 n || between 224 246 n || between 248 254 n
  then ascii_of_nat (n - 32) else c.

(** A class under [re.IGNORECASE]. *)
Definition ignore_case (p : ascii -> bool) (c : ascii) : bool :=
  p c || p (lower_char c) || p (upper_char c).

Definition is_char (c : ascii) : regex := Chr (eqb_char c).
Definition is_char_i (c : ascii) : regex := Chr (ignore_case (eqb_char c)).

Fixpoint text_with (one : ascii -> regex) (s : str) : regex :=
  match s with
  | [] => Eps
  | [c] => one c
  | c :: s' => Cat (one c) (text_with one s')
  end.

(** A literal text, and the same under [re.IGNORECASE]. *)
Definition text (s : string) : regex := text_with is_char (lit s).
Definition text_i (s : string) : regex := text_with is_char_i (lit s).

Fixpoint any_of (rs : list regex) : regex :=
  match rs with
  | [] => Chr (fun _ => false)
  | [r] => r
  | r :: rs' => Alt r (any_of rs')
  end.

(** [(?:w1|w2|...)] under [re.IGNORECASE]. *)
Definition words_i (ws : list string) : regex := any_of (map text_i ws).

Fixpoint seq_of (rs : list regex) : regex :=
  match rs with
  | [] => Eps
  | [r] => r
  | r :: rs' => Cat r (seq_of rs')
  end.

Definition plus (r : regex) : regex := Rep true 1 None r.
Definition star (r : regex) : regex := Rep true 0 None r.
Definition opt (r : regex) : regex := Rep true 0 (Some 1) r.

(** [\s+] *)
Definition spaces : regex := plus (Chr isspace).

(** [[A-Z]], [[a-zA-Z\s]] and [[^.]] *)
Definition upper_az (c : ascii) : bool := between 65 90 (code c).
Definition letter_or_space (c : ascii) : bool :=
  between 97 122 (code c) || between 65 90 (code c) || isspace c.
Definition not_dot (c : ascii) : bool := negb (eqb_char c "."%char).

End Re.

(** ** question_generator.py *)

Module QuestionGenerator.
Import PyStr Py Random.

(** A question dictionary: the keys ['question'], ['answer'], ['context']. *)
Record QuestionRecord : Type := {
  question : str;
  answer : str;
  context : str
}.

Definition is_sentence_end (c : ascii) : bool :=
  eqb_char c "."%char || eqb_char c "!"%char || eqb_char c "?"%char.

(** Where the scan of [re_split_sentences] stands: inside a piece, behind a
    run of [.!?] that no whitespace has followed yet, or inside the
    whitespace that ends a separator. *)
Inductive split_mode : Type :=
| InPiece
| AfterPunct (pend : str)
| InSeparator.

(** [re.split(r'[.!?]+\s+', text)]; [cur] and [pend] are kept reversed. *)
Fixpoint re_split_sentences (mode : split_mode) (cur : str) (s : str) : list str :=
  match s with
  | [] =>
      match mode with
      | InPiece | InSeparator => [rev cur]
      | AfterPunct pend => [rev (pend ++ cur)]
      end
  | c :: s' =>
      match mode with
      | InPiece | InSeparator =>
          if (match mode with InSeparator => isspace c | _ => false end)
          then re_split_sentences InSeparator cur s'
          else if is_sentence_end c then re_split_sentences (AfterPunct [c]) cur s'
          else re_split_sentences InPiece (c :: cur) s'
      | AfterPunct pend =>
          if is_sentence_end c then re_split_sentences (AfterPunct (c :: pend)) cur s'
          else if isspace c then rev cur :: re_split_sentences InSeparator [] s'
          else re_split_sentences InPiece (c :: pend ++ cur) s'
      end
  end.

(** The state of a [QuestionGenerator] object. *)
Record generator (V M : Type) : Type := {
  markdown_content : str;
  sentences : list str;
  vectorizer : option V;
  sentence_vectors : option M
}.

Arguments markdown_content {V M} _.
Arguments sentences {V M} _.
Arguments vectorizer {V M} _.
Arguments sentence_vectors {V M} _.

(** The keyword search, written twice in the source with the same text: in
    the first branch of [_find_relevant_sentences] and as this method. *)
Definition _find_relevant_sentences_keyword (sentences : list str)
    (topic : str) (n_sentences : nat) : list str :=
  let topic_lower := lower topic in
  let topic_words : gset str := list_to_set (split topic_lower) in
  let relevant :=
    flat_map
      (fun sent =>
         let sent_lower := lower sent in
         let matches :=
           length (List.filter (fun word => contains word sent_lower)
                               (elements topic_words)) in
         if 0 <? matches then [(sent, matches)] else [])
      sentences in
  let relevant := sort_desc snd relevant in
  map fst (firstn n_sentences relevant).

(** [[self.sentences[i] for i in top_indices if similarities[i] > 0.1]] *)
Fixpoint select_relevant (sentences : list str) (similarities : list float)
    (top_indices : list nat) : result (list str) :=
  match top_indices with
  | [] => Ok []
  | i :: rest =>
      match nth_error similarities i with
      | None => Raise IndexError
      | Some s =>
          if PyNum.gt s 0.1%float then
            match nth_error sentences i with
            | None => Raise IndexError
            | Some sent =>
                bind (select_relevant sentences similarities rest)
                     (fun l => Ok (sent :: l))
            end
          else select_relevant sentences similarities rest
      end
  end.

Section WithLibraries.

(** NLTK: [sent_tokenize], [word_tokenize] and [pos_tag]. *)
Variable sent_tokenize : str -> result (list str).
Variable word_tokenize : str -> result (list str).
Variable pos_tag : list str -> result (list (str * str)).

(** scikit-learn: a fitted [TfidfVectorizer] and its matrix of sentence
    vectors; [fit_transform] builds both, [cosine_similarities v m topic] is
    [cosine_similarity(v.transform([topic]), m)[0]]. *)
Variables V M : Type.
Variable fit_transform : list str -> result (V * M).
Variable cosine_similarities : V -> M -> str -> result (list float).

(** numpy: [similarities.argsort()]. *)
Variable argsort : list float -> list nat.

Definition _extract_sentences (markdown_content : str) : list str :=
  let sentences :=
    match sent_tokenize markdown_content with
    | Ok l => l
    | Raise _ => re_split_sentences InPiece [] markdown_content
    end in
  map strip (List.filter (fun s => 20 <? length (strip s)) sentences).

Definition _build_tfidf_index (self : generator V M) : result (generator V M) :=
  let self :=
    match sentences self with
    | [] => {| markdown_content := markdown_content self;
               sentences := _extract_sentences (markdown_content self);
               vectorizer := vectorizer self;
               sentence_vectors := sentence_vectors self |}
    | _ :: _ => self
    end in
  match sentences self with
  | [] => Ok self
  | _ :: _ =>
      bind (fit_transform (sentences self)) (fun fitted =>
      Ok {| markdown_content := markdown_content self;
            sentences := sentences self;
            vectorizer := Some (fst fitted);
            sentence_vectors := Some (snd fitted) |})
  end.

(** [QuestionGenerator(markdown_content)] *)
Definition __init__ (markdown_content : str) : result (generator V M) :=
  _build_tfidf_index
    {| markdown_content := markdown_content;
       sentences := _extract_sentences markdown_content;
       vectorizer := None;
       sentence_vectors := None |}.

(** The body of the [try] block of [_find_relevant_sentences]. *)
Definition tfidf_search (self : generator V M) (v : V) (m : M) (topic : str)
    (n_sentences : nat) : result (list str) :=
  bind (cosine_similarities v m topic) (fun similarities =>
  let top_indices := rev (last_n n_sentences (argsort similarities)) in
  bind (select_relevant (sentences self) similarities top_indices)
       (fun relevant_sentences =>
  Ok (firstn n_sentences relevant_sentences))).

Definition _find_relevant_sentences (self : generator V M) (topic : str)
    (n_sentences : nat) : result (list str) :=
  match vectorizer self, sentence_vectors self with
  | Some v, Some m =>
      try_except (tfidf_search self v m topic n_sentences)
        (Ok (_find_relevant_sentences_keyword (sentences self) topic n_sentences))
  | _, _ =>
      Ok (_find_relevant_sentences_keyword (sentences self) topic n_sentences)
  end.

(** [sentence[0].isupper()] on a sentence known to be non-empty. *)
Definition starts_upper (sentence : str) : bool :=
  match sentence with
  | [] => false
  | c :: _ => isupper c
  end.

Definition count_char (c : ascii) (s : str) : nat :=
  length (List.filter (eqb_char c) s).

Definition _is_valid_sentence_for_question (sentence : str) : bool :=
  if length (strip sentence) <? 20 then false
  else if negb (starts_upper sentence) then false
  else if 8 <? count_char ","%char sentence then false
  else
    let checked :=
      bind (word_tokenize sentence) (fun words =>
      if length words <? 5 then Ok false
      else
        bind (pos_tag words) (fun tagged =>
        let has_verb :=
          existsb (fun wt => startswith (lit "VB") (snd wt)) tagged in
        if negb has_verb && (length words <? 10) then Ok false
        else Ok true)) in
    match checked with
    | Ok b => b
    | Raise _ => if length (split sentence) <? 5 then false else true
    end.

(** The lenient filter of [generate_questions]:
    [len(s.strip()) > 20 and s[0].isupper()]. *)
Definition lenient_valid (s : str) : bool :=
  (20 <? length (strip s)) && starts_upper s.

(** *** The transformation strategies

    [question] and [answer] are [None] until a strategy assigns them; each
    strategy but the first runs under [if not question]. *)

Definition truthy_opt (o : option str) : bool :=
  match o with
  | Some s => truthy s
  | None => false
  end.

Definition assignment : Type := (option str * option str)%type.

(** [if not question: ...], the block assigning both variables or none. *)
Definition unless_question (qa : assignment) (block : option (str * str))
  : assignment :=
  if truthy_opt (fst qa) then qa
  else match block with
       | Some (question, answer) => (Some question, Some answer)
       | None => qa
       end.

(** [text[:limit].rsplit(' ', 1)[0] + '...'] when [text] is longer than
    [limit]. *)
Definition limit_length (limit : nat) (text : str) : str :=
  if limit <? length text then rsplit1_head (prefix limit text) ++ lit "..."
  else text.

(** [\b(w1|w2|...)\b] under [re.IGNORECASE], searched in [subject]. *)
Definition mentions (ws : list string) (subject : str) : bool :=
  match Re.search (Re.seq_of [Re.WordBoundary; Re.Grp 1 (Re.words_i ws);
                              Re.WordBoundary]) subject with
  | Some _ => true
  | None => false
  end.

(** [re.sub(r'\s+(w1|w2|...)$', '', subject, flags=re.IGNORECASE)] *)
Definition drop_trailing (ws : list string) (subject : str) : str :=
  Re.delete_all (Re.seq_of [Re.spaces; Re.Grp 1 (Re.words_i ws); Re.Eol])
                subject.

(** [([A-Z][a-zA-Z\s]{lo,hi}?)] under [re.IGNORECASE], as group 1. *)
Definition lazy_subject (lo hi : nat) : Re.regex :=
  Re.Grp 1 (Re.Cat (Re.Chr (Re.ignore_case Re.upper_az))
                   (Re.Rep false lo (Some hi) (Re.Chr Re.letter_or_space))).

(** [([^.]{lo,hi})] as group 2. *)
Definition up_to_dot (lo hi : nat) : Re.regex :=
  Re.Grp 2 (Re.Rep true lo (Some hi) (Re.Chr Re.not_dot)).

(** Strategy 1: a definition. *)
Definition pattern_definition : Re.regex :=
  Re.seq_of [Re.Bol; lazy_subject 3 40; Re.spaces; Re.text_i "is"; Re.spaces;
             up_to_dot 10 100].

Definition strategy_definition (sentence : str) : option (str * str) :=
  match Re.search pattern_definition sentence with
  | None => None
  | Some m =>
      let subject := strip (Re.group m 1) in
      let definition := strip (Re.group m 2) in
      if negb (mentions ["uses"; "does"; "performs"; "facilitates"; "manages";
                         "involves"]%string subject)
      then
        let subject :=
          drop_trailing ["is"; "are"; "was"; "were"; "the"; "a"; "an"]%string
                        subject in
        let definition := limit_length 100 definition in
        Some (lit "What is " ++ subject ++ lit "?", definition)
      else None
  end.

(** Strategy 2: an agent. *)
Definition pattern_agent : Re.regex :=
  Re.seq_of
    [Re.Grp 1 (Re.Cat (Re.Chr (Re.ignore_case Re.upper_az))
                      (Re.Rep true 5 (Some 40) (Re.Chr Re.letter_or_space)));
     Re.text " "; Re.words_i ["is"; "are"]%string; Re.text " ";
     Re.words_i ["done by"; "performed by"; "led by"; "facilitated by";
                 "responsible for"]%string;
     Re.text " ";
     Re.Grp 2 (Re.Cat (Re.Chr (Re.ignore_case Re.upper_az))
                      (Re.Rep true 3 (Some 50) (Re.Chr Re.letter_or_space)))].

Fixpoint take_until (stop : ascii -> bool) (s : str) : str :=
  match s with
  | [] => []
  | c :: s' => if stop c then [] else c :: take_until stop s'
  end.

(** [re.split(r'[,\s]+', actor)[0]] *)
Definition first_part (actor : str) : str :=
  take_until (fun c => eqb_char c ","%char || isspace c) actor.

Definition strategy_agent (sentence : str) : option (str * str) :=
  match Re.search pattern_agent sentence with
  | None => None
  | Some m =>
      let action := strip (Re.group m 1) in
      let actor := strip (Re.group m 2) in
      let actor := first_part actor in
      let actor := if 30 <? length actor then prefix 30 actor else actor in
      Some (lit "Who " ++ lower action ++ lit "?", actor)
  end.

(** Strategy 3: a quantity. *)
Definition pattern_quantity : Re.regex :=
  Re.seq_of
    [Re.Grp 1 (Re.Cat (Re.Chr (Re.ignore_case Re.upper_az))
                      (Re.Rep true 5 None (Re.Chr Re.not_dot)));
     Re.text " "; Re.words_i ["is"; "are"; "lasts"; "takes"]%string;
     Re.text " ";
     Re.opt (Re.words_i ["typically"; "usually"; "generally"; "about";
                         "approximately"]%string);
     Re.star (Re.Chr isspace);
     Re.Grp 2 (Re.plus (Re.Chr isdigit));
     Re.spaces;
     Re.Grp 3 (Re.plus (Re.Chr isword))].

Definition time_units : list str :=
  map lit ["week"; "weeks"; "day"; "days"; "hour"; "hours"]%string.

Definition strategy_quantity (sentence : str) : option (str * str) :=
  match Re.search pattern_quantity sentence with
  | None => None
  | Some m =>
      let subject := strip (Re.group m 1) in
      let number := Re.group m 2 in
      let unit := Re.group m 3 in
      let question :=
        if existsb (eqb unit) time_units
        then lit "How long is " ++ lower subject ++ lit "?"
        else lit "How many " ++ unit ++ lit " is " ++ lower subject ++ lit "?" in
      Some (question, number ++ lit " " ++ unit)
  end.

(** Strategy 4: a blank in place of a noun phrase. *)
Definition is_noun_or_adjective (tag : str) : bool :=
  startswith (lit "NN") tag || startswith (lit "JJ") tag.

Definition phrase_of (current_phrase : list str) : list str :=
  if (2 <=? length current_phrase) && (length current_phrase <=? 4)
  then [join [space] current_phrase] else [].

(** The loop over [tagged]; [current_phrase] is kept in order. *)
Fixpoint noun_phrases (tagged : list (str * str)) (current_phrase : list str)
  : list str :=
  match tagged with
  | [] => phrase_of current_phrase
  | (word, tag) :: rest =>
      if is_noun_or_adjective tag
      then noun_phrases rest (current_phrase ++ [word])
      else phrase_of current_phrase ++ noun_phrases rest []
  end.

Fixpoint insert_asc {A : Type} (key : A -> nat) (x : A) (l : list A) : list A :=
  match l with
  | [] => [x]
  | y :: l' => if key x <? key y then x :: l else y :: insert_asc key x l'
  end.

(** [l.sort(key=len)]: ascending and stable. *)
Definition sort_by_length (l : list str) : list str :=
  fold_left (fun acc x => insert_asc (@length ascii) x acc) l [].

(** [s.replace(old, new, 1)] for a non-empty [old]. *)
Fixpoint replace_first (old new s : str) : str :=
  if startswith old s then new ++ skipn (length old) s
  else match s with
       | [] => []
       | c :: s' => c :: replace_first old new s'
       end.

Definition strategy_blank (sentence : str) : option (str * str) :=
  let tagged :=
    match bind (word_tokenize sentence) pos_tag with
    | Ok tagged => tagged
    | Raise _ => map (fun w => (w, lit "NN")) (split sentence)
    end in
  let important_terms := noun_phrases tagged [] in
  match important_terms with
  | [] => None
  | _ :: _ =>
      let important_terms := sort_by_length important_terms in
      let answer_term :=
        match find (fun term => (3 <=? length (split term))
                                && (length (split term) <=? 5))
                   important_terms with
        | Some term => term
        | None => List.last important_terms []
        end in
      if truthy answer_term && (5 <? length answer_term)
         && (length answer_term <? 50)
      then
        let question := replace_first answer_term (lit "_____") sentence in
        let question :=
          if 150 <? length question then
            let words := split question in
            if 20 <? length words
            then join [space] (firstn 20 words) ++ lit "..."
            else question
          else question in
        Some (question, answer_term)
      else None
  end.

(** Strategy 5: a capability. *)
Definition action_verbs : list string :=
  ["performs"; "facilitates"; "manages"; "handles"; "executes"]%string.

Definition pattern_capability : Re.regex :=
  Re.seq_of [Re.Bol; lazy_subject 3 30; Re.spaces; Re.words_i action_verbs;
             Re.spaces; up_to_dot 10 80].

Definition generic_subjects : list str :=
  map lit ["finance"; "healthcare"; "transportation"; "e-commerce";
           "industry"; "field"; "domain"]%string.

Definition strategy_capability (sentence : str) : option (str * str) :=
  match Re.search pattern_capability sentence with
  | None => None
  | Some m =>
      let subject := strip (Re.group m 1) in
      let action := strip (Re.group m 2) in
      if negb (existsb (eqb (lower subject)) generic_subjects) then
        let subject := drop_trailing action_verbs subject in
        let action := limit_length 80 action in
        Some (lit "What does " ++ subject ++ lit " do?", action)
      else None
  end.

(** Strategy 6: a composition. *)
Definition pattern_composition : Re.regex :=
  Re.seq_of [Re.Bol; lazy_subject 3 30; Re.spaces;
             Re.words_i ["includes"; "consists of"; "has"; "contains"]%string;
             Re.spaces; up_to_dot 10 100].

Definition strategy_composition (sentence : str) : option (str * str) :=
  match Re.search pattern_composition sentence with
  | None => None
  | Some m =>
      let subject := strip (Re.group m 1) in
      let items := strip (Re.group m 2) in
      let subject :=
        drop_trailing ["includes"; "consists"; "has"; "contains"; "are"; "is";
                       "of"]%string subject in
      if (40 <? length subject)
         || mentions ["uses"; "does"; "performs"; "enables"]%string subject
      then None
      else
        let items := limit_length 80 items in
        Some (lit "What are the components or types of " ++ subject ++ lit "?",
              items)
  end.

(** Strategy 7: a purpose. *)
Definition pattern_purpose : Re.regex :=
  Re.seq_of [Re.Bol; lazy_subject 5 40; Re.spaces;
             Re.words_i ["is"; "are"]%string; Re.spaces;
             Re.words_i ["used for"; "designed to"; "aims to"; "purpose is";
                         "role is"]%string;
             Re.spaces; up_to_dot 10 80].

Definition strategy_purpose (sentence : str) : option (str * str) :=
  match Re.search pattern_purpose sentence with
  | None => None
  | Some m =>
      let subject := strip (Re.group m 1) in
      let purpose := strip (Re.group m 2) in
      let subject :=
        drop_trailing ["is"; "are"; "used"; "designed"; "aims"; "purpose";
                       "role"]%string subject in
      let purpose := limit_length 80 purpose in
      Some (lit "What is the purpose of " ++ subject ++ lit "?", purpose)
  end.

(** Strategy 8: a definition anywhere in the sentence; the pattern is
    case-sensitive. *)
Definition pattern_loose_definition : Re.regex :=
  Re.seq_of
    [Re.Grp 1 (Re.Cat (Re.Chr Re.upper_az)
                      (Re.Rep false 3 (Some 35) (Re.Chr Re.letter_or_space)));
     Re.spaces; Re.text "is"; Re.spaces; up_to_dot 15 100].

Definition strategy_loose_definition (sentence : str) : option (str * str) :=
  match Re.search pattern_loose_definition sentence with
  | None => None
  | Some m =>
      let subject := strip (Re.group m 1) in
      let definition := strip (Re.group m 2) in
      if negb (mentions ["uses"; "does"; "performs"; "facilitates"; "manages";
                         "involves"; "enables"; "allows"]%string subject)
      then
        let subject :=
          drop_trailing ["is"; "are"; "was"; "were"; "the"; "a"; "an"]%string
                        subject in
        if (length subject <? 50) && (10 <? length definition) then
          let definition := limit_length 100 definition in
          Some (lit "What is " ++ subject ++ lit "?", definition)
        else None
      else None
  end.

(** Strategy 9: an explanation of a key term. *)
Fixpoint important_nouns (tagged : list (str * str)) : result (list str) :=
  match tagged with
  | [] => Ok []
  | (word, tag) :: rest =>
      bind
        (if startswith (lit "NNP") tag then Ok true
         else if startswith (lit "NN") tag then
           match word with
           | [] => Raise IndexError
           | c :: _ => Ok (isupper c && (4 <? length word))
           end
         else Ok false)
        (fun important =>
      bind (important_nouns rest) (fun more =>
      Ok (if important then word :: more else more)))
  end.

Definition strategy_explain (sentence : str) : option (str * str) :=
  if 30 <? length sentence then
    match bind (bind (word_tokenize sentence) pos_tag) important_nouns with
    | Ok (key_term :: _) =>
        let answer_text :=
          if 120 <? length sentence then prefix 120 sentence else sentence in
        Some (lit "Explain: " ++ key_term, answer_text)
    | Ok [] => None
    | Raise _ => None
    end
  else None.

(** The nine strategies in their order. *)
Definition strategies (sentence : str) : assignment :=
  let qa : assignment :=
    match strategy_definition sentence with
    | Some (question, answer) => (Some question, Some answer)
    | None => (None, None)
    end in
  let qa := unless_question qa (strategy_agent sentence) in
  let qa := unless_question qa (strategy_quantity sentence) in
  let qa := unless_question qa (strategy_blank sentence) in
  let qa := unless_question qa (strategy_capability sentence) in
  let qa := unless_question qa (strategy_composition sentence) in
  let qa := unless_question qa (strategy_purpose sentence) in
  let qa := unless_question qa (strategy_loose_definition sentence) in
  let qa := unless_question qa (strategy_explain sentence) in
  qa.

(** The clean-up of the answer. *)
Definition clean_answer (answer : str) : str :=
  let answer := rstrip_chars is_sentence_end (strip answer) in
  let answer := join [space] (split answer) in
  limit_length 100 answer.

(** The clean-up of the question. *)
Definition clean_question (question : str) : str :=
  let question := strip question in
  let question := join [space] (split question) in
  limit_length 200 question.

(** The end of [_generate_question_from_sentence], from the test
    [if not question] on. *)
Definition finish_question (original_sentence : str)
    (question answer : option str) : option QuestionRecord :=
  if negb (truthy_opt question) then None
  else
    let answer :=
      if truthy_opt answer then option_map clean_answer answer else answer in
    let question :=
      if truthy_opt question then option_map clean_question question
      else question in
    match question, answer with
    | Some q, Some a =>
        if truthy q && truthy a && (10 <? length q) && (5 <? length a) then
          Some {| question := q; answer := a;
                  context := prefix 200 original_sentence |}
        else None
    | _, _ => None
    end.

Definition _generate_question_from_sentence (sentence : str)
  : option QuestionRecord :=
  let sentence := strip sentence in
  if length sentence <? 20 then None
  else
    let original_sentence := sentence in
    let sentence := rstrip_chars is_sentence_end sentence in
    let (question, answer) := strategies sentence in
    finish_question original_sentence question answer.

(** The local state of [generate_questions], and the sentences handed to
    [_generate_question_from_sentence] so far, in call order. *)
Record progress : Type := {
  questions : list QuestionRecord;
  seen_questions : gset str;
  attempted : list str
}.

Definition start : progress :=
  {| questions := []; seen_questions := ∅; attempted := [] |}.

(** One call of the synthesizer and the duplicate check that follows it;
    the flag tells whether a question was appended. *)
Definition attempt (sentence : str) (st : progress) : progress * bool :=
  let q_data := _generate_question_from_sentence sentence in
  let log := attempted st ++ [sentence] in
  match q_data with
  | Some q =>
      let q_key := lower (question q) in
      if bool_decide (q_key ∉ seen_questions st) then
        ({| questions := questions st ++ [q];
            seen_questions := {[ q_key ]} ∪ seen_questions st;
            attempted := log |}, true)
      else
        ({| questions := questions st; seen_questions := seen_questions st;
            attempted := log |}, false)
  | None =>
      ({| questions := questions st; seen_questions := seen_questions st;
          attempted := log |}, false)
  end.

(** The first loop, with its count of consecutive failures. *)
Fixpoint first_pass (num_questions : nat) (valid_sentences : list str)
    (consecutive_failures : nat) (st : progress) : progress :=
  match valid_sentences with
  | [] => st
  | sentence :: rest =>
      if num_questions <=? length (questions st) then st
      else
        let (st', added) := attempt sentence st in
        let consecutive_failures :=
          if added then 0 else S consecutive_failures in
        if 50 <? consecutive_failures then st'
        else first_pass num_questions rest consecutive_failures st'
  end.

(** The second loop. *)
Fixpoint second_pass (num_questions : nat) (additional_valid : list str)
    (st : progress) : progress :=
  match additional_valid with
  | [] => st
  | sentence :: rest =>
      if num_questions <=? length (questions st) then st
      else second_pass num_questions rest (fst (attempt sentence st))
  end.

(** The third loop. *)
Fixpoint third_pass (num_questions : nat) (tried_sentences : gset str)
    (all_remaining : list str) (st : progress) : progress :=
  match all_remaining with
  | [] => st
  | sentence :: rest =>
      if num_questions <=? length (questions st) then st
      else if bool_decide (sentence ∈ tried_sentences) then
        third_pass num_questions tried_sentences rest st
      else
        third_pass num_questions tried_sentences rest
                   (fst (attempt sentence st))
  end.

(** [generate_questions] up to its [return]: the final state. *)
Definition generate_questions_run (self : generator V M) (g : rng)
    (topic : option str) (num_questions : nat) : result progress :=
  let max_attempts := num_questions * 10 in
  bind
    (if truthy_opt topic then
       bind (_find_relevant_sentences self (default [] topic) max_attempts)
            (fun l => Ok (l, g))
     else if num_questions <? length (sentences self) then
       let (r, g') :=
         random_sample (sentences self)
                       (Nat.min max_attempts (length (sentences self))) g in
       bind r (fun l => Ok (l, g'))
     else Ok (sentences self, g))
    (fun '(relevant_sentences, g) =>
  let valid_sentences :=
    List.filter _is_valid_sentence_for_question relevant_sentences in
  let valid_sentences :=
    if length valid_sentences <? num_questions * 2 then
      List.filter lenient_valid relevant_sentences
    else valid_sentences in
  let st := first_pass num_questions valid_sentences 0 start in
  if length (questions st) <? num_questions then
    let tried_sentences : gset str := list_to_set valid_sentences in
    let remaining_sentences :=
      List.filter (fun s => bool_decide (s ∉ tried_sentences))
                  (sentences self) in
    bind
      (match remaining_sentences with
       | [] => Ok (st, g)
       | _ :: _ =>
           let (r, g') :=
             random_sample remaining_sentences
               (Nat.min (num_questions * 5) (length remaining_sentences)) g in
           bind r (fun additional_sentences =>
           let additional_valid :=
             List.filter lenient_valid additional_sentences in
           Ok (second_pass num_questions additional_valid st, g'))
       end)
      (fun '(st, g) =>
    if length (questions st) <? num_questions then
      let all_remaining :=
        List.filter (fun s => 15 <? length (strip s)) (sentences self) in
      let (all_remaining, _) := random_shuffle all_remaining g in
      Ok (third_pass num_questions tried_sentences all_remaining st)
    else Ok st)
  else Ok st).

Definition generate_questions (self : generator V M) (g : rng)
    (topic : option str) (num_questions : nat) : result (list QuestionRecord) :=
  bind (generate_questions_run self g topic num_questions) (fun st =>
  Ok (firstn num_questions (questions st))).

End WithLibraries.

End QuestionGenerator.

(** ** The decision order of the specification

    The answer evaluator as the specification words it: seven checks, a to
    g, tried in that order, the first one that matches giving the verdict.
    It is compared with [Evaluator.evaluate_answer] below. *)

Module EvaluatorSpec.
Import PyStr Evaluator.

Inductive check : Set :=
| CheckA | CheckB | CheckC | CheckD | CheckE | CheckF | CheckG.

Definition decision_order : list check :=
  [CheckA; CheckB; CheckC; CheckD; CheckE; CheckF; CheckG].

Section WithLibraries.

Variable ratio : str -> str -> float.
Variable format_percent : float -> str.
Variable threshold : float.

(** The fuzzy score: the weighted sum of the sequence ratio and of the
    Jaccard index of the keyword sets, or the ratio alone when a keyword set
    is empty. *)
Definition sequence_similarity (text1 text2 : str) : float :=
  ratio (_normalize_text text1) (_normalize_text text2).

Definition keyword_jaccard (text1 text2 : str) : float :=
  PyNum.truediv
    (size (_extract_keywords text1 ∩ _extract_keywords text2))
    (size (_extract_keywords text1 ∪ _extract_keywords text2)).

Definition fuzzy_score (text1 text2 : str) : float :=
  if nonempty (_extract_keywords text1) && nonempty (_extract_keywords text2)
  then PrimFloat.add
         (PrimFloat.mul (sequence_similarity text1 text2) 0.4%float)
         (PrimFloat.mul (keyword_jaccard text1 text2) 0.6%float)
  else sequence_similarity text1 text2.

(** Whether a check matches. *)
Definition matches (k : check) (user_answer correct_answer : str) : bool :=
  let user_norm := _normalize_text user_answer in
  let correct_norm := _normalize_text correct_answer in
  match k with
  | CheckA => forallb isspace user_answer
  | CheckB => eqb user_norm correct_norm
  | CheckC => contains correct_norm user_norm
  | CheckD =>
      contains user_norm correct_norm
      && PyNum.gt (PyNum.of_nat (length user_norm))
                  (PrimFloat.mul (PyNum.of_nat (length correct_norm)) 0.7%float)
  | CheckE =>
      PyNum.ge (_fuzzy_match ratio user_answer correct_answer) threshold
  | CheckF => _check_key_phrases user_answer correct_answer
  | CheckG => true
  end.

(** The verdict of a check that has matched. *)
Definition verdict (k : check) (user_answer correct_answer : str) : bool * str :=
  match k with
  | CheckA => (false, lit "Incorrect. The correct answer is: " ++ correct_answer)
  | CheckB | CheckC | CheckD | CheckE | CheckF => (true, lit "Correct!")
  | CheckG =>
      let similarity := _fuzzy_match ratio user_answer correct_answer in
      (false,
       lit "Incorrect. The correct answer is: " ++ correct_answer ++
       (if PyNum.gt similarity 0.3%float
        then lit " (Your answer was close: " ++ format_percent similarity
             ++ lit " similar)"
        else []))
  end.

(** The first check of a list that matches. *)
Definition first_match (order : list check) (user_answer correct_answer : str)
  : option check :=
  find (fun k => matches k user_answer correct_answer) order.

Definition evaluate (user_answer correct_answer : str) : option (bool * str) :=
  option_map (fun k => verdict k user_answer correct_answer)
             (first_match decision_order user_answer correct_answer).

End WithLibraries.

End EvaluatorSpec.

(** ** A scenario of the specification *)

Module EvaluatorScenario.

(** The user answer and the correct answer of the scenario.  Their
    normalisations share 21 characters in matching blocks, out of 66 in
    all, so difflib's ratio is [42 / 66] on them. *)
Definition scenario_user : str := lit "iterative development".
Definition scenario_correct : str :=
  lit "an iterative software development methodology".
Definition scenario_ratio (a b : str) : float := PrimFloat.div 42 66.
Definition scenario_percent (x : float) : str := lit "55%".

End EvaluatorScenario.

(** ** A stored session *)

Module QuizScenario.
Import QuizRunner.

(** The results of a session of two questions. *)
Definition session : list QuizResult :=
  [ {| question := lit "What is Agile?";
       user_answer := lit "iterative development";
       correct_answer := lit "an iterative software development methodology";
       is_correct := true;
       context := lit "Agile is an iterative software development methodology." |};
    {| question := lit "What is Scrum?";
       user_answer := lit "a meeting";
       correct_answer := lit "a framework for Agile";
       is_correct := false;
       context := [] |} ].

End QuizScenario.

(** ** The contract of argsort and a ranking scenario *)

Module RankerScenario.
Import PyStr Py QuestionGenerator.

(** The score of the sentence at index [i]. *)
Definition score (similarities : list float) (i : nat) : float :=
  nth i similarities 0%float.

(** The indices a ranking keeps: those whose score exceeds 0.1. *)
Definition kept (similarities : list float) (top_indices : list nat) : list nat :=
  List.filter (fun i => PyNum.gt (score similarities i) 0.1%float) top_indices.

Fixpoint ascending_from (similarities : list float) (i : nat) (rest : list nat)
  : bool :=
  match rest with
  | [] => true
  | j :: rest' =>
      PrimFloat.leb (score similarities i) (score similarities j)
      && ascending_from similarities i rest'
  end.

(** What numpy promises of [similarities.argsort()], as far as the ranker
    depends on it: indices of the array, each score at most the scores
    behind it.  Where equal scores go is left open. *)
Fixpoint is_ascending_argsort (similarities : list float) (indices : list nat)
  : bool :=
  match indices with
  | [] => true
  | i :: rest =>
      (i <? length similarities)
      && ascending_from similarities i rest
      && is_ascending_argsort similarities rest
  end.

Fixpoint insert_asc (similarities : list float) (i : nat) (l : list nat)
  : list nat :=
  match l with
  | [] => [i]
  | j :: l' =>
      if PrimFloat.ltb (score similarities i) (score similarities j)
      then i :: l
      else j :: insert_asc similarities i l'
  end.

(** A stable argsort: equal scores keep their index order.  numpy offers
    it as [kind='stable'], and the introsort behind its default orders an
    array of up to sixteen elements by insertion, with the same result. *)
Definition stable_argsort (similarities : list float) : list nat :=
  fold_left (fun acc i => insert_asc similarities i acc)
            (seq 0 (length similarities)) [].

(** A corpus of three sentences; the first two differ in one word. *)
Definition sentence_planning : str := lit "Sprint planning precedes development.".
Definition sentence_polishing : str := lit "Sprint polishing precedes development.".
Definition sentence_kanban : str := lit "Kanban boards visualize unfinished work.".

Definition corpus : list str :=
  [sentence_planning; sentence_polishing; sentence_kanban].

(** The generator once its index is built; the index itself is opaque. *)
Definition ranked_generator : generator unit unit :=
  {| markdown_content := join [space] corpus;
     sentences := corpus;
     vectorizer := Some tt;
     sentence_vectors := Some tt |}.

(** The similarities of the three sentences to the topic [sprint], as
    scikit-learn computes them for this corpus.  The first two sentences
    hold the same seven weights, four of [ln(4/3) + 1] and three of
    [ln(2) + 1], but in different positions of their rows; the squares are
    summed in another order, and the two scores differ in the last binary
    digit.  The third sentence shares no term with the topic. *)
Definition sprint_similarities (v m : unit) (topic : str) : result (list float) :=
  Ok [0.3299283214573658%float; 0.32992832145736584%float; 0%float].

(** A corpus whose first two sentences differ in a stop word only.  The
    index drops [the] before it forms terms, so both sentences have the
    terms [sprint], [planning], [precedes], [development],
    [sprint planning], [planning precedes] and [precedes development],
    once each, and each term occurs in two of the three sentences: the two
    rows of the index are the same row. *)
Definition sentence_restated : str :=
  lit "Sprint planning precedes the development.".

Definition tied_corpus : list str :=
  [sentence_planning; sentence_restated; sentence_kanban].

Definition tied_generator : generator unit unit :=
  {| markdown_content := join [space] tied_corpus;
     sentences := tied_corpus;
     vectorizer := Some tt;
     sentence_vectors := Some tt |}.

(** The similarities of [tied_corpus] to the topic [sprint], as
    scikit-learn computes them: seven equal weights normalise to the
    binary64 value of one over the square root of seven, for the first
    sentence and for the second alike; the third shares no term with the
    topic. *)
Definition tied_similarities (v m : unit) (topic : str) : result (list float) :=
  Ok [0.37796447300922725%float; 0.37796447300922725%float; 0%float].

(** A query that fails. *)
Definition failing_similarities (v m : unit) (topic : str) : result (list float) :=
  Raise LibraryError.

(** scikit-learn's document-frequency check: with [max_df=0.95] and
    [min_df=1], a corpus of a single sentence is refused with a
    [ValueError], since [0.95 * 1 < 1]. *)
Definition fit_refusing_single (docs : list str) : result (unit * unit) :=
  if length docs <=? 1 then Raise ValueError else Ok (tt, tt).

(** NLTK's sentence tokenizer on a text of one sentence. *)
Definition tokenize_whole (text : str) : result (list str) := Ok [text].

End RankerScenario.

(** ** The invariant of the assembler and a topic outside the vocabulary *)

Module AssemblerScenario.
Import PyStr Py QuestionGenerator.

(** The key of the duplicate check: the lowercased question text. *)
Definition key (q : QuestionRecord) : str := lower (question q).

(** What the three loops keep true: the accepted questions have distinct
    keys, all of them recorded in [seen_questions]. *)
Definition distinct (st : progress) : Prop :=
  NoDup (map key (questions st))
  /\ forall q, In q (questions st) -> key q ∈ seen_questions st.


(** The similarities of the three sentences of [RankerScenario.corpus] to
    a topic that shares no term with them. *)
Definition no_similarities (v m : unit) (topic : str) : result (list float) :=
  Ok [0%float; 0%float; 0%float].

Definition str_eq_dec : forall a b : str, {a = b} + {a <> b} :=
  List.list_eq_dec ascii_dec.

End AssemblerScenario.

(** ** Sentences for the synthesizer *)

Module SynthesizerScenario.
Import Py.

(** The first sentence of the specification's scenario. *)
Definition sentence_agile : str :=
  lit "Agile is an iterative software development methodology.".

(** A long sentence that states a duration. *)
Definition sentence_regression : str :=
  lit "The complete regression suite for the payment service, that covers the checkout flow, the refund flow, the currency conversion rules and the fraud screening hooks in all supported regions and currencies usually takes about 45 minutes.".

(** A sentence that writes a googol out: a one and a hundred zeros. *)
Definition sentence_googol : str :=
  lit "Googol, as a number, is 1" ++ repeat "0"%char 100 ++ lit " exactly.".

(** NLTK without its data: both calls raise [LookupError]. *)
Definition tokenizer_missing (text : str) : result (list str) :=
  Raise LookupError.
Definition tagger_missing (words : list str) : result (list (str * str)) :=
  Raise LookupError.

End SynthesizerScenario.

(** ** The corpus of the specification's scenario *)

Module AgileScenario.
Import PyStr Py QuestionGenerator.

Definition sentence_waterfall : str :=
  lit "Waterfall is a linear software development methodology.".
Definition sentence_scrum : str := lit "Scrum is a framework for Agile.".

Definition agile_corpus : list str :=
  [SynthesizerScenario.sentence_agile; sentence_waterfall; sentence_scrum].

Definition agile_generator : generator unit unit :=
  {| markdown_content := join [space] agile_corpus;
     sentences := agile_corpus;
     vectorizer := Some tt;
     sentence_vectors := Some tt |}.

(** Similarities to the topic [agile], as scikit-learn computes them for
    this corpus: the first and the third sentence contain the term, the
    second does not.  The third sentence has five terms against the nine of
    the first, so [agile] weighs more in it and it scores higher.  The last
    digit of a score follows the order in which the library adds up the
    squares of a row; the ranking does not depend on it. *)
Definition agile_similarities (v m : unit) (topic : str) : result (list float) :=
  Ok [0.2989843680709143%float; 0%float; 0.3554324678504175%float].

End AgileScenario.

(** ** Notions for the properties of the generator *)

Module KeywordScore.
Import PyStr.

(** [sum(1 for word in topic_words if word in sent_lower)] *)
Definition matches (topic sent : str) : nat :=
  let topic_words : gset str := list_to_set (split (lower topic)) in
  length (List.filter (fun word => contains word (lower sent))
                      (elements topic_words)).

End KeywordScore.

Module GeneratorInvariants.
Import PyStr Py QuestionGenerator.

(** The only whitespace of a text: single spaces. *)
Definition plain_spaces (s : str) : Prop :=
  forall c, In c s -> isspace c = true -> c = space.

(** A match of [[.!?]+\s+]. *)
Definition is_separator (sep : str) : Prop :=
  exists marks blanks,
    sep = marks ++ blanks /\ marks <> [] /\ blanks <> []
    /\ Forall (fun c => is_sentence_end c = true) marks
    /\ Forall (fun c => isspace c = true) blanks.

(** The pieces of a split with the separators put back between them. *)
Fixpoint weave (pieces seps : list str) : str :=
  match pieces, seps with
  | piece :: pieces', sep :: seps' => piece ++ sep ++ weave pieces' seps'
  | [piece], [] => piece
  | _, _ => []
  end.

(** A list in descending order of a key. *)
Definition descending {A : Type} (key : A -> nat) : list A -> Prop :=
  ForallOrdPairs (fun a b => key b <= key a).

(** What the scan of [re_split_sentences] has to give, in each mode. *)
Definition rebuilt (mode : split_mode) (cur s : str) : Prop :=
  let pieces := re_split_sentences mode cur s in
  match mode with
  | InPiece =>
      exists seps,
        length pieces = S (length seps) /\ Forall is_separator seps
        /\ weave pieces seps = rev cur ++ s
  | AfterPunct pend =>
      pend <> [] -> Forall (fun c => is_sentence_end c = true) pend ->
      exists seps,
        length pieces = S (length seps) /\ Forall is_separator seps
        /\ weave pieces seps = rev cur ++ rev pend ++ s
  | InSeparator =>
      exists blanks rest seps,
        s = blanks ++ rest /\ Forall (fun c => isspace c = true) blanks
        /\ length pieces = S (length seps) /\ Forall is_separator seps
        /\ weave pieces seps = rev cur ++ rest
  end.

Section WithLibraries.

Variable word_tokenize : str -> result (list str).
Variable pos_tag : list str -> result (list (str * str)).

(** Records that the synthesizer makes of sentences of a corpus. *)
Definition sourced (corpus : list str) (records : list QuestionRecord) : Prop :=
  forall r, In r records ->
    exists s, In s corpus
      /\ _generate_question_from_sentence word_tokenize pos_tag s = Some r.

End WithLibraries.

End GeneratorInvariants.

(** ** More of Python: [re.match], [int], [str.split] with a separator *)

Module PyMore.
Import PyStr Py.

(** [re.match(r, s)]: a match that starts at the first character. *)
Definition re_match (r : Re.regex) (s : str) : option Re.match_object :=
  Re.run r [] s []
    (fun b a c =>
       Some {| Re.pre := [];
               Re.matched := firstn (length s - length a) s;
               Re.post := a;
               Re.groups := c |}).

(** The whitespace [int] allows around a number. *)
Definition int_space (c : ascii) : bool :=
  let n := code c in
  between 9 13 n || (n =? 32) || (n =? 133) || (n =? 160).

Definition digit_value (c : ascii) : Z := Z.of_nat (code c - 48).

(** The digits of a number, single underscores allowed between them:
    the value and the number of digits.  [after_digit] tells whether the
    character before was a digit. *)
Fixpoint int_digits (s : str) (acc : Z) (count : nat) (after_digit : bool)
  : option (Z * nat) :=
  match s with
  | [] => if after_digit then Some (acc, count) else None
  | c :: s' =>
      if isdigit c then
        int_digits s' (10 * acc + digit_value c)%Z (S count) true
      else if eqb_char c "_"%char && after_digit then
        int_digits s' acc count false
      else None
  end.

(** [sys.get_int_max_str_digits()] as CPython sets it. *)
Definition int_max_str_digits : nat := 4300.

(** [int(s)] *)
Definition int (s : str) : result Z :=
  let s := rstrip_chars int_space (lstrip_chars int_space s) in
  let (negative, body) :=
    match s with
    | c :: rest =>
        if eqb_char c "-"%char then (true, rest)
        else if eqb_char c "+"%char then (false, rest)
        else (false, s)
    | [] => (false, s)
    end in
  match int_digits body 0 0 false with
  | Some (n, count) =>
      if int_max_str_digits <? count then Raise ValueError
      else Ok (if negative then (- n)%Z else n)
  | None => Raise ValueError
  end.

(** [s.split(sep, 1)[1]] for a non-empty [sep]: what follows the first
    occurrence of [sep]. *)
Fixpoint after_first (sep s : str) {struct s} : result str :=
  if startswith sep s then Ok (skipn (length sep) s)
  else match s with
       | [] => Raise IndexError
       | _ :: s' => after_first sep s'
       end.

(** [s.split('\n')] *)
Fixpoint split_lines (s : str) : list str :=
  match s with
  | [] => [[]]
  | c :: s' =>
      if eqb_char c "010"%char then [] :: split_lines s'
      else match split_lines s' with
           | line :: lines => (c :: line) :: lines
           | [] => [[c]]
           end
  end.

End PyMore.

(** ** quiz_runner.py: [run_quiz]

    What is printed is left out; the lines typed at the prompt are the list
    [stdin], and [input] raises [EOFError] when it is empty. *)

Module QuizSession.
Import PyStr PyNum Py Random Evaluator.

(** The dictionary that [run_quiz] returns. *)
Record summary : Type := {
  total : nat;
  correct : nat;
  accuracy : float;
  results : list QuizRunner.QuizResult
}.

Definition no_questions : summary :=
  {| total := 0; correct := 0; accuracy := 0%float; results := [] |}.

(** How a call ends: with its value, or with the [EOFError] of [input]. *)
Inductive outcome (A : Type) : Type :=
| Returned (a : A)
| EOFError.

Arguments Returned {A} a.
Arguments EOFError {A}.

Section WithLibraries.

Variable ratio : str -> str -> float.
Variable format_percent : float -> str.
Variable word_tokenize : str -> result (list str).
Variable pos_tag : list str -> result (list (str * str)).
Variables V M : Type.
Variable cosine_similarities : V -> M -> str -> result (list float).
Variable argsort : list float -> list nat.

(** The body of the loop for the question [q] and the line typed. *)
Definition ask (q : QuestionGenerator.QuestionRecord) (line : str)
  : QuizRunner.QuizResult :=
  let user_answer := strip line in
  let '(is_correct, feedback) :=
    if negb (truthy user_answer) then
      (false,
       lit "Incorrect. The correct answer is: " ++ QuestionGenerator.answer q)
    else
      evaluate_answer ratio format_percent default_threshold user_answer
        (QuestionGenerator.answer q) (QuestionGenerator.question q)
        (QuestionGenerator.context q) in
  {| QuizRunner.question := QuestionGenerator.question q;
     QuizRunner.user_answer := user_answer;
     QuizRunner.correct_answer := QuestionGenerator.answer q;
     QuizRunner.is_correct := is_correct;
     QuizRunner.context := QuestionGenerator.context q |}.

(** The loop over the questions: [self.results], the lines left, and
    whether the loop came to its end. *)
Fixpoint ask_all (questions : list QuestionGenerator.QuestionRecord)
    (stdin : list str) (results : list QuizRunner.QuizResult)
  : list QuizRunner.QuizResult * list str * bool :=
  match questions with
  | [] => (results, stdin, true)
  | q :: rest =>
      match stdin with
      | [] => (results, [], false)
      | line :: stdin' => ask_all rest stdin' (results ++ [ask q line])
      end
  end.

(** [self.results] is [self_results]; the call gives its outcome, the new
    [self.results] and the lines left. *)
Definition run_quiz (self_results : list QuizRunner.QuizResult)
    (question_generator : QuestionGenerator.generator V M) (g : rng)
    (topic : option str) (num_questions : nat) (stdin : list str)
  : outcome summary * list QuizRunner.QuizResult * list str :=
  match QuestionGenerator.generate_questions word_tokenize pos_tag V M
          cosine_similarities argsort question_generator g topic
          num_questions with
  | Raise _ => (Returned no_questions, self_results, stdin)
  | Ok [] => (Returned no_questions, self_results, stdin)
  | Ok questions =>
      let '(results, stdin, finished) := ask_all questions stdin [] in
      if finished then
        let total := length results in
        let correct := length (List.filter QuizRunner.is_correct results) in
        let accuracy :=
          if 0 <? total
          then PrimFloat.mul (truediv correct total) 100%float
          else 0%float in
        (Returned {| total := total; correct := correct;
                     accuracy := accuracy; results := results |},
         results, stdin)
      else (EOFError, results, stdin)
  end.

(** [get_results] *)
Definition get_results (self_results : list QuizRunner.QuizResult)
  : list QuizRunner.QuizResult := self_results.

End WithLibraries.

End QuizSession.

(** ** main.py: [parse_command] and [run_autoquiz] *)

Module Main.
Import PyStr Py PyMore.

(** [(topic, num_questions, command_type, question_text)] *)
Definition parsed : Type := (option str * option Z * str * option str)%type.

Definition command_type (p : parsed) : str := snd (fst p).

Definition question_words : list string :=
  ["what"; "who"; "where"; "when"; "why"; "how"; "is"; "are"; "does"; "do";
   "can"; "will"]%string.

(** [^(what|who|where|when|why|how|is|are|does|do|can|will)] *)
Definition pattern_question : Re.regex :=
  Re.Cat Re.Bol (Re.Grp 1 (Re.any_of (map Re.text question_words))).

(** [(\d+)] *)
Definition pattern_number : Re.regex := Re.Grp 1 (Re.plus (Re.Chr isdigit)).

(** [\s+(questions?|quiz|test)$] under [re.IGNORECASE] *)
Definition pattern_request : Re.regex :=
  Re.seq_of
    [Re.spaces;
     Re.Grp 1 (Re.any_of [Re.Cat (Re.text_i "question")
                                 (Re.opt (Re.is_char_i "s"%char));
                          Re.text_i "quiz"; Re.text_i "test"]);
     Re.Eol].

(** The topic behind the first of the markers [on], [about] and
    [regarding]. *)
Definition topic_of (command : str) : result (option str) :=
  if contains (lit "on ") command then
    bind (after_first (lit "on ") command) (fun t => Ok (Some (strip t)))
  else if contains (lit "about ") command then
    bind (after_first (lit "about ") command) (fun t => Ok (Some (strip t)))
  else if contains (lit "regarding ") command then
    bind (after_first (lit "regarding ") command) (fun t => Ok (Some (strip t)))
  else Ok None.

Definition parse_command (command : str) : result parsed :=
  let command_original := strip command in
  let command := lower command_original in
  if eqb command (lit "autoquiz") then Ok (None, None, lit "autoquiz", None)
  else if startswith (lit "explain question") command then
    try_except
      (let parts := split command in
       bind (index parts (-1)) (fun last =>
       bind (int last) (fun q_num =>
       Ok (None, Some q_num, lit "explain", None))))
      (Ok (None, None, lit "invalid", None))
  else
    match re_match pattern_question command with
    | Some _ => Ok (None, None, lit "qa", Some command_original)
    | None =>
        bind
          (match Re.search pattern_number command with
           | Some num_match => int (Re.group num_match 1)
           | None => Ok 5%Z
           end) (fun num_questions =>
        bind (topic_of command) (fun topic =>
        let topic :=
          match topic with
          | Some t =>
              if truthy t
              then Some (strip (Re.delete_all pattern_request t))
              else Some t
          | None => None
          end in
        Ok (topic, Some num_questions, lit "quiz", None)))
    end.

Section WithLibraries.

Variable ratio : str -> str -> float.
Variable format_percent : float -> str.
Variable word_tokenize : str -> result (list str).
Variable pos_tag : list str -> result (list (str * str)).
Variables V M : Type.
Variable cosine_similarities : V -> M -> str -> result (list float).
Variable argsort : list float -> list nat.

(** [run_autoquiz(quiz_runner)], with the default of seven questions. *)
Definition run_autoquiz (self_results : list QuizRunner.QuizResult)
    (question_generator : QuestionGenerator.generator V M)
    (g : Random.rng) (stdin : list str) :=
  QuizSession.run_quiz ratio format_percent word_tokenize pos_tag V M
    cosine_similarities argsort self_results question_generator g None 7
    stdin.

End WithLibraries.

End Main.

(** ** loader.py: [load] and [get_sections] *)

Module Loader.
Import PyStr PyMore.

(** The errors of reading a file. *)
Inductive io_exn : Set := FileNotFoundError | IOError | UnicodeDecodeError.

Inductive io_result (A : Type) : Type :=
| Read (a : A)
| Failed (e : io_exn).

Arguments Read {A} a.
Arguments Failed {A} e.

(** A section dictionary: the keys ['title'] and ['content']. *)
Record section : Type := {
  title : str;
  content : str
}.

(** The state of a [MarkdownLoader] object. *)
Record loader : Type := {
  file_path : str;
  self_content : str;
  sections : list section;
  sentences : list str
}.

(** [MarkdownLoader(file_path)] *)
Definition __init__ (file_path : str) : loader :=
  {| file_path := file_path; self_content := []; sections := [];
     sentences := [] |}.

(** [^(#{1,6})\s+(.+)$] *)
Definition pattern_header : Re.regex :=
  Re.seq_of
    [Re.Bol;
     Re.Grp 1 (Re.Rep true 1 (Some 6) (Re.is_char "#"%char));
     Re.spaces;
     Re.Grp 2 (Re.plus (Re.Chr (fun c => negb (eqb_char c "010"%char))));
     Re.Eol].

Definition keep (current_section : section) (sections : list section)
  : list section :=
  if truthy (strip (content current_section))
  then sections ++ [current_section] else sections.

(** The loop over the lines, and the statement behind it. *)
Fixpoint scan (lines : list str) (current_section : section)
    (sections : list section) : list section :=
  match lines with
  | [] => keep current_section sections
  | line :: rest =>
      match re_match pattern_header line with
      | Some header_match =>
          let sections := keep current_section sections in
          let title := strip (Re.group header_match 2) in
          scan rest {| title := title; content := [] |} sections
      | None =>
          scan rest
            {| title := title current_section;
               content := content current_section ++ line ++ ["010"%char] |}
            sections
      end
  end.

Section WithFiles.

(** [open(file_path, 'r', encoding='utf-8').read()] *)
Variable read_file : str -> io_result str.

Definition load (self : loader) : io_result (str * loader) :=
  match read_file (file_path self) with
  | Read text =>
      Read (text,
            {| file_path := file_path self; self_content := text;
               sections := sections self; sentences := sentences self |})
  | Failed FileNotFoundError => Failed FileNotFoundError
  | Failed IOError => Failed IOError
  | Failed e => Failed e
  end.

Definition get_sections (self : loader) : io_result (list section * loader) :=
  match (if negb (truthy (self_content self))
         then match load self with
              | Read (_, self) => Read self
              | Failed e => Failed e
              end
         else Read self) with
  | Failed e => Failed e
  | Read self =>
      let lines := split_lines (self_content self) in
      let found :=
        scan lines {| title := lit "Introduction"; content := [] |} [] in
      Read (found,
            {| file_path := file_path self;
               self_content := self_content self;
               sections := found; sentences := sentences self |})
  end.

End WithFiles.

End Loader.

(** ** What [self.results] keeps true *)

Module QuizInvariants.
Import PyStr Py Evaluator QuizRunner.

Section WithLibraries.

Variable ratio : str -> str -> float.
Variable format_percent : float -> str.

(** A stored result: the answer is kept without the whitespace around it,
    and the flag is the verdict of the evaluator on the stored texts. *)
Definition recorded (r : QuizResult) : Prop :=
  strip (user_answer r) = user_answer r
  /\ is_correct r
     = fst (evaluate_answer ratio format_percent default_threshold
              (user_answer r) (correct_answer r) (question r) (context r)).

End WithLibraries.

End QuizInvariants.

(** ** Notions for the properties of the commands and of the quiz loop *)

Module ReLoop.
Import PyStr.

Section Loop.

Context {T : Type}.
Variables (greedy : bool) (lo : nat) (hi : option nat) (r1 : Re.regex).
Variable k : str -> str -> Re.captures -> option T.

(** The loop that [Re.run] goes through for a repetition. *)
Fixpoint rep_loop (fuel count : nat) (before after : str)
    (caps : Re.captures) {struct fuel} : option T :=
  let stop (_ : unit) :=
    if lo <=? count then k before after caps else None in
  let more (_ : unit) :=
    match fuel with
    | 0 => None
    | S fuel' =>
        if Re.below hi count then
          Re.run r1 before after caps
                 (fun b a c =>
                    if length a <? length after
                    then rep_loop fuel' (S count) b a c
                    else None)
        else None
    end in
  if greedy then
    match more tt with Some x => Some x | None => stop tt end
  else
    match stop tt with Some x => Some x | None => more tt end.

End Loop.

End ReLoop.

Module CommandScenario.
Import PyStr.

(** [str(n)] for a natural number [n]. *)
Definition decimal (n : nat) : str :=
  lit (NilEmpty.string_of_uint (Nat.to_uint n)).

(** [command.startswith(word)] for one of the question words. *)
Definition asks (command : str) : bool :=
  existsb (fun word => startswith (lit word) command) Main.question_words.

End CommandScenario.

Module QuizSessionScenario.
Import PyStr Py.

(** A quiz of one question on the corpus of [AgileScenario], and the line
    typed in answer to it. *)
Definition typed : str := lit "  A framework for Agile. ".

Definition stored : QuizRunner.QuizResult :=
  {| QuizRunner.question := lit "What is Scrum?";
     QuizRunner.user_answer := lit "A framework for Agile.";
     QuizRunner.correct_answer :=
       lit "a framework for Agile";
     QuizRunner.is_correct := true;
     QuizRunner.context := AgileScenario.sentence_scrum |}.

Definition run (self_results : list QuizRunner.QuizResult)
    (stdin : list str) :=
  QuizSession.run_quiz EvaluatorScenario.scenario_ratio
    EvaluatorScenario.scenario_percent SynthesizerScenario.tokenizer_missing
    SynthesizerScenario.tagger_missing unit unit
    AgileScenario.agile_similarities RankerScenario.stable_argsort
    self_results AgileScenario.agile_generator [] (Some (lit "agile")) 1
    stdin.

End QuizSessionScenario.

(** ** Documents for the section parser *)

Module LoaderScenario.
Import PyStr Loader.

Definition nl : ascii := "010"%char.

(** A document as its parts: each a title, the level of its header and
    the lines below the header. *)
Record part : Type := {
  level : nat;
  heading : str;
  body : list str
}.

(** The header line of a part, e.g. [## Scrum]. *)
Definition header_line (p : part) : str :=
  repeat "#"%char (level p) ++ space :: heading p.

Definition lines_of (document : list part) : list str :=
  flat_map (fun p => header_line p :: body p) document.

(** ['\n'.join(lines)] *)
Definition text_of (lines : list str) : str := join [nl] lines.

(** What a part is to become. *)
Definition section_of (p : part) : section :=
  {| title := heading p;
     content := concat (map (fun line => line ++ [nl]) (body p)) |}.

(** A line of plain text: no newline in it and no [#] in front. *)
Definition plain_line (line : str) : Prop :=
  ~ In nl line /\ startswith (lit "#") line = false.

Definition well_formed (p : part) : Prop :=
  1 <= level p <= 6
  /\ heading p <> [] /\ strip (heading p) = heading p /\ ~ In nl (heading p)
  /\ Forall plain_line (body p)
  /\ forallb isspace (concat (body p)) = false.

(** A section that [get_sections] keeps. *)
Definition kept_section (s : section) : Prop :=
  forallb isspace (content s) = false /\ strip (title s) = title s.

(** A file of two parts, and a file system without it. *)
Definition scrum_document : list part :=
  [ {| level := 1; heading := lit "Agile";
       body := [lit "Agile is iterative."; []] |};
    {| level := 2; heading := lit "Scrum roles";
       body := [lit "Scrum has three roles."; []] |} ].

Definition scrum_text : str :=
  lit "# Agile" ++ [nl] ++ lit "Agile is iterative." ++ [nl] ++ [nl]
  ++ lit "## Scrum roles" ++ [nl] ++ lit "Scrum has three roles." ++ [nl].

Definition no_file (file_path : str) : io_result str :=
  Failed FileNotFoundError.

End LoaderScenario.

(** * Properties *)

(** ** Strings *)

Module PyStrFacts.
Import PyStr.

Lemma lower_char_idem (c : ascii) : lower_char (lower_char c) = lower_char c.
Proof. destruct c as [[] [] [] [] [] [] [] []]; reflexivity. Qed.

Lemma word_cons (c : ascii) (w : str) :
  isspace c = false -> (forall d, In d w -> isspace d = false) -> word (c :: w).
Proof.
  intros Hc Hw. split; [discriminate|].
  intros d [<-|Hd]; auto.
Qed.

(** [split] yields words, made of characters of its argument. *)
Lemma split_words (s : str) :
  forall w, In w (split s) -> word w /\ forall c, In c w -> In c s.
Proof.
  induction s as [|c s IH]; intros w Hw; [contradiction|].
  simpl in Hw. destruct (isspace c) eqn:Hc.
  - destruct (IH w Hw) as [Hword Hin]. split; [assumption|].
    intros d Hd. right. auto.
  - destruct s as [|d s'].
    + destruct Hw as [<-|[]]. split; [apply word_cons; [assumption|intros ? []]|].
      intros ? Hx. exact Hx.
    + destruct (isspace d) eqn:Hd.
      * destruct Hw as [<-|Hw].
        -- split; [apply word_cons; [assumption|intros ? []]|].
           intros x [<-|[]]. now left.
        -- destruct (IH w Hw) as [Hword Hin]. split; [assumption|].
           intros x Hx. right. auto.
      * destruct (split (d :: s')) as [|w0 ws] eqn:Hs.
        -- destruct Hw as [<-|[]].
           split; [apply word_cons; [assumption|intros ? []]|].
           intros x [<-|[]]. now left.
        -- destruct Hw as [<-|Hw].
           ++ destruct (IH w0 (or_introl eq_refl)) as [[_ Hns] Hin].
              split; [apply word_cons; assumption|].
              intros x [<-|Hx]; [now left|right; auto].
           ++ destruct (IH w (or_intror Hw)) as [Hword Hin].
              split; [assumption|]. intros x Hx. right. auto.
Qed.

(** A word in front of the end of the string or of a whitespace character
    is the first word of [split]. *)
Lemma split_app_word (w rest : str) :
  word w ->
  (forall c r, rest = c :: r -> isspace c = true) ->
  split (w ++ rest) = w :: split rest.
Proof.
  intros [Hne Hns] Hrest. induction w as [|c w IH]; [congruence|].
  assert (Hc : isspace c = false) by (apply Hns; now left).
  destruct w as [|d w'].
  - simpl. rewrite Hc. destruct rest as [|e r]; [reflexivity|].
    now rewrite (Hrest e r eq_refl).
  - assert (Hd : isspace d = false) by (apply Hns; right; now left).
    change ((c :: d :: w') ++ rest) with (c :: (d :: w') ++ rest).
    cbn [split]. rewrite Hc.
    change ((d :: w') ++ rest) with (d :: w' ++ rest) at 1.
    cbv beta iota. rewrite Hd.
    change (d :: w' ++ rest) with ((d :: w') ++ rest).
    rewrite IH; [reflexivity|discriminate|].
    intros x Hx. apply Hns. now right.
Qed.

Lemma split_join (ws : list str) :
  (forall w, In w ws -> word w) -> split (join [space] ws) = ws.
Proof.
  induction ws as [|w ws IH]; intros Hws; [reflexivity|].
  destruct ws as [|w2 ws'].
  - simpl. rewrite <- (app_nil_r w) at 1.
    rewrite split_app_word; [reflexivity|apply Hws; now left|discriminate].
  - change (join [space] (w :: w2 :: ws'))
      with (w ++ [space] ++ join [space] (w2 :: ws')).
    rewrite split_app_word.
    + change ([space] ++ join [space] (w2 :: ws'))
        with (space :: join [space] (w2 :: ws')).
      cbn [split]. change (isspace space) with true. cbv iota.
      rewrite IH; [reflexivity|]. intros x Hx. apply Hws. now right.
    + apply Hws. now left.
    + intros c r Hcr. injection Hcr as <- _. reflexivity.
Qed.

Lemma map_join (f : ascii -> ascii) (ws : list str) :
  f space = space ->
  (forall w c, In w ws -> In c w -> f c = c) ->
  map f (join [space] ws) = join [space] ws.
Proof.
  intros Hsp. induction ws as [|w ws IH]; intros Hfix; [reflexivity|].
  assert (Hw : map f w = w).
  { rewrite <- (map_id w) at 2. apply map_ext_in.
    intros c Hc. apply (Hfix w c); [now left|assumption]. }
  destruct ws as [|w2 ws']; [exact Hw|].
  change (join [space] (w :: w2 :: ws'))
    with (w ++ space :: join [space] (w2 :: ws')).
  rewrite map_app. cbn [map]. rewrite Hw, Hsp, IH; [reflexivity|].
  intros x c Hx. apply Hfix. now right.
Qed.

Lemma filter_all (p : ascii -> bool) (w : str) :
  (forall c, In c w -> p c = true) -> List.filter p w = w.
Proof.
  induction w as [|c w IH]; intros Hp; [reflexivity|].
  simpl. rewrite (Hp c (or_introl eq_refl)). f_equal.
  apply IH. intros d Hd. apply Hp. now right.
Qed.

(** The characters of a joined list are the separator's and the words'. *)
Lemma in_join (sep : str) (ws : list str) (c : ascii) :
  In c (join sep ws) -> In c sep \/ exists w, In w ws /\ In c w.
Proof.
  induction ws as [|w ws IH]; [intros []|].
  destruct ws as [|w2 ws'].
  - intros Hc. right. exists w. split; [now left|exact Hc].
  - change (join sep (w :: w2 :: ws')) with (w ++ sep ++ join sep (w2 :: ws')).
    intros Hc. apply in_app_or in Hc as [Hc|Hc].
    + right. exists w. split; [now left|exact Hc].
    + apply in_app_or in Hc as [Hc|Hc]; [now left|].
      destruct (IH Hc) as [H|(x & Hx & Hcx)]; [now left|].
      right. exists x. split; [now right|exact Hcx].
Qed.

Lemma lstrip_id (s : str) :
  (forall c r, s = c :: r -> isspace c = false) -> lstrip s = s.
Proof.
  destruct s as [|c r]; [reflexivity|].
  intros H. simpl. now rewrite (H c r eq_refl).
Qed.

Lemma join_head (ws : list str) (c : ascii) (r : str) :
  (forall w, In w ws -> word w) ->
  join [space] ws = c :: r -> isspace c = false.
Proof.
  destruct ws as [|w ws]; [discriminate|].
  intros Hws. destruct (Hws w (or_introl eq_refl)) as [Hne Hns].
  destruct w as [|d w']; [congruence|].
  destruct ws; simpl; intros Heq; injection Heq as <- _; apply Hns; now left.
Qed.

Lemma join_last (ws : list str) (c : ascii) (r : str) :
  (forall w, In w ws -> word w) ->
  rev (join [space] ws) = c :: r -> isspace c = false.
Proof.
  revert c r. induction ws as [|w ws IH]; intros c r Hws; [discriminate|].
  destruct (Hws w (or_introl eq_refl)) as [Hne Hns].
  destruct ws as [|w2 ws'].
  - simpl. intros Heq. apply Hns. apply in_rev. rewrite Heq. now left.
  - change (join [space] (w :: w2 :: ws'))
      with (w ++ [space] ++ join [space] (w2 :: ws')).
    rewrite !rev_app_distr.
    destruct (rev (join [space] (w2 :: ws'))) as [|e t] eqn:Hrev.
    + exfalso.
      destruct (Hws w2 (or_intror (or_introl eq_refl))) as [Hne2 _].
      apply (f_equal (@rev ascii)) in Hrev. rewrite rev_involutive in Hrev.
      simpl in Hrev. destruct w2; [congruence|]. destruct ws'; discriminate.
    + simpl. intros Heq. injection Heq as <- _.
      apply (IH e t); [|reflexivity]. intros x Hx. apply Hws. now right.
Qed.

Lemma strip_join (ws : list str) :
  (forall w, In w ws -> word w) ->
  strip (join [space] ws) = join [space] ws.
Proof.
  intros Hws. unfold strip.
  rewrite (lstrip_id (join [space] ws)).
  - rewrite lstrip_id; [apply rev_involutive|].
    intros c r. now apply join_last.
  - intros c r. now apply join_head.
Qed.

End PyStrFacts.

(** ** The text normaliser *)

Module EvaluatorFacts.
Import PyStr PyStrFacts Evaluator.

(** What [_normalize_text] returns, before it is known to be trimmed. *)
Lemma normalize_unfold (x : str) :
  _normalize_text x = join [space] (split (remove_punctuation (lower x))).
Proof.
  unfold _normalize_text. apply strip_join.
  intros w Hw. now apply split_words in Hw.
Qed.

(** C8. Text normalisation is idempotent: normalising a normalised string
    changes nothing, for every string. *)
Theorem normalize_idempotent (x : str) :
  _normalize_text (_normalize_text x) = _normalize_text x.
Proof.
  rewrite (normalize_unfold x).
  set (ws := split (remove_punctuation (lower x))).
  assert (Hws : forall w, In w ws -> word w).
  { intros w Hw. now apply split_words in Hw. }
  assert (Hchars : forall w c, In w ws -> In c w ->
            lower_char c = c /\ (isword c || isspace c) = true).
  { intros w c Hw Hc. apply split_words in Hw as [_ Hin].
    apply Hin in Hc. unfold remove_punctuation in Hc.
    apply filter_In in Hc as [Hc Hkeep]. split; [|exact Hkeep].
    unfold lower in Hc. apply in_map_iff in Hc as (c0 & <- & _).
    apply lower_char_idem. }
  rewrite normalize_unfold. unfold lower.
  rewrite map_join; [|reflexivity|intros w c Hw Hc; now apply (Hchars w c)].
  unfold remove_punctuation.
  rewrite filter_all.
  - now rewrite split_join.
  - intros c Hc. apply in_join in Hc as [Hc|(w & Hw & Hc)].
    + destruct Hc as [<-|[]]. reflexivity.
    + now apply (Hchars w c).
Qed.

End EvaluatorFacts.

(** ** The answer evaluator *)

Module EvaluatorCascade.
Import PyStr PyStrFacts Evaluator EvaluatorSpec.

Lemma lstrip_all_space (s : str) :
  forallb isspace s = true -> lstrip s = [].
Proof.
  induction s as [|c s IH]; [reflexivity|].
  simpl. destruct (isspace c); [exact IH|discriminate].
Qed.

Lemma lstrip_nil (s : str) : lstrip s = [] -> forallb isspace s = true.
Proof.
  induction s as [|c s IH]; [reflexivity|].
  simpl. destruct (isspace c); [exact IH|discriminate].
Qed.

Lemma forallb_rev (p : ascii -> bool) (s : str) :
  forallb p (rev s) = forallb p s.
Proof.
  induction s as [|c s IH]; [reflexivity|].
  simpl. rewrite forallb_app, IH. simpl. rewrite andb_true_r. apply andb_comm.
Qed.

(** What [lstrip] leaves is blank only if it is empty. *)
Lemma lstrip_blank (s : str) :
  forallb isspace (lstrip s) = true -> lstrip s = [].
Proof.
  induction s as [|c s IH]; [reflexivity|].
  simpl. destruct (isspace c) eqn:Hc; [exact IH|].
  simpl. rewrite Hc. discriminate.
Qed.

(** [not user_answer.strip()] holds of the blank answers and of no other. *)
Lemma strip_blank (s : str) : negb (truthy (strip s)) = forallb isspace s.
Proof.
  destruct (forallb isspace s) eqn:Hs.
  - unfold strip. now rewrite (lstrip_all_space s Hs).
  - destruct (strip s) as [|c r] eqn:Hstrip; [|reflexivity].
    exfalso. unfold strip in Hstrip.
    apply (f_equal (@rev ascii)) in Hstrip. rewrite rev_involutive in Hstrip.
    simpl in Hstrip. apply lstrip_nil in Hstrip. rewrite forallb_rev in Hstrip.
    pose proof (lstrip_blank s Hstrip) as Hnil.
    apply lstrip_nil in Hnil. congruence.
Qed.

Lemma nonempty_union (k1 k2 : gset str) :
  nonempty k1 = true -> (0 <? size (k1 ∪ k2)) = true.
Proof.
  unfold nonempty. intros H1. apply Nat.ltb_lt.
  apply negb_true_iff, Nat.eqb_neq in H1.
  assert (size k1 <= size (k1 ∪ k2)) by (apply subseteq_size; set_solver).
  lia.
Qed.

Section WithLibraries.

Variable ratio : str -> str -> float.
Variable format_percent : float -> str.

Lemma evaluate_answer_spec (threshold : float)
    (user_answer correct_answer question context : str) :
  EvaluatorSpec.evaluate ratio format_percent threshold
      user_answer correct_answer
  = Some (evaluate_answer ratio format_percent threshold
            user_answer correct_answer question context).
Proof.
  unfold EvaluatorSpec.evaluate, first_match, decision_order, evaluate_answer.
  cbn [find matches]. rewrite strip_blank.
  destruct (forallb isspace user_answer); [reflexivity|].
  destruct (eqb _ _); [reflexivity|].
  destruct (contains (_normalize_text correct_answer) _); [reflexivity|].
  destruct (contains (_normalize_text user_answer) _ && _); [reflexivity|].
  destruct (PyNum.ge _ threshold); [reflexivity|].
  destruct (_check_key_phrases _ _); [reflexivity|].
  cbn [option_map verdict]. unfold incorrect_feedback.
  destruct (PyNum.gt _ _); [now rewrite <- !app_assoc|now rewrite app_nil_r].
Qed.

(** What [find] returns is preceded by failures only. *)
Lemma find_first {A : Type} (p : A -> bool) (l : list A) (x : A) :
  find p l = Some x ->
  exists earlier later,
    l = earlier ++ x :: later
    /\ (forall y, In y earlier -> p y = false)
    /\ p x = true.
Proof.
  induction l as [|a l IH]; [discriminate|].
  simpl. destruct (p a) eqn:Ha.
  - intros [= <-]. exists [], l. repeat split; [intros ? []|exact Ha].
  - intros Hx. destruct (IH Hx) as (earlier & later & -> & Hno & Hyes).
    exists (a :: earlier), later. repeat split; [|exact Hyes].
    intros y [<-|Hy]; auto.
Qed.

(** C1. For every pair of answers the evaluator returns the verdict of the
    first check, in the order a, b, c, d, e, f, g, that matches: a blank
    answer is incorrect; equal normalised texts, the normalised correct
    answer inside the normalised user answer, the normalised user answer
    inside the normalised correct answer with a length above 0.7 times the
    correct length, a fuzzy score at or above the threshold, and key-phrase
    containment are each correct; anything else is incorrect, the similarity
    being reported when the fuzzy score exceeds 0.3.  No check that comes
    after the first matching one has a say: every check before it has
    failed, and the verdict is its own. *)
Theorem evaluate_answer_first_match (threshold : float)
    (user_answer correct_answer question context : str) :
  exists (k : check) (earlier later : list check),
    decision_order = earlier ++ k :: later
    /\ (forall j, In j earlier ->
          matches ratio threshold j user_answer correct_answer = false)
    /\ matches ratio threshold k user_answer correct_answer = true
    /\ evaluate_answer ratio format_percent threshold
         user_answer correct_answer question context
       = verdict ratio format_percent k user_answer correct_answer.
Proof.
  pose proof (evaluate_answer_spec threshold user_answer correct_answer
                question context) as Hspec.
  unfold EvaluatorSpec.evaluate in Hspec.
  destruct (first_match ratio threshold decision_order
              user_answer correct_answer) as [k|] eqn:Hk; [|discriminate].
  injection Hspec as Hverdict.
  apply find_first in Hk as (earlier & later & Horder & Hno & Hyes).
  exists k, earlier, later. repeat split; auto.
Qed.

(** C10. The verdict depends on the two answers only: two calls that differ
    in their question and context arguments return the same pair. *)
Theorem evaluate_answer_ignores_question_context (threshold : float)
    (user_answer correct_answer : str)
    (question1 context1 question2 context2 : str) :
  evaluate_answer ratio format_percent threshold
    user_answer correct_answer question1 context1
  = evaluate_answer ratio format_percent threshold
      user_answer correct_answer question2 context2.
Proof.
  pose proof (evaluate_answer_spec threshold user_answer correct_answer
                question1 context1) as H1.
  pose proof (evaluate_answer_spec threshold user_answer correct_answer
                question2 context2) as H2.
  congruence.
Qed.

(** On texts whose normalisations are non-empty, the score of the source is
    the score of the specification. *)
Lemma fuzzy_match_score (text1 text2 : str) :
  _normalize_text text1 <> [] -> _normalize_text text2 <> [] ->
  _fuzzy_match ratio text1 text2 = fuzzy_score ratio text1 text2.
Proof.
  intros H1 H2. unfold _fuzzy_match, fuzzy_score.
  destruct (_normalize_text text1) as [|c1 n1] eqn:E1; [congruence|].
  destruct (_normalize_text text2) as [|c2 n2] eqn:E2; [congruence|].
  cbn [truthy negb orb]. unfold sequence_similarity, keyword_jaccard.
  rewrite E1, E2.
  destruct (nonempty (_extract_keywords text1)) eqn:K1; [|reflexivity].
  destruct (nonempty (_extract_keywords text2)) eqn:K2; [|reflexivity].
  cbn [andb]. now rewrite (nonempty_union _ _ K1).
Qed.

(** C7. For texts whose normalisations are both non-empty, the fuzzy score
    is 0.4 times the sequence-matching ratio plus 0.6 times the Jaccard
    index of the keyword sets when both sets are non-empty, and the ratio
    alone when one of them is empty; and once the checks a to d have
    failed, the evaluator judges the answer correct by the score exactly
    when the score is at or above the threshold: it then answers
    [Correct!], and otherwise leaves the verdict to the key-phrase check. *)
Theorem fuzzy_match_formula_and_threshold (threshold : float)
    (user_answer correct_answer question context : str) :
  _normalize_text user_answer <> [] ->
  _normalize_text correct_answer <> [] ->
  let score := _fuzzy_match ratio user_answer correct_answer in
  let seq := ratio (_normalize_text user_answer)
                   (_normalize_text correct_answer) in
  let keywords1 := _extract_keywords user_answer in
  let keywords2 := _extract_keywords correct_answer in
  (keywords1 <> ∅ /\ keywords2 <> ∅ ->
     score = PrimFloat.add
               (PrimFloat.mul seq 0.4%float)
               (PrimFloat.mul
                  (PyNum.truediv (size (keywords1 ∩ keywords2))
                                 (size (keywords1 ∪ keywords2)))
                  0.6%float))
  /\ (keywords1 = ∅ \/ keywords2 = ∅ -> score = seq)
  /\ ((forall j, In j [CheckA; CheckB; CheckC; CheckD] ->
         matches ratio threshold j user_answer correct_answer = false) ->
      (PyNum.ge score threshold = true ->
         evaluate_answer ratio format_percent threshold
           user_answer correct_answer question context
         = (true, lit "Correct!"))
      /\ (PyNum.ge score threshold = false ->
            evaluate_answer ratio format_percent threshold
              user_answer correct_answer question context
            = if _check_key_phrases user_answer correct_answer
              then (true, lit "Correct!")
              else verdict ratio format_percent CheckG
                           user_answer correct_answer)).
Proof.
  intros H1 H2 score seq keywords1 keywords2.
  assert (Hscore : score = fuzzy_score ratio user_answer correct_answer)
    by now apply fuzzy_match_score.
  assert (Hne : forall k : gset str, nonempty k = true <-> k <> ∅).
  { intros k. unfold nonempty.
    rewrite negb_true_iff, Nat.eqb_neq, size_empty_iff.
    now unfold_leibniz. }
  split; [|split].
  - intros [K1 K2]. rewrite Hscore. unfold fuzzy_score.
    apply Hne in K1, K2. fold keywords1 keywords2 in K1, K2 |- *.
    now rewrite K1, K2.
  - intros HK. rewrite Hscore. unfold fuzzy_score.
    fold keywords1 keywords2.
    destruct (nonempty keywords1) eqn:K1; [|reflexivity].
    destruct (nonempty keywords2) eqn:K2; [|reflexivity].
    apply Hne in K1, K2. tauto.
  - intros Hfail.
    pose proof (evaluate_answer_spec threshold user_answer correct_answer
                  question context) as Hspec.
    unfold EvaluatorSpec.evaluate, first_match, decision_order in Hspec.
    cbn [find] in Hspec.
    rewrite !Hfail in Hspec by (cbn [In]; tauto).
    change (matches ratio threshold CheckE user_answer correct_answer)
      with (PyNum.ge score threshold) in Hspec.
    change (matches ratio threshold CheckF user_answer correct_answer)
      with (_check_key_phrases user_answer correct_answer) in Hspec.
    split; intros Hge; rewrite Hge in Hspec.
    + now injection Hspec as <-.
    + destruct (_check_key_phrases user_answer correct_answer);
        now injection Hspec as <-.
Qed.

End WithLibraries.

End EvaluatorCascade.

Module EvaluatorExamples.
Import PyStr Evaluator EvaluatorSpec EvaluatorCascade EvaluatorScenario.

Lemma fuzzy_match_formula_and_threshold_witness :
  _normalize_text scenario_user <> []
  /\ _normalize_text scenario_correct <> []
  /\ (_extract_keywords scenario_user <> ∅
      /\ _extract_keywords scenario_correct <> ∅ ->
      _fuzzy_match scenario_ratio scenario_user scenario_correct
      = PrimFloat.add
          (PrimFloat.mul (PrimFloat.div 42 66) 0.4%float)
          (PrimFloat.mul
             (PyNum.truediv
                (size (_extract_keywords scenario_user
                       ∩ _extract_keywords scenario_correct))
                (size (_extract_keywords scenario_user
                       ∪ _extract_keywords scenario_correct)))
             0.6%float)).
Proof.
  assert (H1 : _normalize_text scenario_user <> [])
    by (vm_compute; discriminate).
  assert (H2 : _normalize_text scenario_correct <> [])
    by (vm_compute; discriminate).
  split; [exact H1|]. split; [exact H2|].
  exact (proj1 (fuzzy_match_formula_and_threshold
                  scenario_ratio scenario_percent default_threshold
                  scenario_user scenario_correct [] [] H1 H2)).
Defined.

Example scenario_score :
  _fuzzy_match scenario_ratio scenario_user scenario_correct
  = 0.55454545454545456%float.
Proof. vm_compute. reflexivity. Qed.

End EvaluatorExamples.

(** ** Worked examples of the evaluator *)

Module EvaluatorWorked.
Import PyStr Evaluator EvaluatorScenario.

(** The class [\w] keeps the underscore with the letters and digits. *)
Example normalize_keeps_underscore :
  _normalize_text (lit "  Snake_Case,   it's   FINE! ")
  = lit "snake_case its fine".
Proof. vm_compute. reflexivity. Qed.

(** The product of check d is the binary64 one: [90 * 0.7] is the float
    just below 63, so a length of 63 passes against a length of 90, while
    [10 * 0.7] is 7 and a length of 7 does not pass against 10. *)
Example length_product_is_rounded :
  PyNum.gt (PyNum.of_nat 63) (PrimFloat.mul (PyNum.of_nat 90) 0.7%float) = true
  /\ PyNum.gt (PyNum.of_nat 7) (PrimFloat.mul (PyNum.of_nat 10) 0.7%float)
     = false.
Proof. split; vm_compute; reflexivity. Qed.

Example evaluate_empty_answer :
  evaluate_answer scenario_ratio scenario_percent default_threshold
    [] (lit "anything") [] []
  = (false, lit "Incorrect. The correct answer is: anything").
Proof. vm_compute. reflexivity. Qed.

Example evaluate_containing_answer :
  evaluate_answer scenario_ratio scenario_percent default_threshold
    (lit "The quick brown fox") (lit "quick brown") [] []
  = (true, lit "Correct!").
Proof. vm_compute. reflexivity. Qed.

(** The scenario's answer scores below the threshold and is accepted by
    the key-phrase check: two of the four long words of the correct answer
    occur in it. *)
Example evaluate_scenario_answer :
  PyNum.ge (_fuzzy_match scenario_ratio scenario_user scenario_correct)
           default_threshold = false
  /\ _check_key_phrases scenario_user scenario_correct = true
  /\ evaluate_answer scenario_ratio scenario_percent default_threshold
       scenario_user scenario_correct [] []
     = (true, lit "Correct!").
Proof. repeat split; vm_compute; reflexivity. Qed.

End EvaluatorWorked.

(** ** The quiz runner *)

Module QuizRunnerFacts.
Import PyStr Py QuizRunner.

Lemma index_in_range {A : Type} (l : list A) (i : Z) :
  (0 <= i < Z.of_nat (length l))%Z ->
  exists x, nth_error l (Z.to_nat i) = Some x /\ index l i = Ok x.
Proof.
  intros Hi. unfold index.
  destruct (i <? 0)%Z eqn:Hneg; [apply Z.ltb_lt in Hneg; lia|].
  rewrite Hneg.
  destruct (nth_error l (Z.to_nat i)) as [x|] eqn:Hnth.
  - exists x. split; reflexivity.
  - apply nth_error_None in Hnth. lia.
Qed.

(** C9. A question number below 1, above the number of stored results, or
    asked for while no result is stored, is answered by the "not found"
    message and raises nothing; a question number in range is answered by
    the explanation of the result stored at that position, which is not the
    "not found" message. *)
Theorem explain_question_total (results : list QuizResult) (question_number : Z) :
  (results = [] \/ (question_number < 1)%Z
   \/ (Z.of_nat (length results) < question_number)%Z ->
   explain_question results question_number = Ok not_found)
  /\ ((1 <= question_number <= Z.of_nat (length results))%Z ->
      exists (r : QuizResult) (rest : str),
        nth_error results (Z.to_nat (question_number - 1)) = Some r
        /\ explain_question results question_number
           = Ok (nl ++ lit "Question: " ++ question r ++ nl
                    ++ lit "Correct Answer: " ++ correct_answer r ++ nl
                    ++ rest)
        /\ nl ++ lit "Question: " ++ question r ++ nl
              ++ lit "Correct Answer: " ++ correct_answer r ++ nl ++ rest
           <> not_found).
Proof.
  split.
  - intros Hout. unfold explain_question.
    destruct results as [|r0 results']; [reflexivity|].
    destruct Hout as [Hnil|[Hlow|Hhigh]]; [discriminate| |].
    + apply Z.ltb_lt in Hlow. rewrite Hlow. now rewrite orb_true_r.
    + apply Z.ltb_lt in Hhigh. rewrite Hhigh. now rewrite orb_true_r.
  - intros [Hlow Hhigh]. unfold explain_question.
    assert (Hlen : (0 <? length results) = true).
    { apply Nat.ltb_lt. lia. }
    assert (H1 : (question_number <? 1)%Z = false) by (apply Z.ltb_ge; lia).
    assert (H2 : (Z.of_nat (length results) <? question_number)%Z = false)
      by (apply Z.ltb_ge; lia).
    rewrite Hlen, H1, H2. cbn [negb orb].
    destruct (index_in_range results (question_number - 1)%Z) as (r & Hnth & Hidx);
      [lia|].
    rewrite Hidx. cbn [bind].
    exists r.
    exists ((if truthy (context r)
             then lit "Source: " ++ prefix 200 (context r) ++ lit "..." ++ nl
             else [])
            ++ lit "Your Answer: " ++ user_answer r ++ nl
            ++ lit "Result: "
            ++ (if is_correct r then mark_correct else mark_incorrect) ++ nl).
    split; [exact Hnth|]. split.
    + f_equal. destruct (truthy (context r)); now rewrite <- ?app_assoc.
    + discriminate.
Qed.

Lemma explain_question_total_witness :
  ((Z.of_nat (length QuizScenario.session) < 3)%Z
   /\ explain_question QuizScenario.session 3 = Ok not_found)
  /\ ((1 <= 2 <= Z.of_nat (length QuizScenario.session))%Z
      /\ exists (r : QuizResult) (rest : str),
           nth_error QuizScenario.session (Z.to_nat (2 - 1)) = Some r
           /\ explain_question QuizScenario.session 2
              = Ok (nl ++ lit "Question: " ++ question r ++ nl
                       ++ lit "Correct Answer: " ++ correct_answer r ++ nl
                       ++ rest)
           /\ nl ++ lit "Question: " ++ question r ++ nl
                 ++ lit "Correct Answer: " ++ correct_answer r ++ nl ++ rest
              <> not_found).
Proof.
  split.
  - assert (H : (Z.of_nat (length QuizScenario.session) < 3)%Z)
      by (simpl; lia).
    split; [exact H|].
    apply (proj1 (explain_question_total QuizScenario.session 3)).
    right. right. exact H.
  - assert (H : (1 <= 2 <= Z.of_nat (length QuizScenario.session))%Z)
      by (simpl; lia).
    split; [exact H|].
    exact (proj2 (explain_question_total QuizScenario.session 2) H).
Defined.

Example explain_second_question :
  explain_question QuizScenario.session 2
  = Ok (nl ++ lit "Question: What is Scrum?" ++ nl
           ++ lit "Correct Answer: a framework for Agile" ++ nl
           ++ lit "Your Answer: a meeting" ++ nl
           ++ lit "Result: " ++ mark_incorrect ++ nl).
Proof. reflexivity. Qed.

Example explain_negative_question :
  explain_question QuizScenario.session (-1) = Ok not_found.
Proof. reflexivity. Qed.

End QuizRunnerFacts.

(** ** The relevance ranker *)

Module RankerFacts.
Import PyStr Py QuestionGenerator RankerScenario.

Lemma FOP_app {A : Type} (R : A -> A -> Prop) (l1 l2 : list A) :
  ForallOrdPairs R l1 -> ForallOrdPairs R l2 ->
  (forall x y, In x l1 -> In y l2 -> R x y) ->
  ForallOrdPairs R (l1 ++ l2).
Proof.
  induction 1 as [|a l1 Ha Hl1 IH]; intros H2 Hcross; [exact H2|].
  simpl. constructor.
  - apply Forall_app. split; [exact Ha|].
    apply List.Forall_forall. intros y Hy. apply Hcross; [now left|exact Hy].
  - apply IH; [exact H2|]. intros x y Hx Hy. apply Hcross; [now right|exact Hy].
Qed.

Lemma FOP_rev {A : Type} (R : A -> A -> Prop) (l : list A) :
  ForallOrdPairs R l -> ForallOrdPairs (fun x y => R y x) (rev l).
Proof.
  induction 1 as [|a l Ha Hl IH]; [constructor|].
  simpl. apply FOP_app; [exact IH|repeat constructor|].
  intros x y Hx [<-|[]]. apply in_rev in Hx.
  rewrite List.Forall_forall in Ha. now apply Ha.
Qed.

Lemma sublist_In {A : Type} (l1 l2 : list A) (x : A) :
  sublist l1 l2 -> In x l1 -> In x l2.
Proof.
  induction 1 as [|y l1 l2 Hsub IH|y l1 l2 Hsub IH]; simpl; [tauto| |].
  - intros [->|Hx]; [now left|right; auto].
  - intros Hx. right. auto.
Qed.

Lemma FOP_sublist {A : Type} (R : A -> A -> Prop) (l1 l2 : list A) :
  sublist l1 l2 -> ForallOrdPairs R l2 -> ForallOrdPairs R l1.
Proof.
  induction 1 as [|x l1 l2 Hsub IH|x l1 l2 Hsub IH]; intros H2.
  - constructor.
  - inversion H2 as [|? ? Hx Hl2]; subst. constructor; [|now apply IH].
    apply List.Forall_forall. intros y Hy.
    rewrite List.Forall_forall in Hx. apply Hx.
    now apply (sublist_In _ _ _ Hsub).
  - inversion H2; subst. now apply IH.
Qed.

Lemma sublist_filter_bool {A : Type} (p : A -> bool) (l : list A) :
  sublist (List.filter p l) l.
Proof.
  induction l as [|x l IH]; [constructor|].
  simpl. destruct (p x); [now apply sublist_skip|now apply sublist_cons].
Qed.

Lemma sublist_firstn {A : Type} (n : nat) (l : list A) : sublist (firstn n l) l.
Proof. apply sublist_take. Qed.

Lemma sublist_last_n {A : Type} (n : nat) (l : list A) : sublist (last_n n l) l.
Proof.
  unfold last_n. destruct (n =? 0); [reflexivity|apply sublist_drop].
Qed.

Lemma sublist_rev_rev {A : Type} (l1 l2 : list A) :
  sublist l1 l2 -> sublist (rev l1) (rev l2).
Proof.
  induction 1 as [|x l1 l2 Hsub IH|x l1 l2 Hsub IH]; simpl.
  - constructor.
  - now apply sublist_app.
  - rewrite <- (app_nil_r (rev l1)). now apply sublist_app; [|apply sublist_nil_l].
Qed.

Lemma length_last_n {A : Type} (n : nat) (l : list A) :
  n <> 0 -> length (last_n n l) <= n.
Proof.
  intros Hn. unfold last_n. apply Nat.eqb_neq in Hn. rewrite Hn.
  rewrite length_skipn. lia.
Qed.

Lemma select_relevant_kept (sentences : list str) (similarities : list float)
    (top_indices : list nat) :
  length similarities = length sentences ->
  (forall i, In i top_indices -> i < length similarities) ->
  select_relevant sentences similarities top_indices
  = Ok (map (fun i => nth i sentences []) (kept similarities top_indices)).
Proof.
  intros Hlen. induction top_indices as [|i rest IH]; intros Hin; [reflexivity|].
  assert (Hi : i < length similarities) by (apply Hin; now left).
  cbn [select_relevant kept List.filter]. fold (kept similarities rest).
  rewrite (nth_error_nth' similarities 0%float Hi).
  fold (score similarities i).
  rewrite IH by (intros j Hj; apply Hin; now right).
  destruct (PyNum.gt (score similarities i) 0.1); [|reflexivity].
  rewrite (nth_error_nth' sentences [] (eq_ind _ (lt i) Hi _ Hlen)).
  reflexivity.
Qed.

Lemma ascending_from_spec (similarities : list float) (i : nat) (rest : list nat) :
  ascending_from similarities i rest = true ->
  Forall (fun j => PrimFloat.leb (score similarities i) (score similarities j)
                   = true) rest.
Proof.
  induction rest as [|j rest IH]; [constructor|].
  simpl. intros H. apply andb_true_iff in H as [Hj Hrest].
  constructor; [exact Hj|now apply IH].
Qed.

Lemma is_ascending_argsort_spec (similarities : list float) (indices : list nat) :
  is_ascending_argsort similarities indices = true ->
  (forall i, In i indices -> i < length similarities)
  /\ ForallOrdPairs
       (fun i j => PrimFloat.leb (score similarities i) (score similarities j)
                   = true) indices.
Proof.
  induction indices as [|i rest IH]; [intros _; split; [intros ? []|constructor]|].
  simpl. intros H.
  apply andb_true_iff in H as [H Hrest].
  apply andb_true_iff in H as [Hi Hfrom].
  destruct (IH Hrest) as [Hrange Hpairs]. split.
  - intros j [<-|Hj]; [now apply Nat.ltb_lt|now apply Hrange].
  - constructor; [now apply ascending_from_spec|exact Hpairs].
Qed.

Section WithLibraries.

Variables V M : Type.
Variable cosine_similarities : V -> M -> str -> result (list float).
Variable argsort : list float -> list nat.

(** The ranker never raises: whatever the libraries do, it returns a list. *)
Lemma find_relevant_returns (self : generator V M) (topic : str) (n : nat) :
  exists l,
    _find_relevant_sentences V M cosine_similarities argsort self topic n = Ok l.
Proof.
  unfold _find_relevant_sentences.
  destruct (vectorizer self) as [v|]; [|eauto].
  destruct (sentence_vectors self) as [m|]; [|eauto].
  destruct (tfidf_search V M cosine_similarities argsort self v m topic n);
    simpl; eauto.
Qed.

(** C6, as the code has it. With the index available and argsort keeping
    its contract, the ranker returns at most [n] sentences, each scored
    above 0.1, in non-increasing order of score; they come in the reverse
    of the order argsort gave their indices, so sentences of equal score
    appear in the reverse of argsort's order for them, not in corpus
    order. *)
Theorem find_relevant_ranked (self : generator V M) (v : V) (m : M)
    (topic : str) (n : nat) (similarities : list float) :
  vectorizer self = Some v ->
  sentence_vectors self = Some m ->
  cosine_similarities v m topic = Ok similarities ->
  length similarities = length (sentences self) ->
  is_ascending_argsort similarities (argsort similarities) = true ->
  exists indices : list nat,
    _find_relevant_sentences V M cosine_similarities argsort self topic n
    = Ok (map (fun i => nth i (sentences self) []) indices)
    /\ length indices <= n
    /\ Forall (fun i => PyNum.gt (score similarities i) 0.1%float = true) indices
    /\ ForallOrdPairs
         (fun i j => PyNum.ge (score similarities i) (score similarities j)
                     = true) indices
    /\ sublist indices (rev (argsort similarities)).
Proof.
  intros Hv Hm Hcos Hlen Hsort.
  apply is_ascending_argsort_spec in Hsort as [Hrange Hpairs].
  set (top := rev (last_n n (argsort similarities))).
  assert (Htop : sublist top (rev (argsort similarities))).
  { apply sublist_rev_rev, sublist_last_n. }
  exists (firstn n (kept similarities top)).
  assert (Hsub : sublist (firstn n (kept similarities top))
                         (rev (argsort similarities))).
  { etransitivity; [apply sublist_firstn|].
    etransitivity; [apply sublist_filter_bool|exact Htop]. }
  split; [|split; [|split; [|split]]].
  - unfold _find_relevant_sentences, tfidf_search. rewrite Hv, Hm, Hcos.
    cbn [bind]. fold top.
    rewrite select_relevant_kept.
    + cbn [bind try_except]. now rewrite firstn_map.
    + exact Hlen.
    + intros i Hi. apply Hrange. apply in_rev.
      now apply (sublist_In _ _ _ Htop).
  - apply firstn_le_length.
  - apply List.Forall_forall. intros i Hi.
    apply (sublist_In _ _ _ (sublist_firstn n _)) in Hi. unfold kept in Hi.
    now apply filter_In in Hi as [_ Hi].
  - eapply FOP_sublist; [exact Hsub|].
    apply (FOP_rev _ _ Hpairs).
  - exact Hsub.
Qed.

(** C5, as the code has it. Once a generator exists the ranker never
    raises, and an error of the similarity query is answered by the keyword
    search; an error of the index construction, on the other hand, leaves
    the constructor as it was raised. *)
Theorem query_error_falls_back_build_error_propagates
    (sent_tokenize : str -> result (list str))
    (fit_transform : list str -> result (V * M)) :
  (forall (self : generator V M) (topic : str) (n : nat),
      exists l,
        _find_relevant_sentences V M cosine_similarities argsort self topic n
        = Ok l)
  /\ (forall (self : generator V M) (v : V) (m : M) (topic : str) (n : nat)
        (e : exn),
        vectorizer self = Some v -> sentence_vectors self = Some m ->
        tfidf_search V M cosine_similarities argsort self v m topic n = Raise e ->
        _find_relevant_sentences V M cosine_similarities argsort self topic n
        = Ok (_find_relevant_sentences_keyword (sentences self) topic n))
  /\ (forall (markdown_content : str) (e : exn),
        _extract_sentences sent_tokenize markdown_content <> [] ->
        fit_transform (_extract_sentences sent_tokenize markdown_content)
        = Raise e ->
        __init__ sent_tokenize V M fit_transform markdown_content = Raise e).
Proof.
  split; [|split].
  - apply find_relevant_returns.
  - intros self v m topic n e Hv Hm Hraise.
    unfold _find_relevant_sentences. now rewrite Hv, Hm, Hraise.
  - intros content e Hne Hraise. unfold __init__, _build_tfidf_index.
    cbn [sentences markdown_content vectorizer sentence_vectors].
    destruct (_extract_sentences sent_tokenize content) as [|s l] eqn:Hs;
      [congruence|].
    cbn [sentences]. now rewrite Hraise.
Qed.

End WithLibraries.

(** *** Equal scores, whatever their value *)

Lemma SFcompare_refl (s : SpecFloat.spec_float) :
  SpecFloat.SFcompare s s = Some Eq \/ SpecFloat.SFcompare s s = None.
Proof.
  destruct s as [sg|sg| |sg m e]; cbn.
  - now left.
  - destruct sg; now left.
  - now right.
  - destruct sg; rewrite Z.compare_refl, ?Pos.compare_refl; cbn; now left.
Qed.

Lemma ltb_irrefl (x : float) : PrimFloat.ltb x x = false.
Proof.
  rewrite FloatAxioms.ltb_spec. unfold SpecFloat.SFltb.
  now destruct (SFcompare_refl (Prim2SF x)) as [-> | ->].
Qed.

Lemma above_tenth_positive (x : float) :
  PyNum.gt x 0.1%float = true -> PrimFloat.ltb 0%float x = true.
Proof.
  unfold PyNum.gt. rewrite !FloatAxioms.ltb_spec.
  replace (Prim2SF 0.1)
    with (SpecFloat.S754_finite false 7205759403792794 (-56))
    by (vm_compute; reflexivity).
  replace (Prim2SF 0) with (SpecFloat.S754_zero false)
    by (vm_compute; reflexivity).
  destruct (Prim2SF x) as [sg|sg| |sg m e]; cbn; try discriminate;
    destruct sg; cbn; try discriminate; reflexivity.
Qed.

Lemma SFcompare_asym (s1 s2 : SpecFloat.spec_float) :
  SpecFloat.SFcompare s1 s2 = Some Lt -> SpecFloat.SFcompare s2 s1 = Some Gt.
Proof.
  destruct s1 as [sg1|sg1| |sg1 m1 e1], s2 as [sg2|sg2| |sg2 m2 e2]; cbn;
    try discriminate; try reflexivity;
    try (destruct sg1; try discriminate; try reflexivity;
         destruct sg2; try discriminate; reflexivity);
    try (destruct sg2; try discriminate; reflexivity).
  destruct sg1, sg2; try discriminate; try reflexivity;
    rewrite (Z.compare_antisym e1 e2);
    destruct (e1 ?= e2)%Z; cbn; try discriminate; try reflexivity;
    change (PosDef.Pos.compare_cont Eq m1 m2) with (Pos.compare m1 m2);
    change (PosDef.Pos.compare_cont Eq m2 m1) with (Pos.compare m2 m1);
    rewrite (Pos.compare_antisym m1 m2);
    destruct (m1 ?= m2)%positive; cbn; try discriminate; reflexivity.
Qed.

Lemma ltb_asym (x y : float) :
  PrimFloat.ltb x y = true -> PrimFloat.ltb y x = false.
Proof.
  rewrite !FloatAxioms.ltb_spec. unfold SpecFloat.SFltb.
  destruct (SpecFloat.SFcompare (Prim2SF x) (Prim2SF y)) as [[| |]|] eqn:H;
    try discriminate.
  intros _. now rewrite (SFcompare_asym _ _ H).
Qed.

(** On [tied_corpus] the outcome does not hang on the value of the common
    score: whenever the first two sentences score the same, above 0.1, and
    the third scores nothing, the ranker returns the second sentence before
    the first, for every [n] that has room for both. *)
Lemma tied_pair_comes_out_reversed
    (similarities_of : unit -> unit -> str -> result (list float))
    (x : float) (n : nat) :
  similarities_of tt tt (lit "sprint") = Ok [x; x; 0%float] ->
  PyNum.gt x 0.1%float = true ->
  2 <= n ->
  _find_relevant_sentences unit unit similarities_of stable_argsort
    tied_generator (lit "sprint") n
  = Ok [sentence_restated; sentence_planning].
Proof.
  intros Hcos Hx Hn.
  pose proof (ltb_irrefl x) as Hxx.
  pose proof (above_tenth_positive x Hx) as H0.
  assert (Hsort : stable_argsort [x; x; 0%float] = [2; 0; 1]).
  { unfold stable_argsort. cbn [length seq fold_left insert_asc score nth].
    rewrite Hxx. cbn [insert_asc score nth]. rewrite H0. reflexivity. }
  assert (Hg0 : PyNum.gt 0%float 0.1%float = false)
    by (vm_compute; reflexivity).
  assert (Hkept : kept [x; x; 0%float] (rev (last_n n [2; 0; 1])) = [1; 0]).
  { unfold kept, last_n. destruct n as [|[|n]]; [lia|lia|].
    cbn [Nat.eqb length].
    destruct n as [|n];
      [replace (3 - 2) with 1 by lia
      |replace (3 - S (S (S n))) with 0 by lia];
      cbn [skipn rev app List.filter score nth];
      rewrite Hx, ?Hg0; reflexivity. }
  unfold _find_relevant_sentences, tfidf_search.
  cbn [vectorizer sentence_vectors tied_generator]. rewrite Hcos. cbn [bind].
  rewrite Hsort.
  rewrite select_relevant_kept.
  - rewrite Hkept. cbn [bind try_except map nth sentences tied_corpus].
    destruct n as [|[|n]]; [lia|lia|].
    cbn [firstn]. rewrite firstn_nil. reflexivity.
  - reflexivity.
  - intros i Hi. apply in_rev in Hi.
    assert (Hall : forall j, In j [2; 0; 1] -> j < 3)
      by (cbn; intros j Hj; lia).
    apply Hall. exact (sublist_In _ _ _ (sublist_last_n n _) Hi).
Qed.

(** On the scenario of [RankerScenario]: the stable argsort keeps its
    contract, and the second sentence, whose score is the higher one by a
    binary digit, comes out first. *)
Lemma find_relevant_ranked_witness :
  vectorizer ranked_generator = Some tt
  /\ sentence_vectors ranked_generator = Some tt
  /\ sprint_similarities tt tt (lit "sprint")
     = Ok [0.3299283214573658%float; 0.32992832145736584%float; 0%float]
  /\ length [0.3299283214573658%float; 0.32992832145736584%float; 0%float]
     = length (sentences ranked_generator)
  /\ is_ascending_argsort
       [0.3299283214573658%float; 0.32992832145736584%float; 0%float]
       (stable_argsort
          [0.3299283214573658%float; 0.32992832145736584%float; 0%float])
     = true
  /\ exists indices : list nat,
       _find_relevant_sentences unit unit sprint_similarities stable_argsort
         ranked_generator (lit "sprint") 2
       = Ok (map (fun i => nth i (sentences ranked_generator) []) indices)
       /\ length indices <= 2.
Proof.
  assert (H1 : vectorizer ranked_generator = Some tt) by reflexivity.
  assert (H2 : sentence_vectors ranked_generator = Some tt) by reflexivity.
  assert (H3 : sprint_similarities tt tt (lit "sprint")
               = Ok [0.3299283214573658%float; 0.32992832145736584%float;
                     0%float]) by reflexivity.
  assert (H4 : length [0.3299283214573658%float; 0.32992832145736584%float;
                       0%float]
               = length (sentences ranked_generator)) by reflexivity.
  assert (H5 : is_ascending_argsort
                 [0.3299283214573658%float; 0.32992832145736584%float;
                  0%float]
                 (stable_argsort
                    [0.3299283214573658%float; 0.32992832145736584%float;
                     0%float]) = true)
    by (vm_compute; reflexivity).
  repeat (split; [assumption|]).
  destruct (find_relevant_ranked unit unit sprint_similarities stable_argsort
              ranked_generator tt tt (lit "sprint") 2 _ H1 H2 H3 H4 H5)
    as (indices & Hres & Hlen & _).
  exists indices. split; assumption.
Defined.

(** The scenario of [RankerScenario] has no tie: the two scores are
    neighbours, and the ranker returns the sentences by descending score. *)
Example neighbouring_scores_are_told_apart :
  PrimFloat.ltb (score [0.3299283214573658%float; 0.32992832145736584%float;
                        0%float] 0)
                (score [0.3299283214573658%float; 0.32992832145736584%float;
                        0%float] 1) = true
  /\ _find_relevant_sentences unit unit sprint_similarities stable_argsort
       ranked_generator (lit "sprint") 2
     = Ok [sentence_polishing; sentence_planning].
Proof. split; vm_compute; reflexivity. Qed.

(** C6, as the specification words it, fails on [tied_corpus].  The first
    two sentences are different strings with the same terms, so the index
    gives them the same score for the topic [sprint], above 0.1; argsort
    keeps its contract and places them in corpus order; and the ranker
    returns the second of them before the first, for every [n] that has
    room for both. *)
Lemma equal_scores_come_out_reversed :
  sentences tied_generator
  = [sentence_planning; sentence_restated; sentence_kanban]
  /\ sentence_planning <> sentence_restated
  /\ vectorizer tied_generator = Some tt
  /\ sentence_vectors tied_generator = Some tt
  /\ tied_similarities tt tt (lit "sprint")
     = Ok [0.37796447300922725%float; 0.37796447300922725%float; 0%float]
  /\ PrimFloat.eqb
       (score [0.37796447300922725%float; 0.37796447300922725%float; 0%float]
          0)
       (score [0.37796447300922725%float; 0.37796447300922725%float; 0%float]
          1) = true
  /\ PyNum.gt
       (score [0.37796447300922725%float; 0.37796447300922725%float; 0%float]
          0)
       0.1%float = true
  /\ is_ascending_argsort
       [0.37796447300922725%float; 0.37796447300922725%float; 0%float]
       (stable_argsort
          [0.37796447300922725%float; 0.37796447300922725%float; 0%float])
     = true
  /\ stable_argsort
       [0.37796447300922725%float; 0.37796447300922725%float; 0%float]
     = [2; 0; 1]
  /\ _find_relevant_sentences unit unit tied_similarities stable_argsort
       tied_generator (lit "sprint") 2
     = Ok [sentence_restated; sentence_planning]
  /\ _find_relevant_sentences unit unit tied_similarities stable_argsort
       tied_generator (lit "sprint") 2
     <> Ok [sentence_planning; sentence_restated]
  /\ _find_relevant_sentences unit unit tied_similarities stable_argsort
       tied_generator (lit "sprint") 10
     = Ok [sentence_restated; sentence_planning].
Proof.
  repeat split; try (vm_compute; reflexivity);
    vm_compute; discriminate.
Qed.

(** A failing query on the scenario is answered by the keyword search. *)
Lemma query_error_falls_back_build_error_propagates_witness :
  vectorizer ranked_generator = Some tt
  /\ sentence_vectors ranked_generator = Some tt
  /\ tfidf_search unit unit failing_similarities stable_argsort
       ranked_generator tt tt (lit "sprint") 2 = Raise LibraryError
  /\ _find_relevant_sentences unit unit failing_similarities stable_argsort
       ranked_generator (lit "sprint") 2
     = Ok (_find_relevant_sentences_keyword (sentences ranked_generator)
             (lit "sprint") 2).
Proof.
  assert (H1 : vectorizer ranked_generator = Some tt) by reflexivity.
  assert (H2 : sentence_vectors ranked_generator = Some tt) by reflexivity.
  assert (H3 : tfidf_search unit unit failing_similarities stable_argsort
                 ranked_generator tt tt (lit "sprint") 2 = Raise LibraryError)
    by reflexivity.
  repeat (split; [assumption|]).
  exact (proj1 (proj2 (query_error_falls_back_build_error_propagates
                         unit unit failing_similarities stable_argsort
                         tokenize_whole fit_refusing_single))
           ranked_generator tt tt (lit "sprint") 2 LibraryError H1 H2 H3).
Defined.

(** C5, as the specification words it, fails: the refusal of the index
    construction on a document of one sentence leaves the constructor as a
    [ValueError]; no generator comes into being that could fall back to the
    keyword search. *)
Lemma index_build_error_surfaces :
  _extract_sentences tokenize_whole sentence_planning = [sentence_planning]
  /\ fit_refusing_single [sentence_planning] = Raise ValueError
  /\ __init__ tokenize_whole unit unit fit_refusing_single sentence_planning
     = Raise ValueError
  /\ (forall self : generator unit unit,
        __init__ tokenize_whole unit unit fit_refusing_single sentence_planning
        <> Ok self).
Proof.
  repeat split; try (vm_compute; reflexivity).
  intros self. vm_compute. discriminate.
Qed.

Example keyword_search_on_scenario :
  _find_relevant_sentences_keyword corpus (lit "sprint polishing") 2
  = [sentence_polishing; sentence_planning].
Proof. vm_compute. reflexivity. Qed.

End RankerFacts.

(** ** The question set assembler *)

Module AssemblerFacts.
Import PyStr Py Random QuestionGenerator AssemblerScenario.

Lemma distinct_start : distinct start.
Proof. split; [constructor|intros ? []]. Qed.

Lemma random_sample_returns {A : Type} (population : list A) (k : nat) (g : rng) :
  k <= length population ->
  exists l g', random_sample population k g = (Ok l, g').
Proof.
  intros Hk. unfold random_sample.
  destruct (length population <? k) eqn:Hlt; [apply Nat.ltb_lt in Hlt; lia|].
  destruct (choose k population g) as [l g']. eauto.
Qed.

Lemma draw_lt (g : rng) (bound : nat) : 0 < bound -> fst (draw g bound) < bound.
Proof.
  intros Hb. destruct g as [|x g]; simpl; [exact Hb|].
  apply Nat.mod_upper_bound. lia.
Qed.

Lemma remove_at_permutation {A : Type} (l : list A) (i : nat) (x : A) :
  nth_error l i = Some x ->
  Permutation l (x :: remove_at i l) /\ S (length (remove_at i l)) = length l.
Proof.
  revert i. induction l as [|a l IH]; intros [|i] Hnth; try discriminate.
  - injection Hnth as ->. split; reflexivity.
  - simpl in Hnth. destruct (IH i Hnth) as [Hperm Hlen].
    split; [|simpl; now rewrite Hlen].
    simpl. rewrite perm_swap. now constructor.
Qed.

(** Choosing as many elements as there are yields a permutation. *)
Lemma choose_permutation {A : Type} (k : nat) (pool : list A) (g : rng) :
  k = length pool -> Permutation pool (fst (choose k pool g)).
Proof.
  revert pool g. induction k as [|k IH]; intros pool g Hk.
  - destruct pool; [reflexivity|discriminate].
  - cbn [choose].
    pose proof (draw_lt g (length pool) ltac:(lia)) as Hlt.
    destruct (draw g (length pool)) as [i g']. cbn [fst] in Hlt.
    destruct (nth_error pool i) as [x|] eqn:Hnth;
      [|apply nth_error_None in Hnth; lia].
    destruct (remove_at_permutation pool i x Hnth) as [Hperm Hlen].
    specialize (IH (remove_at i pool) g' ltac:(lia)).
    destruct (choose k (remove_at i pool) g') as [rest g''].
    cbn [fst] in *. rewrite Hperm. now constructor.
Qed.

Lemma filter_id {A : Type} (p : A -> bool) (l : list A) :
  (forall x, In x l -> p x = true) -> List.filter p l = l.
Proof.
  induction l as [|a l IH]; intros Hp; [reflexivity|].
  simpl. rewrite (Hp a (or_introl eq_refl)). f_equal.
  apply IH. intros x Hx. apply Hp. now right.
Qed.

Section WithLibraries.

Variable word_tokenize : str -> result (list str).
Variable pos_tag : list str -> result (list (str * str)).
Variables V M : Type.
Variable cosine_similarities : V -> M -> str -> result (list float).
Variable argsort : list float -> list nat.

Lemma attempt_distinct (sentence : str) (st : progress) :
  distinct st -> distinct (fst (attempt word_tokenize pos_tag sentence st)).
Proof.
  intros [Hnodup Hseen]. unfold attempt.
  destruct (_generate_question_from_sentence word_tokenize pos_tag sentence) as [q|];
    [|split; assumption].
  case_bool_decide as Hnew; [|split; assumption].
  split; cbn [fst questions seen_questions].
  - rewrite map_app. cbn [map]. apply NoDup_app. repeat split.
    + exact Hnodup.
    + intros k Hk Hq. apply list_elem_of_In in Hk, Hq.
      destruct Hq as [Hq|[]]. subst k. apply Hnew.
      apply in_map_iff in Hk as (q' & Hk & Hq'). unfold key in Hk.
      rewrite <- Hk. now apply Hseen.
    + apply NoDup_singleton.
  - intros q' Hq'. apply in_app_or in Hq' as [Hq'|[<-|[]]].
    + apply elem_of_union_r. now apply Hseen.
    + apply elem_of_union_l. now apply elem_of_singleton.
Qed.

Lemma first_pass_distinct (n : nat) (sents : list str) (failures : nat)
    (st : progress) :
  distinct st -> distinct (first_pass word_tokenize pos_tag n sents failures st).
Proof.
  revert failures st. induction sents as [|s sents IH]; intros failures st Hst;
    [exact Hst|].
  cbn [first_pass]. destruct (n <=? length (questions st)); [exact Hst|].
  pose proof (attempt_distinct s st Hst) as Hnext.
  destruct (attempt word_tokenize pos_tag s st) as [st' added]. cbn [fst] in Hnext.
  destruct (50 <? _); [exact Hnext|now apply IH].
Qed.

Lemma second_pass_distinct (n : nat) (sents : list str) (st : progress) :
  distinct st -> distinct (second_pass word_tokenize pos_tag n sents st).
Proof.
  revert st. induction sents as [|s sents IH]; intros st Hst; [exact Hst|].
  cbn [second_pass]. destruct (n <=? length (questions st)); [exact Hst|].
  apply IH. now apply attempt_distinct.
Qed.

Lemma third_pass_distinct (n : nat) (tried : gset str) (sents : list str)
    (st : progress) :
  distinct st -> distinct (third_pass word_tokenize pos_tag n tried sents st).
Proof.
  revert st. induction sents as [|s sents IH]; intros st Hst; [exact Hst|].
  cbn [third_pass]. destruct (n <=? length (questions st)); [exact Hst|].
  case_bool_decide; apply IH; [exact Hst|now apply attempt_distinct].
Qed.

(** [generate_questions] runs to its end, in a state that [distinct]
    describes. *)
Lemma generate_questions_run_distinct (self : generator V M) (g : rng)
    (topic : option str) (n : nat) :
  exists st,
    generate_questions_run word_tokenize pos_tag V M cosine_similarities
      argsort self g topic n = Ok st
    /\ distinct st.
Proof.
  unfold generate_questions_run.
  set (pool :=
         if truthy_opt topic then _ else _).
  assert (Hpool : exists l g', pool = Ok (l, g')).
  { subst pool. destruct (truthy_opt topic).
    - destruct (RankerFacts.find_relevant_returns V M cosine_similarities
                  argsort self (default [] topic) (n * 10)) as [l ->].
      cbn [bind]. eauto.
    - destruct (n <? length (sentences self)); [|eauto].
      destruct (random_sample_returns (sentences self)
                  (Nat.min (n * 10) (length (sentences self))) g) as (l & g' & ->);
        [lia|].
      cbn [bind]. eauto. }
  destruct Hpool as (relevant & g1 & ->). cbn [bind].
  set (valid := if _ <? n * 2 then _ else _).
  pose proof (first_pass_distinct n valid 0 start distinct_start) as H1.
  set (st1 := first_pass word_tokenize pos_tag n valid 0 start) in *.
  destruct (length (questions st1) <? n); [|eauto].
  set (remaining := List.filter _ (sentences self)).
  assert (H2 : exists st2 g2,
             match remaining with
             | [] => Ok (st1, g1)
             | _ :: _ =>
                 let (r, g') :=
                   random_sample remaining
                     (Nat.min (n * 5) (length remaining)) g1 in
                 bind r (fun additional_sentences =>
                 Ok (second_pass word_tokenize pos_tag n
                       (List.filter lenient_valid additional_sentences) st1,
                     g'))
             end = Ok (st2, g2) /\ distinct st2).
  { destruct remaining as [|s rest] eqn:Hrem; [eauto|].
    destruct (random_sample_returns (s :: rest)
                (Nat.min (n * 5) (length (s :: rest))) g1) as (l & g' & ->);
      [lia|].
    cbn [bind]. eexists _, _. split; [reflexivity|].
    now apply second_pass_distinct. }
  destruct H2 as (st2 & g2 & -> & H2). cbn [bind].
  destruct (length (questions st2) <? n); [|eauto].
  destruct (random_shuffle _ g2) as [shuffled g3].
  eexists. split; [reflexivity|]. now apply third_pass_distinct.
Qed.

(** The log of one call, and the growth of the question list. *)
Lemma attempt_log (sentence : str) (st : progress) :
  attempted (fst (attempt word_tokenize pos_tag sentence st)) = attempted st ++ [sentence]
  /\ length (questions (fst (attempt word_tokenize pos_tag sentence st)))
     <= S (length (questions st)).
Proof.
  unfold attempt.
  destruct (_generate_question_from_sentence word_tokenize pos_tag sentence) as [q|];
    [|split; [reflexivity|cbn; lia]].
  case_bool_decide; split; try reflexivity; cbn [fst questions].
  - rewrite length_app. simpl. lia.
  - lia.
Qed.

(** Short of [n] questions, the second loop calls the synthesizer on every
    sentence it is given. *)
Lemma second_pass_log (n : nat) (sents : list str) (st : progress) :
  length (questions st) + length sents < n ->
  attempted (second_pass word_tokenize pos_tag n sents st) = attempted st ++ sents
  /\ length (questions (second_pass word_tokenize pos_tag n sents st))
     <= length (questions st) + length sents.
Proof.
  revert st. induction sents as [|s sents IH]; intros st Hn.
  - cbn. rewrite app_nil_r. split; [reflexivity|lia].
  - cbn [second_pass length] in *.
    destruct (n <=? length (questions st)) eqn:Hle;
      [apply Nat.leb_le in Hle; lia|].
    destruct (attempt_log s st) as [Hlog Hlen].
    destruct (IH (fst (attempt word_tokenize pos_tag s st)) ltac:(lia)) as [Hlog' Hlen'].
    rewrite Hlog', Hlog, <- app_assoc. split; [reflexivity|lia].
Qed.

(** So does the third loop, on every sentence outside [tried_sentences]. *)
Lemma third_pass_log (n : nat) (tried : gset str) (sents : list str)
    (st : progress) :
  (forall s, In s sents -> s ∉ tried) ->
  length (questions st) + length sents < n ->
  attempted (third_pass word_tokenize pos_tag n tried sents st) = attempted st ++ sents.
Proof.
  revert st. induction sents as [|s sents IH]; intros st Hfresh Hn.
  - cbn. now rewrite app_nil_r.
  - cbn [third_pass length] in *.
    destruct (n <=? length (questions st)) eqn:Hle;
      [apply Nat.leb_le in Hle; lia|].
    rewrite bool_decide_eq_false_2 by (apply Hfresh; now left).
    destruct (attempt_log s st) as [Hlog Hlen].
    rewrite IH.
    + now rewrite Hlog, <- app_assoc.
    + intros x Hx. apply Hfresh. now right.
    + lia.
Qed.

(** C3. Every call of [generate_questions] returns a list of at most
    [num_questions] records, no two of which have the same lowercased
    question text; the duplicate check spans the three passes. *)
Theorem generate_questions_bounded_distinct (self : generator V M) (g : rng)
    (topic : option str) (num_questions : nat) :
  exists records : list QuestionRecord,
    generate_questions word_tokenize pos_tag V M cosine_similarities argsort
      self g topic num_questions = Ok records
    /\ length records <= num_questions
    /\ NoDup (map (fun q => lower (question q)) records).
Proof.
  destruct (generate_questions_run_distinct self g topic num_questions)
    as (st & Hrun & Hnodup & _).
  unfold generate_questions. rewrite Hrun. cbn [bind].
  eexists. split; [reflexivity|]. split; [apply firstn_le_length|].
  rewrite <- firstn_map.
  eapply sublist_NoDup; [exact Hnodup|apply sublist_take].
Qed.

End WithLibraries.

(** C4 fails on the code. The topic matches no sentence, so the first pass
    has no candidate and [tried_sentences] is empty; the second pass calls
    the synthesizer on the three sentences of the corpus, and the third
    pass, which skips [tried_sentences] only, calls it on each of them a
    second time.  This holds whatever the synthesizer returns and whatever
    the random draws are. *)
Theorem second_pass_sentences_are_retried
    (word_tokenize : str -> result (list str))
    (pos_tag : list str -> result (list (str * str)))
    (g : rng) :
  exists st,
    generate_questions_run word_tokenize pos_tag unit unit
      AssemblerScenario.no_similarities RankerScenario.stable_argsort
      RankerScenario.ranked_generator g (Some (lit "zebra")) 7
    = Ok st
    /\ forall s, In s RankerScenario.corpus ->
         count_occ AssemblerScenario.str_eq_dec (attempted st) s = 2.
Proof.
  unfold generate_questions_run.
  change (truthy_opt (Some (lit "zebra"))) with true. cbv iota.
  change (_find_relevant_sentences unit unit AssemblerScenario.no_similarities
            RankerScenario.stable_argsort RankerScenario.ranked_generator
            (default [] (Some (lit "zebra"))) (7 * 10))
    with (@Ok (list str) []).
  cbn [bind]. cbv zeta.
  change (List.filter (_is_valid_sentence_for_question word_tokenize pos_tag) [])
    with (@nil str).
  change (List.filter lenient_valid []) with (@nil str).
  change (length (@nil str) <? 7 * 2) with true. cbv iota.
  change (first_pass word_tokenize pos_tag 7 [] 0 start) with start.
  change (length (questions start) <? 7) with true. cbv iota.
  change (sentences RankerScenario.ranked_generator)
    with RankerScenario.corpus.
  match goal with
  | |- context [List.filter ?p RankerScenario.corpus] =>
      lazymatch p with
      | context [bool_decide] =>
          rewrite (filter_id p RankerScenario.corpus)
            by (intros s _; apply bool_decide_eq_true_2; set_solver)
      end
  end.
  change RankerScenario.corpus
    with (RankerScenario.sentence_planning
          :: [RankerScenario.sentence_polishing;
              RankerScenario.sentence_kanban]) at 1.
  cbv iota.
  change (RankerScenario.sentence_planning
          :: [RankerScenario.sentence_polishing;
              RankerScenario.sentence_kanban])
    with RankerScenario.corpus.
  change (Nat.min (7 * 5) (length RankerScenario.corpus)) with 3.
  unfold random_sample.
  change (length RankerScenario.corpus <? 3) with false. cbv iota.
  pose proof (choose_permutation 3 RankerScenario.corpus g eq_refl) as Hp2.
  destruct (choose 3 RankerScenario.corpus g) as [sampled g2].
  cbn [fst] in Hp2. cbn [bind].
  assert (Hvalid : List.filter lenient_valid sampled = sampled).
  { apply filter_id. intros s Hs.
    apply (Permutation_in _ (Permutation_sym Hp2)) in Hs.
    destruct Hs as [<-|[<-|[<-|[]]]]; vm_compute; reflexivity. }
  rewrite Hvalid.
  assert (Hlen2 : length sampled = 3)
    by (now rewrite <- (Permutation_length Hp2)).
  destruct (second_pass_log word_tokenize pos_tag 7 sampled start) as [Hlog2 Hq2];
    [cbn; lia|].
  set (st2 := second_pass word_tokenize pos_tag 7 sampled start) in *.
  cbn [questions start length Nat.add] in Hq2.
  destruct (length (questions st2) <? 7) eqn:Hshort;
    [|apply Nat.ltb_ge in Hshort; lia].
  assert (Hall : List.filter (fun s => 15 <? length (strip s))
                   RankerScenario.corpus = RankerScenario.corpus)
    by (vm_compute; reflexivity).
  rewrite Hall. unfold random_shuffle.
  change (length RankerScenario.corpus) with 3.
  pose proof (choose_permutation 3 RankerScenario.corpus g2 eq_refl) as Hp3.
  destruct (choose 3 RankerScenario.corpus g2) as [shuffled g3].
  cbn [fst] in Hp3.
  assert (Hlen3 : length shuffled = 3)
    by (now rewrite <- (Permutation_length Hp3)).
  eexists. split; [reflexivity|].
  intros s Hs. rewrite third_pass_log; [|intros; set_solver|lia].
  rewrite Hlog2. cbn [attempted start app].
  rewrite count_occ_app.
  rewrite <- (proj1 (Permutation_count_occ AssemblerScenario.str_eq_dec _ _) Hp2 s).
  rewrite <- (proj1 (Permutation_count_occ AssemblerScenario.str_eq_dec _ _) Hp3 s).
  destruct Hs as [<-|[<-|[<-|[]]]]; vm_compute; reflexivity.
Qed.

End AssemblerFacts.

(** ** The question synthesizer *)

Module SynthesizerFacts.
Import PyStr Py QuestionGenerator SynthesizerScenario.

Lemma drop_to_space_length (r rest : str) :
  drop_to_space r = Some rest -> length rest < length r.
Proof.
  revert rest. induction r as [|c r IH]; intros rest; [discriminate|].
  simpl. destruct (eqb_char c space).
  - intros [= <-]. lia.
  - intros H. apply IH in H. lia.
Qed.

Lemma rsplit1_head_length (s : str) : length (rsplit1_head s) <= length s.
Proof.
  unfold rsplit1_head. destruct (drop_to_space (rev s)) as [r|] eqn:Hr; [|lia].
  apply drop_to_space_length in Hr. rewrite length_rev in *. lia.
Qed.

(** The truncation keeps at most [limit] characters and then appends the
    three of the ellipsis. *)
Lemma limit_length_bound (limit : nat) (text : str) :
  length (limit_length limit text) <= limit + 3.
Proof.
  unfold limit_length. destruct (limit <? length text) eqn:Hlong.
  - rewrite length_app.
    pose proof (rsplit1_head_length (prefix limit text)) as Hhead.
    unfold prefix in Hhead. rewrite length_firstn in Hhead.
    change (length (lit "...")) with 3. unfold prefix. lia.
  - apply Nat.ltb_ge in Hlong. lia.
Qed.

Section WithLibraries.

Variable word_tokenize : str -> result (list str).
Variable pos_tag : list str -> result (list (str * str)).

(** What the final validation and the truncations do guarantee. *)
Lemma finish_question_bounds (original_sentence : str)
    (question0 answer0 : option str) (r : QuestionRecord) :
  finish_question original_sentence question0 answer0 = Some r ->
  10 < length (question r) <= 203
  /\ 5 < length (answer r) <= 103
  /\ length (context r) <= 200.
Proof.
  unfold finish_question.
  destruct (truthy_opt question0) eqn:Hq; [|discriminate]. cbn [negb].
  destruct question0 as [q|]; [|discriminate].
  destruct answer0 as [a|]; [|discriminate].
  cbn [option_map].
  assert (Hca : length (clean_answer a) <= 103)
    by apply (limit_length_bound 100).
  assert (Hcq : length (clean_question q) <= 203)
    by apply (limit_length_bound 200).
  assert (Hctx : length (prefix 200 original_sentence) <= 200).
  { unfold prefix. rewrite length_firstn. lia. }
  revert Hctx. generalize (prefix 200 original_sentence). intros ctx Hctx.
  destruct (truthy_opt (Some a)) eqn:Ha; cbn [option_map].
  - destruct (truthy (clean_question q) && truthy (clean_answer a)
              && (10 <? length (clean_question q))
              && (5 <? length (clean_answer a))) eqn:Hok; [|discriminate].
    intros [= <-]. cbn [question answer context].
    apply andb_true_iff in Hok as [Hok H5].
    apply andb_true_iff in Hok as [_ H10].
    apply Nat.ltb_lt in H5, H10. lia.
  - (* the answer was not cleaned: it is empty, and the validation
       refuses it *)
    destruct a; [|discriminate]. cbn [truthy].
    rewrite andb_false_r. discriminate.
Qed.

Lemma generated_question_bounds (sentence : str) (r : QuestionRecord) :
  _generate_question_from_sentence word_tokenize pos_tag sentence = Some r ->
  10 < length (question r) <= 203 /\ 5 < length (answer r) <= 103.
Proof.
  unfold _generate_question_from_sentence.
  destruct (length (strip sentence) <? 20); [discriminate|].
  destruct (strategies _ _ _) as [q a]. intros H.
  apply finish_question_bounds in H. tauto.
Qed.

(** C2 fails on the code. The sentence about the regression suite yields a
    question of 202 characters, and the sentence that writes the googol out
    an answer of 103 characters: the truncation cuts at 200 and at 100
    characters and then appends the ellipsis.  Both sentences are decided
    by the third strategy, before the tokenizer and the tagger are
    consulted. *)
Theorem synthesized_texts_exceed_limits :
  (exists r,
      _generate_question_from_sentence word_tokenize pos_tag
        sentence_regression = Some r
      /\ length (question r) = 202
      /\ answer r = lit "45 minutes")
  /\ (exists r,
         _generate_question_from_sentence word_tokenize pos_tag
           sentence_googol = Some r
         /\ question r = lit "How many exactly is googol, as a number,?"
         /\ length (answer r) = 103).
Proof.
  split.
  - eexists. split; [vm_compute; reflexivity|]. split; reflexivity.
  - eexists. split; [vm_compute; reflexivity|]. split; reflexivity.
Qed.

End WithLibraries.

Example question_from_scenario_sentence :
  _generate_question_from_sentence tokenizer_missing tagger_missing
    sentence_agile
  = Some {| question := lit "What is Agile?";
            answer := lit "an iterative software development methodology";
            context := sentence_agile |}.
Proof. vm_compute. reflexivity. Qed.

End SynthesizerFacts.

(** ** The scenario of the specification, end to end *)

Module AgileFacts.
Import PyStr Py Random QuestionGenerator SynthesizerScenario AgileScenario.

(** The ranker on the topic [agile], whatever the exact scores: when the
    first and the third sentence score above 0.1, the third higher than the
    first, and the second scores nothing, the third sentence comes out in
    front and the second is dropped. *)
Lemma higher_score_comes_first
    (similarities_of : unit -> unit -> str -> result (list float))
    (a c : float) (n : nat) :
  similarities_of tt tt (lit "agile") = Ok [a; 0%float; c] ->
  PyNum.gt a 0.1%float = true ->
  PyNum.gt c 0.1%float = true ->
  PrimFloat.ltb a c = true ->
  2 <= n ->
  _find_relevant_sentences unit unit similarities_of
    RankerScenario.stable_argsort agile_generator (lit "agile") n
  = Ok [sentence_scrum; sentence_agile].
Proof.
  intros Hcos Ha Hc Hac Hn.
  pose proof (RankerFacts.above_tenth_positive a Ha) as H0a.
  pose proof (RankerFacts.ltb_asym _ _ (RankerFacts.above_tenth_positive c Hc))
    as Hc0.
  pose proof (RankerFacts.ltb_asym _ _ Hac) as Hca.
  assert (Hsort : RankerScenario.stable_argsort [a; 0%float; c] = [1; 0; 2]).
  { unfold RankerScenario.stable_argsort.
    cbn [length seq fold_left RankerScenario.insert_asc RankerScenario.score
         nth].
    rewrite H0a. cbn [RankerScenario.insert_asc RankerScenario.score nth].
    rewrite Hc0. cbn [RankerScenario.insert_asc RankerScenario.score nth].
    rewrite Hca. reflexivity. }
  assert (Hg0 : PyNum.gt 0%float 0.1%float = false)
    by (vm_compute; reflexivity).
  assert (Hkept : RankerScenario.kept [a; 0%float; c]
                    (rev (last_n n [1; 0; 2])) = [2; 0]).
  { unfold RankerScenario.kept, last_n. destruct n as [|[|n]]; [lia|lia|].
    cbn [Nat.eqb length].
    destruct n as [|n];
      [replace (3 - 2) with 1 by lia
      |replace (3 - S (S (S n))) with 0 by lia];
      cbn [skipn rev app List.filter RankerScenario.score nth];
      rewrite Ha, Hc, ?Hg0; reflexivity. }
  unfold _find_relevant_sentences, tfidf_search.
  cbn [vectorizer sentence_vectors agile_generator]. rewrite Hcos. cbn [bind].
  rewrite Hsort.
  rewrite RankerFacts.select_relevant_kept.
  - rewrite Hkept. cbn [bind try_except map nth sentences agile_corpus].
    destruct n as [|[|n]]; [lia|lia|].
    cbn [firstn]. rewrite firstn_nil. reflexivity.
  - reflexivity.
  - intros i Hi. apply in_rev in Hi.
    assert (Hall : forall j, In j [1; 0; 2] -> j < 3)
      by (cbn; intros j Hj; lia).
    apply Hall.
    exact (RankerFacts.sublist_In _ _ _ (RankerFacts.sublist_last_n n _) Hi).
Qed.

(** One question on the topic [agile], whatever the exact scores: under
    the same conditions the question asked is the one on Scrum. *)
Lemma question_on_agile_is_on_scrum
    (similarities_of : unit -> unit -> str -> result (list float))
    (a c : float) :
  similarities_of tt tt (lit "agile") = Ok [a; 0%float; c] ->
  PyNum.gt a 0.1%float = true ->
  PyNum.gt c 0.1%float = true ->
  PrimFloat.ltb a c = true ->
  generate_questions tokenizer_missing tagger_missing unit unit
    similarities_of RankerScenario.stable_argsort agile_generator []
    (Some (lit "agile")) 1
  = Ok [ {| question := lit "What is Scrum?";
            answer := lit "a framework for Agile";
            context := sentence_scrum |} ].
Proof.
  intros Hcos Ha Hc Hac.
  pose proof (higher_score_comes_first similarities_of a c 10 Hcos Ha Hc Hac
                ltac:(lia)) as Hrank.
  unfold generate_questions, generate_questions_run.
  change (default [] (Some (lit "agile"))) with (lit "agile").
  change (1 * 10) with 10.
  rewrite Hrank. vm_compute. reflexivity.
Qed.

(** The ranker on the topic [agile]: the third sentence scores higher
    than the first and comes out in front; the second is dropped. *)
Example relevant_sentences_on_agile :
  _find_relevant_sentences unit unit agile_similarities
    RankerScenario.stable_argsort agile_generator (lit "agile") 10
  = Ok [sentence_scrum; sentence_agile].
Proof. vm_compute. reflexivity. Qed.

(** One question on the topic [agile]: the ranker puts the third sentence
    in front, and the first strategy turns it into a definition question,
    so the question asked is the one on Scrum.  NLTK is taken to be without
    its data, which the validity filter tolerates. *)
Example generate_one_question_on_agile :
  generate_questions tokenizer_missing tagger_missing unit unit
    agile_similarities RankerScenario.stable_argsort agile_generator []
    (Some (lit "agile")) 1
  = Ok [ {| question := lit "What is Scrum?";
            answer := lit "a framework for Agile";
            context := sentence_scrum |} ].
Proof. vm_compute. reflexivity. Qed.

End AgileFacts.

(** * Further properties *)

(** ** More on strings *)

Module PyStrMore.
Import PyStr PyStrFacts.

Lemma eqb_char_eq (a b : ascii) : eqb_char a b = true <-> a = b.
Proof. unfold eqb_char. apply Ascii.eqb_eq. Qed.

Lemma eqb_eq (a b : str) : eqb a b = true <-> a = b.
Proof.
  revert b. induction a as [|x a IH]; intros [|y b]; simpl;
    try (split; [discriminate|discriminate]); [tauto|].
  rewrite andb_true_iff, eqb_char_eq, IH. split.
  - intros [-> ->]. reflexivity.
  - intros [= -> ->]. auto.
Qed.

Lemma eqb_refl (a : str) : eqb a a = true.
Proof. now apply eqb_eq. Qed.

Lemma startswith_app (p s : str) : startswith p (p ++ s) = true.
Proof.
  induction p as [|x p IH]; [reflexivity|].
  simpl. rewrite IH. unfold eqb_char. now rewrite Ascii.eqb_refl.
Qed.

Lemma startswith_spec (p s : str) :
  startswith p s = true -> exists rest, s = p ++ rest.
Proof.
  revert s. induction p as [|x p IH]; intros s; [exists s; reflexivity|].
  destruct s as [|y s]; [discriminate|]. simpl.
  intros H. apply andb_true_iff in H as [Hxy Hp].
  apply eqb_char_eq in Hxy as ->.
  destruct (IH s Hp) as [rest ->]. now exists rest.
Qed.

(** [p in s] holds exactly when [s] is [p] between two texts. *)
Lemma contains_app (p a b : str) : contains p (a ++ p ++ b) = true.
Proof.
  induction a as [|x a IH].
  - simpl app. destruct (p ++ b) eqn:E; simpl; rewrite <- ?E;
      now rewrite startswith_app.
  - simpl. rewrite IH. apply orb_true_r.
Qed.

Lemma contains_spec (p s : str) :
  contains p s = true -> exists a b, s = a ++ p ++ b.
Proof.
  induction s as [|x s IH]; simpl.
  - rewrite orb_false_r. intros H. apply startswith_spec in H as [rest ->].
    now exists [], rest.
  - intros H. apply orb_true_iff in H as [H|H].
    + apply startswith_spec in H as [rest ->]. now exists [], rest.
    + destruct (IH H) as (a & b & ->). now exists (x :: a), b.
Qed.

Lemma contains_refl (s : str) : contains s s = true.
Proof.
  pose proof (contains_app s [] []) as H. simpl in H.
  now rewrite app_nil_r in H.
Qed.

(** The words of a text are not empty when it starts with a word. *)
Lemma split_cons_nonspace (c : ascii) (s : str) :
  isspace c = false -> split (c :: s) <> [].
Proof.
  intros Hc. simpl. rewrite Hc. destruct s as [|d s]; [discriminate|].
  destruct (isspace d); [discriminate|].
  destruct (split (d :: s)); discriminate.
Qed.

(** A whitespace character between two texts separates their words. *)
Lemma split_app_space (a b : str) (sp : ascii) :
  isspace sp = true -> split (a ++ sp :: b) = split a ++ split b.
Proof.
  intros Hsp. induction a as [|c a IH].
  - simpl. now rewrite Hsp.
  - change ((c :: a) ++ sp :: b) with (c :: (a ++ sp :: b)).
    cbn [split]. destruct (isspace c) eqn:Hc; [exact IH|].
    destruct a as [|d a'].
    + change ([] ++ sp :: b) with (sp :: b) in *. cbv iota.
      rewrite Hsp. now rewrite IH.
    + change ((d :: a') ++ sp :: b) with (d :: (a' ++ sp :: b)) in *.
      cbv iota. destruct (isspace d) eqn:Hd.
      * now rewrite IH.
      * rewrite IH.
        pose proof (split_cons_nonspace d a' Hd) as Hne.
        destruct (split (d :: a')) as [|w ws]; [congruence|reflexivity].
Qed.

Lemma join_cons (sep w : str) (ws : list str) :
  ws <> [] -> join sep (w :: ws) = w ++ sep ++ join sep ws.
Proof. destruct ws; [congruence|reflexivity]. Qed.

(** A joined list contains the join of each of its segments. *)
Lemma contains_join_segment (sep : str) (before middle after : list str) :
  contains (join sep middle) (join sep (before ++ middle ++ after)) = true.
Proof.
  assert (Htail : forall ms ts,
             exists post, join sep (ms ++ ts) = join sep ms ++ post).
  { induction ms as [|m ms IH]; intros ts.
    - exists (join sep ts). reflexivity.
    - destruct ms as [|m2 ms'].
      + destruct ts as [|t ts']; [exists []; simpl; now rewrite app_nil_r|].
        exists (sep ++ join sep (t :: ts')). reflexivity.
      + destruct (IH ts) as [post Hpost].
        change ((m :: m2 :: ms') ++ ts) with (m :: ((m2 :: ms') ++ ts)).
        rewrite join_cons by discriminate.
        rewrite (join_cons sep m (m2 :: ms')) by discriminate.
        rewrite Hpost. exists post. now rewrite <- !app_assoc. }
  induction before as [|w before IH].
  - simpl app. destruct (Htail middle after) as [post ->].
    apply (contains_app (join sep middle) [] post).
  - destruct (before ++ middle ++ after) as [|x rest] eqn:Hrest.
    + destruct before; [|discriminate]. simpl in Hrest.
      destruct middle; [|discriminate]. simpl in Hrest. subst after.
      simpl. destruct w; reflexivity.
    + change ((w :: before) ++ middle ++ after)
        with (w :: (before ++ middle ++ after)).
      rewrite Hrest, join_cons by discriminate.
      apply contains_spec in IH as (a & b & Hab). rewrite Hab.
      rewrite !app_assoc. rewrite <- (app_assoc _ (join sep middle) b).
      apply contains_app.
Qed.

Lemma lstrip_head (s : str) (c : ascii) (r : str) :
  lstrip s = c :: r -> isspace c = false.
Proof.
  induction s as [|d s IH]; [discriminate|].
  simpl. destruct (isspace d) eqn:Hd; [exact IH|].
  intros [= <- _]. exact Hd.
Qed.

Lemma lstrip_suffix (s : str) : exists pre, s = pre ++ lstrip s.
Proof.
  induction s as [|c s [pre IH]]; [now exists []|].
  simpl. destruct (isspace c); [|now exists []].
  exists (c :: pre). simpl. now rewrite <- IH.
Qed.

(** What [strip] returns neither starts nor ends with whitespace. *)
Lemma strip_trimmed (s : str) :
  (forall c r, strip s = c :: r -> isspace c = false)
  /\ (forall c r, rev (strip s) = c :: r -> isspace c = false).
Proof.
  unfold strip. split; intros c r H.
  - destruct (lstrip_suffix (rev (lstrip s))) as [pre Hpre].
    apply (f_equal (@rev ascii)) in Hpre.
    rewrite rev_involutive, rev_app_distr, H in Hpre.
    apply (lstrip_head s c (r ++ rev pre)). exact Hpre.
  - rewrite rev_involutive in H. now apply lstrip_head in H.
Qed.

Lemma strip_idem (s : str) : strip (strip s) = strip s.
Proof.
  destruct (strip_trimmed s) as [Hhead Hlast].
  unfold strip at 1. rewrite (lstrip_id (strip s) Hhead).
  rewrite (lstrip_id (rev (strip s)) Hlast). apply rev_involutive.
Qed.

End PyStrMore.

(** ** More on the answer evaluator *)

Module EvaluatorProperties.
Import PyStr PyStrFacts PyStrMore Evaluator EvaluatorFacts EvaluatorCascade.

Lemma space_char_kept (c : ascii) :
  isspace c = true -> lower_char c = c /\ (isword c || isspace c) = true.
Proof.
  destruct c as [[] [] [] [] [] [] [] []]; intros H;
    try discriminate H; split; reflexivity.
Qed.

Lemma word_char_not_space (c : ascii) : isword c = true -> isspace c = false.
Proof.
  destruct c as [[] [] [] [] [] [] [] []]; intros H;
    try discriminate H; reflexivity.
Qed.

(** The words of the normalised text. *)
Lemma normalize_words (a b : str) (sp : ascii) :
  isspace sp = true ->
  split (remove_punctuation (lower (a ++ sp :: b)))
  = split (remove_punctuation (lower a))
    ++ split (remove_punctuation (lower b)).
Proof.
  intros Hsp. destruct (space_char_kept sp Hsp) as [Hlow Hkeep].
  unfold lower, remove_punctuation.
  rewrite map_app, List.filter_app. cbn [map List.filter].
  rewrite Hlow, Hkeep. now apply split_app_space.
Qed.

Lemma normalized_chars (x : str) (c : ascii) :
  In c (_normalize_text x) ->
  c = space \/ (isword c = true /\ lower_char c = c /\ isspace c = false).
Proof.
  rewrite normalize_unfold. intros Hc.
  apply in_join in Hc as [[<-|[]]|(w & Hw & Hc)]; [now left|].
  right. pose proof (split_words _ w Hw) as [[_ Hns] Hin].
  specialize (Hns c Hc). apply Hin in Hc.
  unfold remove_punctuation in Hc. apply filter_In in Hc as [Hc Hkeep].
  rewrite Hns, orb_false_r in Hkeep.
  unfold lower in Hc. apply in_map_iff in Hc as (c0 & <- & _).
  repeat split; [exact Hkeep|apply lower_char_idem|exact Hns].
Qed.

Lemma normalized_join_split (x : str) :
  join [space] (split (_normalize_text x)) = _normalize_text x.
Proof.
  rewrite normalize_unfold. rewrite split_join; [reflexivity|].
  intros w Hw. now apply split_words in Hw.
Qed.

(** The characters of a normalised text: single spaces between words of
    lowercase word characters. *)
Theorem normalize_text_shape (x : str) :
  (forall c, In c (_normalize_text x) ->
     c = space \/ (isword c = true /\ lower_char c = c /\ isspace c = false))
  /\ strip (_normalize_text x) = _normalize_text x
  /\ join [space] (split (_normalize_text x)) = _normalize_text x
  /\ (forallb isspace x = true -> _normalize_text x = []).
Proof.
  split; [exact (normalized_chars x)|].
  split; [|split; [exact (normalized_join_split x)|]].
  - rewrite normalize_unfold. apply strip_join.
    intros w Hw. now apply split_words in Hw.
  - intros Hblank. rewrite normalize_unfold.
    assert (Hno : forall t, forallb isspace t = true -> split t = []).
    { induction t as [|c t IH]; [reflexivity|]. simpl.
      intros H. apply andb_true_iff in H as [Hc Ht]. rewrite Hc. auto. }
    rewrite Hno; [reflexivity|].
    apply forallb_forall. intros c Hc.
    unfold remove_punctuation in Hc. apply filter_In in Hc as [Hc _].
    unfold lower in Hc. apply in_map_iff in Hc as (c0 & <- & Hc0).
    rewrite forallb_forall in Hblank. specialize (Hblank c0 Hc0).
    now rewrite (proj1 (space_char_kept c0 Hblank)).
Qed.

(** Every keyword is a word of the normalised text, longer than two
    characters, made of lowercase word characters, and no stop word. *)
Theorem keywords_are_content_words (text w : str) :
  w ∈ _extract_keywords text ->
  In w (split (_normalize_text text))
  /\ 2 < length w
  /\ (w ∉ stop_words)
  /\ (forall c, In c w -> isword c = true /\ lower_char c = c)
  /\ contains w (_normalize_text text) = true.
Proof.
  unfold _extract_keywords. rewrite elem_of_list_to_set, list_elem_of_In.
  intros Hw. apply filter_In in Hw as [Hw Hok].
  apply andb_true_iff in Hok as [Hlen Hstop].
  apply Nat.ltb_lt in Hlen. apply negb_true_iff, bool_decide_eq_false in Hstop.
  split; [exact Hw|]. split; [exact Hlen|]. split; [exact Hstop|]. split.
  - intros c Hc.
    pose proof (split_words _ w Hw) as [[_ Hns] Hin].
    specialize (Hns c Hc). apply Hin in Hc.
    destruct (normalized_chars text c Hc) as [->|(H1 & H2 & _)];
      [discriminate Hns|]. tauto.
  - pose proof (normalized_join_split text) as Hjoin.
    apply in_split in Hw as (before & after & Hsplit).
    rewrite <- Hjoin, Hsplit.
    exact (contains_join_segment [space] before [w] after).
Qed.

Section WithLibraries.

Variable ratio : str -> str -> float.
Variable format_percent : float -> str.

(** An answer that is not blank and normalises to the same text as the
    correct answer is correct. *)
Theorem equal_normalisations_are_correct (threshold : float)
    (user_answer correct_answer question context : str) :
  forallb isspace user_answer = false ->
  _normalize_text user_answer = _normalize_text correct_answer ->
  evaluate_answer ratio format_percent threshold
    user_answer correct_answer question context
  = (true, lit "Correct!").
Proof.
  intros Hblank Hnorm. unfold evaluate_answer.
  rewrite strip_blank, Hblank, Hnorm, eqb_refl. reflexivity.
Qed.

(** An answer that quotes the correct answer between whitespace, with
    anything before and after it, is correct. *)
Theorem quoted_answer_is_correct (threshold : float)
    (before after correct_answer question context : str) (sp1 sp2 : ascii) :
  isspace sp1 = true -> isspace sp2 = true ->
  forallb isspace (before ++ sp1 :: correct_answer ++ sp2 :: after) = false ->
  evaluate_answer ratio format_percent threshold
    (before ++ sp1 :: correct_answer ++ sp2 :: after)
    correct_answer question context
  = (true, lit "Correct!").
Proof.
  intros Hsp1 Hsp2 Hblank. unfold evaluate_answer.
  rewrite strip_blank, Hblank. cbn [negb].
  destruct (eqb _ _); [reflexivity|].
  rewrite !normalize_unfold.
  rewrite (normalize_words before _ sp1 Hsp1).
  rewrite (normalize_words correct_answer after sp2 Hsp2).
  now rewrite contains_join_segment.
Qed.

(** The flag and the feedback agree: the feedback is [Correct!] exactly
    when the answer is judged correct, and otherwise it starts by quoting
    the correct answer. *)
Theorem verdict_and_feedback_agree (threshold : float)
    (user_answer correct_answer question context : str) :
  let verdict :=
    evaluate_answer ratio format_percent threshold
      user_answer correct_answer question context in
  (fst verdict = true <-> snd verdict = lit "Correct!")
  /\ (fst verdict = false ->
      exists rest,
        snd verdict
        = lit "Incorrect. The correct answer is: " ++ correct_answer ++ rest).
Proof.
  unfold evaluate_answer, incorrect_feedback.
  repeat match goal with
         | |- context [if ?c then _ else _] =>
             lazymatch c with
             | PyNum.gt _ _ => fail
             | _ => destruct c
             end
         end;
    cbn [fst snd];
    try (split; [split; [reflexivity|reflexivity]|discriminate]).
  - split; [split; discriminate|]. intros _. exists [].
    now rewrite app_nil_r.
  - split; [split; destruct (PyNum.gt _ _); discriminate|].
    intros _. destruct (PyNum.gt _ _).
    + eexists. rewrite <- !app_assoc. reflexivity.
    + exists []. now rewrite app_nil_r.
Qed.

End WithLibraries.

Lemma equal_normalisations_are_correct_witness :
  forallb isspace (lit "  AGILE!  ") = false
  /\ _normalize_text (lit "  AGILE!  ") = _normalize_text (lit "agile")
  /\ evaluate_answer EvaluatorScenario.scenario_ratio
       EvaluatorScenario.scenario_percent default_threshold
       (lit "  AGILE!  ") (lit "agile") [] []
     = (true, lit "Correct!").
Proof.
  assert (H1 : forallb isspace (lit "  AGILE!  ") = false) by reflexivity.
  assert (H2 : _normalize_text (lit "  AGILE!  ") = _normalize_text (lit "agile"))
    by (vm_compute; reflexivity).
  split; [exact H1|]. split; [exact H2|].
  exact (equal_normalisations_are_correct EvaluatorScenario.scenario_ratio
           EvaluatorScenario.scenario_percent default_threshold
           (lit "  AGILE!  ") (lit "agile") [] [] H1 H2).
Defined.

Lemma quoted_answer_is_correct_witness :
  isspace space = true
  /\ forallb isspace
       (lit "I think it is" ++ space :: lit "Scrum" ++ space :: lit "maybe")
     = false
  /\ evaluate_answer EvaluatorScenario.scenario_ratio
       EvaluatorScenario.scenario_percent default_threshold
       (lit "I think it is" ++ space :: lit "Scrum" ++ space :: lit "maybe")
       (lit "Scrum") [] []
     = (true, lit "Correct!").
Proof.
  assert (H1 : isspace space = true) by reflexivity.
  assert (H2 : forallb isspace
                 (lit "I think it is" ++ space :: lit "Scrum"
                  ++ space :: lit "maybe") = false) by reflexivity.
  split; [exact H1|]. split; [exact H2|].
  exact (quoted_answer_is_correct EvaluatorScenario.scenario_ratio
           EvaluatorScenario.scenario_percent default_threshold
           (lit "I think it is") (lit "maybe") (lit "Scrum") [] []
           space space H1 H1 H2).
Defined.

Lemma keywords_are_content_words_witness :
  lit "iterative" ∈ _extract_keywords EvaluatorScenario.scenario_correct
  /\ 2 < length (lit "iterative")
  /\ contains (lit "iterative")
       (_normalize_text EvaluatorScenario.scenario_correct) = true.
Proof.
  assert (H : lit "iterative"
              ∈ _extract_keywords EvaluatorScenario.scenario_correct)
    by (unfold _extract_keywords;
        rewrite elem_of_list_to_set, list_elem_of_In; vm_compute;
        repeat (first [left; reflexivity | right])).
  split; [exact H|].
  pose proof (keywords_are_content_words
                EvaluatorScenario.scenario_correct (lit "iterative") H)
    as (_ & Hlen & _ & _ & Hin).
  split; assumption.
Defined.

End EvaluatorProperties.

(** ** More on the question generator *)

Module GeneratorProperties.
Import PyStr PyStrFacts PyStrMore Py Random QuestionGenerator
  GeneratorInvariants.

Lemma In_firstn_In {A : Type} (n : nat) (l : list A) (x : A) :
  In x (firstn n l) -> In x l.
Proof.
  apply RankerFacts.sublist_In, RankerFacts.sublist_firstn.
Qed.

Lemma drop_to_space_In (r rest : str) (c : ascii) :
  drop_to_space r = Some rest -> In c rest -> In c r.
Proof.
  revert rest. induction r as [|d r IH]; intros rest; [discriminate|].
  simpl. destruct (eqb_char d space).
  - intros [= <-] Hc. now right.
  - intros H Hc. right. eauto.
Qed.

Lemma rsplit1_head_In (s : str) (c : ascii) : In c (rsplit1_head s) -> In c s.
Proof.
  unfold rsplit1_head. destruct (drop_to_space (rev s)) as [r|] eqn:Hr; [|tauto].
  intros Hc. apply in_rev in Hc. apply in_rev.
  eapply drop_to_space_In; eassumption.
Qed.

Lemma plain_spaces_join_split (s : str) : plain_spaces (join [space] (split s)).
Proof.
  intros c Hc Hsp. apply in_join in Hc as [[<-|[]]|(w & Hw & Hc)]; [reflexivity|].
  apply split_words in Hw as [[_ Hns] _]. rewrite (Hns c Hc) in Hsp.
  discriminate.
Qed.

Lemma plain_spaces_limit_length (limit : nat) (s : str) :
  plain_spaces s -> plain_spaces (limit_length limit s).
Proof.
  intros Hs. unfold limit_length. destruct (limit <? length s); [|exact Hs].
  intros c Hc Hsp. apply in_app_or in Hc as [Hc|Hc].
  - apply rsplit1_head_In in Hc. unfold prefix in Hc.
    apply In_firstn_In in Hc. now apply Hs.
  - destruct Hc as [<-|[<-|[<-|[]]]]; discriminate Hsp.
Qed.

Lemma choose_In {A : Type} (k : nat) (pool : list A) (g : rng) (x : A) :
  In x (fst (choose k pool g)) -> In x pool.
Proof.
  revert pool g. induction k as [|k IH]; intros pool g; [intros []|].
  cbn [choose]. destruct (draw g (length pool)) as [i g'].
  destruct (nth_error pool i) as [y|] eqn:Hnth; [|intros []].
  specialize (IH (remove_at i pool) g').
  destruct (choose k (remove_at i pool) g') as [rest g''].
  cbn [fst] in *. intros [<-|Hx]; [now apply nth_error_In in Hnth|].
  apply IH in Hx. clear -Hx. revert i Hx.
  induction pool as [|a pool IHp]; intros [|i]; simpl; try tauto.
  intros [->|Hx]; [now left|right; eauto].
Qed.

Lemma random_sample_In {A : Type} (population : list A) (k : nat) (g g' : rng)
    (l : list A) (x : A) :
  random_sample population k g = (Ok l, g') -> In x l -> In x population.
Proof.
  unfold random_sample. destruct (length population <? k); [discriminate|].
  pose proof (choose_In k population g x) as H.
  destruct (choose k population g) as [l0 g0]. intros [= <- <-]. exact H.
Qed.

Lemma insert_desc_In {A : Type} (key : A -> nat) (x y : A) (l : list A) :
  In x (insert_desc key y l) <-> x = y \/ In x l.
Proof.
  induction l as [|z l IH]; simpl; [intuition congruence|].
  destruct (key z <? key y); simpl; [intuition congruence|].
  rewrite IH. intuition congruence.
Qed.

Lemma sort_desc_In {A : Type} (key : A -> nat) (l : list A) (x : A) :
  In x (sort_desc key l) <-> In x l.
Proof.
  unfold sort_desc.
  assert (H : forall acc,
             In x (fold_left (fun acc y => insert_desc key y acc) l acc)
             <-> In x l \/ In x acc).
  { induction l as [|y l IH]; intros acc; simpl; [tauto|].
    rewrite IH, insert_desc_In. intuition congruence. }
  rewrite H. simpl. tauto.
Qed.

(** The pairs of the keyword search. *)
Lemma scored_In (sentences : list str) (topic : str) (p : str * nat) :
  In p (flat_map
          (fun sent =>
             if 0 <? KeywordScore.matches topic sent
             then [(sent, KeywordScore.matches topic sent)] else [])
          sentences)
  <-> In (fst p) sentences /\ snd p = KeywordScore.matches topic (fst p)
      /\ 0 < snd p.
Proof.
  rewrite in_flat_map. split.
  - intros (sent & Hsent & Hp).
    destruct (0 <? _) eqn:Hpos; [|destruct Hp].
    destruct Hp as [<-|[]]. apply Nat.ltb_lt in Hpos. simpl. auto.
  - intros (Hin & Heq & Hpos). exists (fst p). split; [exact Hin|].
    rewrite <- Heq. destruct (0 <? snd p) eqn:Hlt.
    + left. now destruct p.
    + apply Nat.ltb_ge in Hlt. lia.
Qed.

Lemma keyword_search_In (sentences : list str) (topic : str) (n : nat)
    (s : str) :
  In s (_find_relevant_sentences_keyword sentences topic n) ->
  In s sentences /\ 0 < KeywordScore.matches topic s.
Proof.
  unfold _find_relevant_sentences_keyword. intros Hs.
  apply in_map_iff in Hs as (p & <- & Hp).
  apply In_firstn_In in Hp. apply sort_desc_In in Hp.
  apply (scored_In sentences topic p) in Hp as (Hin & Heq & Hpos).
  split; [exact Hin|]. now rewrite <- Heq.
Qed.

Lemma select_relevant_In (sentences : list str) (similarities : list float)
    (top_indices : list nat) (l : list str) (s : str) :
  select_relevant sentences similarities top_indices = Ok l ->
  In s l -> In s sentences.
Proof.
  revert l. induction top_indices as [|i rest IH]; intros l; simpl.
  - intros [= <-] [].
  - destruct (nth_error similarities i) as [x|]; [|discriminate].
    destruct (PyNum.gt x 0.1%float); [|apply IH].
    destruct (nth_error sentences i) as [sent|] eqn:Hnth; [|discriminate].
    destruct (select_relevant sentences similarities rest) as [l0|];
      [|discriminate].
    simpl. intros [= <-] [<-|Hs]; [now apply nth_error_In in Hnth|].
    now apply (IH l0).
Qed.

Section WithIndex.

Variables V M : Type.
Variable cosine_similarities : V -> M -> str -> result (list float).
Variable argsort : list float -> list nat.

(** The ranker returns sentences of the corpus only. *)
Lemma find_relevant_In (self : generator V M) (topic : str) (n : nat)
    (l : list str) (s : str) :
  _find_relevant_sentences V M cosine_similarities argsort self topic n = Ok l ->
  In s l -> In s (sentences self).
Proof.
  unfold _find_relevant_sentences.
  assert (Hkw : forall l0,
             Ok (_find_relevant_sentences_keyword (sentences self) topic n)
             = Ok l0 -> In s l0 -> In s (sentences self)).
  { intros l0 [= <-] Hs. now apply keyword_search_In in Hs. }
  destruct (vectorizer self) as [v|]; [|apply Hkw].
  destruct (sentence_vectors self) as [m|]; [|apply Hkw].
  unfold tfidf_search.
  destruct (cosine_similarities v m topic) as [sims|]; [|apply Hkw].
  cbn [bind].
  destruct (select_relevant _ _ _) as [rel|] eqn:Hsel; [|apply Hkw].
  cbn [bind try_except]. intros [= <-] Hs. apply In_firstn_In in Hs.
  eapply select_relevant_In; eassumption.
Qed.

End WithIndex.

Section WithTagger.

Variable word_tokenize : str -> result (list str).
Variable pos_tag : list str -> result (list (str * str)).

(** What a returned record looks like. *)
Theorem generated_record_shape (sentence : str) (r : QuestionRecord) :
  _generate_question_from_sentence word_tokenize pos_tag sentence = Some r ->
  20 <= length (strip sentence)
  /\ context r = prefix 200 (strip sentence)
  /\ 10 < length (question r) <= 203
  /\ 5 < length (answer r) <= 103
  /\ plain_spaces (question r)
  /\ plain_spaces (answer r).
Proof.
  unfold _generate_question_from_sentence.
  destruct (length (strip sentence) <? 20) eqn:Hlen; [discriminate|].
  apply Nat.ltb_ge in Hlen.
  destruct (strategies _ _ _) as [q a]. intros H.
  split; [exact Hlen|].
  pose proof (SynthesizerFacts.finish_question_bounds _ _ _ _ H)
    as (Hq & Ha & _).
  revert H. unfold finish_question.
  destruct (truthy_opt q) eqn:Hq0; [|discriminate]. cbn [negb].
  destruct q as [q|]; [|discriminate].
  destruct a as [a|]; [|discriminate]. cbn [option_map].
  generalize (prefix 200 (strip sentence)). intros ctx.
  assert (Hpq : plain_spaces (clean_question q))
    by apply plain_spaces_limit_length, plain_spaces_join_split.
  assert (Hpa : plain_spaces (clean_answer a))
    by apply plain_spaces_limit_length, plain_spaces_join_split.
  destruct a as [|c a]; cbn [truthy_opt truthy option_map].
  - rewrite andb_false_r. discriminate.
  - destruct (_ && _); [|discriminate]. intros [= <-].
    cbn [question answer context] in *. intuition auto.
Qed.

Lemma attempt_sourced (corpus : list str) (sentence : str) (st : progress) :
  In sentence corpus -> sourced word_tokenize pos_tag corpus (questions st) ->
  sourced word_tokenize pos_tag corpus
    (questions (fst (attempt word_tokenize pos_tag sentence st))).
Proof.
  intros Hin Hst. unfold attempt.
  destruct (_generate_question_from_sentence word_tokenize pos_tag sentence)
    as [q|] eqn:Hgen; [|exact Hst].
  case_bool_decide; [|exact Hst].
  cbn [fst questions]. intros r Hr. apply in_app_or in Hr as [Hr|[<-|[]]].
  - now apply Hst.
  - eauto.
Qed.

Lemma first_pass_sourced (corpus : list str) (n : nat) (sents : list str)
    (failures : nat) (st : progress) :
  incl sents corpus -> sourced word_tokenize pos_tag corpus (questions st) ->
  sourced word_tokenize pos_tag corpus
    (questions (first_pass word_tokenize pos_tag n sents failures st)).
Proof.
  revert failures st.
  induction sents as [|s sents IH]; intros failures st Hincl Hst; [exact Hst|].
  cbn [first_pass]. destruct (n <=? length (questions st)); [exact Hst|].
  pose proof (attempt_sourced corpus s st (Hincl s (or_introl eq_refl)) Hst)
    as Hnext.
  destruct (attempt word_tokenize pos_tag s st) as [st' added].
  cbn [fst] in Hnext.
  destruct (50 <? _); [exact Hnext|].
  apply IH; [|exact Hnext]. intros x Hx. apply Hincl. now right.
Qed.

Lemma second_pass_sourced (corpus : list str) (n : nat) (sents : list str)
    (st : progress) :
  incl sents corpus -> sourced word_tokenize pos_tag corpus (questions st) ->
  sourced word_tokenize pos_tag corpus
    (questions (second_pass word_tokenize pos_tag n sents st)).
Proof.
  revert st. induction sents as [|s sents IH]; intros st Hincl Hst; [exact Hst|].
  cbn [second_pass]. destruct (n <=? length (questions st)); [exact Hst|].
  apply IH; [intros x Hx; apply Hincl; now right|].
  apply attempt_sourced; [apply Hincl; now left|exact Hst].
Qed.

Lemma third_pass_sourced (corpus : list str) (n : nat) (tried : gset str)
    (sents : list str) (st : progress) :
  incl sents corpus -> sourced word_tokenize pos_tag corpus (questions st) ->
  sourced word_tokenize pos_tag corpus
    (questions (third_pass word_tokenize pos_tag n tried sents st)).
Proof.
  revert st. induction sents as [|s sents IH]; intros st Hincl Hst; [exact Hst|].
  assert (Hrest : incl sents corpus) by (intros x Hx; apply Hincl; now right).
  cbn [third_pass]. destruct (n <=? length (questions st)); [exact Hst|].
  case_bool_decide; apply IH; try assumption.
  apply attempt_sourced; [apply Hincl; now left|exact Hst].
Qed.

(** In a run of failures, the first loop hands 51 sentences to the
    synthesizer and stops. *)
Theorem first_pass_gives_up (num_questions : nat) (valid_sentences : list str)
    (st : progress) :
  length (questions st) < num_questions ->
  (forall s, In s valid_sentences ->
     _generate_question_from_sentence word_tokenize pos_tag s = None) ->
  attempted (first_pass word_tokenize pos_tag num_questions valid_sentences 0 st)
  = attempted st ++ firstn 51 valid_sentences
  /\ questions (first_pass word_tokenize pos_tag num_questions valid_sentences 0 st)
     = questions st.
Proof.
  intros Hn.
  assert (H : forall sents failures st0,
             failures <= 50 ->
             questions st0 = questions st ->
             (forall s, In s sents ->
                _generate_question_from_sentence word_tokenize pos_tag s = None) ->
             attempted (first_pass word_tokenize pos_tag num_questions sents
                          failures st0)
             = attempted st0 ++ firstn (51 - failures) sents
             /\ questions (first_pass word_tokenize pos_tag num_questions sents
                             failures st0)
                = questions st).
  { induction sents as [|s sents IH]; intros failures st0 Hf Hq Hnone.
    - cbn [first_pass]. rewrite firstn_nil, app_nil_r. now split.
    - cbn [first_pass]. rewrite Hq.
      destruct (num_questions <=? length (questions st)) eqn:Hle;
        [apply Nat.leb_le in Hle; lia|].
      unfold attempt. rewrite (Hnone s (or_introl eq_refl)).
      destruct (50 <? S failures) eqn:Hstop.
      + apply Nat.ltb_lt in Hstop. cbn [attempted questions].
        split; [|exact Hq].
        destruct (51 - failures) as [|k] eqn:Hk; [lia|].
        assert (k = 0) as -> by lia. reflexivity.
      + apply Nat.ltb_ge in Hstop.
        destruct (IH (S failures)
                    {| questions := questions st0;
                       seen_questions := seen_questions st0;
                       attempted := attempted st0 ++ [s] |}) as [Hlog Hqs].
        * exact Hstop.
        * exact Hq.
        * intros x Hx. apply Hnone. now right.
        * rewrite Hlog, Hqs. cbn [attempted]. split; [|reflexivity].
          rewrite <- app_assoc.
          replace (51 - failures) with (S (51 - S failures)) by lia.
          reflexivity. }
  intros Hnone. exact (H valid_sentences 0 st ltac:(lia) eq_refl Hnone).
Qed.

Lemma incl_filter {A : Type} (p : A -> bool) (l corpus : list A) :
  incl l corpus -> incl (List.filter p l) corpus.
Proof. intros H x Hx. apply filter_In in Hx as [Hx _]. now apply H. Qed.

Section WithRanker.

Variables V M : Type.
Variable cosine_similarities : V -> M -> str -> result (list float).
Variable argsort : list float -> list nat.

Lemma generate_questions_run_sourced (self : generator V M) (g : rng)
    (topic : option str) (n : nat) (st : progress) :
  generate_questions_run word_tokenize pos_tag V M cosine_similarities
    argsort self g topic n = Ok st ->
  sourced word_tokenize pos_tag (sentences self) (questions st).
Proof.
  unfold generate_questions_run.
  set (pool := if truthy_opt topic then _ else _).
  assert (Hpool : forall l g', pool = Ok (l, g') -> incl l (sentences self)).
  { subst pool. intros l g'. destruct (truthy_opt topic).
    - destruct (_find_relevant_sentences _ _ _ _ _ _ _) as [l0|] eqn:Hfind;
        [|discriminate].
      cbn [bind]. intros [= <- <-] x Hx.
      eapply (find_relevant_In V M cosine_similarities argsort); eassumption.
    - destruct (n <? length (sentences self)).
      + destruct (random_sample _ _ g) as [[l0|] g0] eqn:Hsample;
          [|discriminate].
        cbn [bind]. intros [= <- <-] x Hx.
        eapply random_sample_In; eassumption.
      + intros [= <- <-] x Hx. exact Hx. }
  destruct pool as [[relevant g1]|]; [|discriminate].
  specialize (Hpool relevant g1 eq_refl). cbn [bind].
  set (valid := if _ <? n * 2 then _ else _).
  assert (Hvalid : incl valid (sentences self)).
  { subst valid. destruct (_ <? n * 2); now apply incl_filter. }
  assert (H1 : sourced word_tokenize pos_tag (sentences self)
                 (questions (first_pass word_tokenize pos_tag n valid 0 start))).
  { apply first_pass_sourced; [exact Hvalid|]. intros r []. }
  set (st1 := first_pass word_tokenize pos_tag n valid 0 start) in *.
  destruct (length (questions st1) <? n); [|now intros [= <-]].
  set (remaining := List.filter _ (sentences self)).
  assert (Hrem : incl remaining (sentences self))
    by (apply incl_filter; intros x Hx; exact Hx).
  set (second := match remaining with [] => _ | _ :: _ => _ end).
  assert (H2 : forall st2 g2, second = Ok (st2, g2) ->
                 sourced word_tokenize pos_tag (sentences self) (questions st2)).
  { subst second. intros st2 g2. destruct remaining as [|s rest] eqn:Hr.
    - now intros [= <- <-].
    - destruct (random_sample _ _ g1) as [[l0|] g0] eqn:Hsample;
        [|discriminate].
      cbn [bind]. intros [= <- <-].
      apply second_pass_sourced; [|exact H1].
      apply incl_filter. intros x Hx. apply Hrem.
      eapply random_sample_In; eassumption. }
  destruct second as [[st2 g2]|]; [|discriminate].
  specialize (H2 st2 g2 eq_refl). cbn [bind].
  destruct (length (questions st2) <? n); [|now intros [= <-]].
  match goal with
  | |- context [random_shuffle ?l g2] =>
      pose proof (fun x => choose_In (length l) l g2 x) as Hc;
      fold (random_shuffle l g2) in Hc;
      destruct (random_shuffle l g2) as [shuffled g3]
  end.
  intros [= <-]. apply third_pass_sourced; [|exact H2].
  intros x Hx. apply Hc in Hx. apply filter_In in Hx. tauto.
Qed.

(** Every question of a quiz is what the synthesizer makes of one sentence
    of the corpus, whatever the ranker and the random draws select. *)
Theorem questions_stem_from_corpus_sentences (self : generator V M)
    (g : rng) (topic : option str) (num_questions : nat)
    (records : list QuestionRecord) :
  generate_questions word_tokenize pos_tag V M cosine_similarities argsort
    self g topic num_questions = Ok records ->
  forall r, In r records ->
    exists s, In s (sentences self)
      /\ _generate_question_from_sentence word_tokenize pos_tag s = Some r.
Proof.
  unfold generate_questions.
  destruct (generate_questions_run _ _ _ _ _ _ _ _ _ _) as [st|] eqn:Hrun;
    [|discriminate].
  cbn [bind]. intros [= <-] r Hr. apply In_firstn_In in Hr.
  exact (generate_questions_run_sourced self g topic num_questions st Hrun r Hr).
Qed.

End WithRanker.

End WithTagger.

Section WithTokenizer.

Variable sent_tokenize : str -> result (list str).
Variables V M : Type.
Variable fit_transform : list str -> result (V * M).

(** The sentences of the corpus are stripped and longer than 20
    characters. *)
Theorem extracted_sentences_are_stripped (markdown_content s : str) :
  In s (_extract_sentences sent_tokenize markdown_content) ->
  strip s = s /\ 20 < length s
  /\ lenient_valid s = starts_upper s.
Proof.
  unfold _extract_sentences. intros Hs.
  apply in_map_iff in Hs as (piece & <- & Hpiece).
  apply filter_In in Hpiece as [_ Hlen]. apply Nat.ltb_lt in Hlen.
  split; [apply strip_idem|]. split; [exact Hlen|].
  unfold lenient_valid. rewrite strip_idem.
  apply Nat.ltb_lt in Hlen. now rewrite Hlen.
Qed.

(** A generator object has its index exactly when it has sentences, and
    building the index keeps the text and the sentences. *)
Theorem init_indexes_nonempty_corpus (markdown_content : str)
    (self : generator V M) :
  __init__ sent_tokenize V M fit_transform markdown_content = Ok self ->
  QuestionGenerator.markdown_content self = markdown_content
  /\ sentences self = _extract_sentences sent_tokenize markdown_content
  /\ (sentences self = [] <-> vectorizer self = None)
  /\ (sentences self = [] <-> sentence_vectors self = None).
Proof.
  unfold __init__, _build_tfidf_index. cbn [sentences QuestionGenerator.markdown_content].
  destruct (_extract_sentences sent_tokenize markdown_content) as [|s rest]
    eqn:Hsents.
  - cbn [sentences]. intros [= <-]. cbn. tauto.
  - cbn [sentences]. destruct (fit_transform (s :: rest)) as [fitted|];
      [|discriminate].
    cbn [bind]. intros [= <-]. cbn.
    repeat split; try discriminate; reflexivity.
Qed.

End WithTokenizer.

Lemma generated_record_shape_witness :
  _generate_question_from_sentence SynthesizerScenario.tokenizer_missing
    SynthesizerScenario.tagger_missing SynthesizerScenario.sentence_agile
  = Some {| question := lit "What is Agile?";
            answer := lit "an iterative software development methodology";
            context := SynthesizerScenario.sentence_agile |}
  /\ 10 < length (lit "What is Agile?") <= 203
  /\ plain_spaces (lit "What is Agile?").
Proof.
  assert (H : _generate_question_from_sentence
                SynthesizerScenario.tokenizer_missing
                SynthesizerScenario.tagger_missing
                SynthesizerScenario.sentence_agile
              = Some {| question := lit "What is Agile?";
                        answer :=
                          lit "an iterative software development methodology";
                        context := SynthesizerScenario.sentence_agile |})
    by (vm_compute; reflexivity).
  split; [exact H|].
  pose proof (generated_record_shape SynthesizerScenario.tokenizer_missing
                SynthesizerScenario.tagger_missing _ _ H)
    as (_ & _ & Hq & _ & Hp & _).
  split; [exact Hq|exact Hp].
Defined.

Lemma questions_stem_from_corpus_sentences_witness :
  generate_questions SynthesizerScenario.tokenizer_missing
    SynthesizerScenario.tagger_missing unit unit
    AgileScenario.agile_similarities RankerScenario.stable_argsort
    AgileScenario.agile_generator [] (Some (lit "agile")) 1
  = Ok [ {| question := lit "What is Scrum?";
            answer := lit "a framework for Agile";
            context := AgileScenario.sentence_scrum |} ]
  /\ exists s, In s AgileScenario.agile_corpus
       /\ _generate_question_from_sentence
            SynthesizerScenario.tokenizer_missing
            SynthesizerScenario.tagger_missing s
          = Some {| question := lit "What is Scrum?";
                    answer :=
                      lit "a framework for Agile";
                    context := AgileScenario.sentence_scrum |}.
Proof.
  assert (H : generate_questions SynthesizerScenario.tokenizer_missing
                SynthesizerScenario.tagger_missing unit unit
                AgileScenario.agile_similarities RankerScenario.stable_argsort
                AgileScenario.agile_generator [] (Some (lit "agile")) 1
              = Ok [ {| question := lit "What is Scrum?";
                        answer :=
                          lit "a framework for Agile";
                        context := AgileScenario.sentence_scrum |} ])
    by (vm_compute; reflexivity).
  split; [exact H|].
  exact (questions_stem_from_corpus_sentences
           SynthesizerScenario.tokenizer_missing
           SynthesizerScenario.tagger_missing unit unit
           AgileScenario.agile_similarities RankerScenario.stable_argsort
           AgileScenario.agile_generator [] (Some (lit "agile")) 1 _ H
           _ (or_introl eq_refl)).
Defined.

Lemma extracted_sentences_are_stripped_witness :
  In (lit "Waterfall is a linear software development methodology")
     (_extract_sentences SynthesizerScenario.tokenizer_missing
        (join [space] AgileScenario.agile_corpus))
  /\ 20 < length (lit "Waterfall is a linear software development methodology").
Proof.
  assert (H : In (lit "Waterfall is a linear software development methodology")
                (_extract_sentences SynthesizerScenario.tokenizer_missing
                   (join [space] AgileScenario.agile_corpus)))
    by (vm_compute; right; left; reflexivity).
  split; [exact H|].
  exact (proj1 (proj2 (extracted_sentences_are_stripped
                         SynthesizerScenario.tokenizer_missing _ _ H))).
Defined.

Lemma init_indexes_nonempty_corpus_witness :
  __init__ SynthesizerScenario.tokenizer_missing unit unit
    RankerScenario.fit_refusing_single (join [space] AgileScenario.agile_corpus)
  = Ok {| markdown_content := join [space] AgileScenario.agile_corpus;
          sentences :=
            _extract_sentences SynthesizerScenario.tokenizer_missing
              (join [space] AgileScenario.agile_corpus);
          vectorizer := Some tt;
          sentence_vectors := Some tt |}
  /\ (_extract_sentences SynthesizerScenario.tokenizer_missing
        (join [space] AgileScenario.agile_corpus) = []
      <-> Some tt = None).
Proof.
  assert (H : __init__ SynthesizerScenario.tokenizer_missing unit unit
                RankerScenario.fit_refusing_single
                (join [space] AgileScenario.agile_corpus)
              = Ok {| markdown_content :=
                        join [space] AgileScenario.agile_corpus;
                      sentences :=
                        _extract_sentences
                          SynthesizerScenario.tokenizer_missing
                          (join [space] AgileScenario.agile_corpus);
                      vectorizer := Some tt;
                      sentence_vectors := Some tt |})
    by (vm_compute; reflexivity).
  split; [exact H|].
  exact (proj1 (proj2 (proj2 (init_indexes_nonempty_corpus
                                SynthesizerScenario.tokenizer_missing
                                unit unit RankerScenario.fit_refusing_single
                                _ _ H)))).
Defined.

Lemma first_pass_gives_up_witness :
  length (questions start) < 3
  /\ attempted
       (first_pass SynthesizerScenario.tokenizer_missing
          SynthesizerScenario.tagger_missing 3
          (repeat (lit "Too short.") 60) 0 start)
     = repeat (lit "Too short.") 51.
Proof.
  assert (Hn : length (questions start) < 3) by (cbn; lia).
  split; [exact Hn|].
  refine (proj1 (first_pass_gives_up SynthesizerScenario.tokenizer_missing
                   SynthesizerScenario.tagger_missing 3
                   (repeat (lit "Too short.") 60) start Hn _)).
  intros s Hs. apply repeat_spec in Hs. subst s. reflexivity.
Defined.

End GeneratorProperties.

(** ** The keyword search and the sentence splitter *)

Module RankingProperties.
Import PyStr Py QuestionGenerator GeneratorInvariants GeneratorProperties.

Section Sorting.

Context {A : Type} (key : A -> nat).

Lemma insert_desc_descending (x : A) (l : list A) :
  descending key l -> descending key (insert_desc key x l).
Proof.
  unfold descending.
  induction 1 as [|y l Hy Hl IH]; simpl; [repeat constructor|].
  destruct (key y <? key x) eqn:Hlt.
  - apply Nat.ltb_lt in Hlt. constructor; [|now constructor].
    constructor; [lia|]. eapply List.Forall_impl; [|exact Hy].
    cbv beta. intros z Hz. lia.
  - apply Nat.ltb_ge in Hlt. constructor; [|exact IH].
    apply List.Forall_forall. intros z Hz.
    apply insert_desc_In in Hz as [->|Hz]; [exact Hlt|].
    rewrite List.Forall_forall in Hy. now apply Hy.
Qed.

Lemma insert_desc_filter (k : nat) (x : A) (l : list A) :
  descending key l ->
  List.filter (fun a => key a =? k) (insert_desc key x l)
  = List.filter (fun a => key a =? k) l
    ++ (if key x =? k then [x] else []).
Proof.
  induction 1 as [|y l Hy Hl IH]; [reflexivity|].
  cbn [insert_desc]. destruct (key y <? key x) eqn:Hlt.
  - apply Nat.ltb_lt in Hlt. cbn [List.filter].
    destruct (key x =? k) eqn:Hx; [|now rewrite app_nil_r].
    apply Nat.eqb_eq in Hx.
    destruct (key y =? k) eqn:Hyk; [apply Nat.eqb_eq in Hyk; lia|].
    replace (List.filter (fun a => key a =? k) l) with (@nil A); [reflexivity|].
    symmetry. clear -Hy Hlt Hx.
    induction Hy as [|z l Hz Hy' IHy]; [reflexivity|].
    simpl. destruct (key z =? k) eqn:Hzk; [apply Nat.eqb_eq in Hzk; lia|].
    exact IHy.
  - cbn [List.filter]. rewrite IH.
    destruct (key y =? k); reflexivity.
Qed.

Lemma insert_desc_permutation (x : A) (l : list A) :
  Permutation (insert_desc key x l) (x :: l).
Proof.
  induction l as [|y l IH]; [reflexivity|]. simpl.
  destruct (key y <? key x); [reflexivity|].
  rewrite IH. apply perm_swap.
Qed.

Lemma sort_desc_spec (l : list A) :
  descending key (sort_desc key l)
  /\ Permutation (sort_desc key l) l
  /\ forall k, List.filter (fun a => key a =? k) (sort_desc key l)
               = List.filter (fun a => key a =? k) l.
Proof.
  unfold sort_desc.
  assert (H : forall acc, descending key acc ->
             descending key (fold_left (fun acc x => insert_desc key x acc) l acc)
             /\ Permutation
                  (fold_left (fun acc x => insert_desc key x acc) l acc)
                  (acc ++ l)
             /\ forall k,
                  List.filter (fun a => key a =? k)
                    (fold_left (fun acc x => insert_desc key x acc) l acc)
                  = List.filter (fun a => key a =? k) acc
                    ++ List.filter (fun a => key a =? k) l).
  { induction l as [|x l IH]; intros acc Hacc; cbn [fold_left].
    - rewrite app_nil_r. split; [exact Hacc|]. split; [reflexivity|].
      intros k. now rewrite app_nil_r.
    - destruct (IH (insert_desc key x acc)
                  (insert_desc_descending x acc Hacc)) as (H1 & H2 & H3).
      split; [exact H1|]. split.
      + rewrite H2, insert_desc_permutation. apply Permutation_middle.
      + intros k. rewrite H3, insert_desc_filter by exact Hacc.
        rewrite <- app_assoc. cbn [List.filter].
        destruct (key x =? k); reflexivity. }
  destruct (H [] ltac:(constructor)) as (H1 & H2 & H3).
  split; [exact H1|]. split; [exact H2|exact H3].
Qed.

End Sorting.

Lemma scored_map_fst (sentences : list str) (topic : str) :
  map fst
    (flat_map
       (fun sent =>
          if 0 <? KeywordScore.matches topic sent
          then [(sent, KeywordScore.matches topic sent)] else [])
       sentences)
  = List.filter (fun s => 0 <? KeywordScore.matches topic s) sentences.
Proof.
  induction sentences as [|s sentences IH]; [reflexivity|].
  cbn [flat_map List.filter]. rewrite map_app, IH.
  destruct (0 <? KeywordScore.matches topic s); reflexivity.
Qed.

Lemma filter_map_fst (topic : str) (k : nat) (pairs : list (str * nat)) :
  (forall p, In p pairs -> snd p = KeywordScore.matches topic (fst p)) ->
  map fst (List.filter (fun p => snd p =? k) pairs)
  = List.filter (fun s => KeywordScore.matches topic s =? k) (map fst pairs).
Proof.
  induction pairs as [|p pairs IH]; intros Hp; [reflexivity|].
  cbn [List.filter map].
  rewrite <- (Hp p (or_introl eq_refl)).
  rewrite <- IH by (intros q Hq; apply Hp; now right).
  destruct (snd p =? k); reflexivity.
Qed.

Lemma filter_filter_positive (topic : str) (k : nat) (l : list str) :
  0 < k ->
  List.filter (fun s => KeywordScore.matches topic s =? k)
    (List.filter (fun s => 0 <? KeywordScore.matches topic s) l)
  = List.filter (fun s => KeywordScore.matches topic s =? k) l.
Proof.
  intros Hk. induction l as [|s l IH]; [reflexivity|].
  cbn [List.filter].
  destruct (0 <? KeywordScore.matches topic s) eqn:Hpos.
  - cbn [List.filter]. now rewrite IH.
  - rewrite IH. apply Nat.ltb_ge in Hpos.
    destruct (KeywordScore.matches topic s =? k) eqn:Heq; [|reflexivity].
    apply Nat.eqb_eq in Heq. lia.
Qed.

(** The keyword search returns the first [n] entries of one ranking of the
    corpus: the sentences that contain a word of the topic, those with more
    of its words first, and sentences with as many in the order of the
    corpus. *)
Theorem keyword_search_is_a_stable_ranking (sentences : list str)
    (topic : str) (n : nat) :
  let hits := KeywordScore.matches topic in
  let ranking :=
    _find_relevant_sentences_keyword sentences topic (length sentences) in
  _find_relevant_sentences_keyword sentences topic n = firstn n ranking
  /\ Permutation ranking (List.filter (fun s => 0 <? hits s) sentences)
  /\ ForallOrdPairs (fun a b => hits b <= hits a) ranking
  /\ forall k, 0 < k ->
       List.filter (fun s => hits s =? k) ranking
       = List.filter (fun s => hits s =? k) sentences.
Proof.
  intros hits ranking. subst hits ranking.
  unfold _find_relevant_sentences_keyword.
  fold (KeywordScore.matches topic).
  set (pairs :=
         flat_map
           (fun sent =>
              if 0 <? KeywordScore.matches topic sent
              then [(sent, KeywordScore.matches topic sent)] else [])
           sentences).
  change (flat_map _ sentences) with pairs.
  destruct (sort_desc_spec (@snd str nat) pairs) as (Hdesc & Hperm & Hstable).
  assert (Hscore : forall p, In p (sort_desc snd pairs) ->
                     snd p = KeywordScore.matches topic (fst p)).
  { intros p Hp. apply sort_desc_In in Hp.
    now apply (scored_In sentences topic p) in Hp. }
  assert (Hlen : length (sort_desc snd pairs) <= length sentences).
  { rewrite (Permutation_length Hperm).
    rewrite <- (length_map fst). subst pairs. rewrite scored_map_fst.
    apply filter_length_le. }
  rewrite (@firstn_all2 _ (length sentences) (sort_desc snd pairs) Hlen).
  split; [now rewrite firstn_map|]. split; [|split].
  - rewrite <- scored_map_fst. now apply Permutation_map.
  - clear -Hdesc Hscore. unfold descending in Hdesc.
    induction Hdesc as [|p l Hp Hl IH]; [constructor|].
    cbn [map]. constructor.
    + apply List.Forall_forall. intros s Hs.
      apply in_map_iff in Hs as (q & <- & Hq).
      rewrite List.Forall_forall in Hp. specialize (Hp q Hq).
      rewrite <- (Hscore p (or_introl eq_refl)).
      rewrite <- (Hscore q (or_intror Hq)). exact Hp.
    + apply IH. intros q Hq. apply Hscore. now right.
  - intros k Hk.
    rewrite <- (filter_map_fst topic k _ Hscore), Hstable.
    rewrite (filter_map_fst topic k pairs)
      by (intros p Hp; now apply (scored_In sentences topic p) in Hp).
    subst pairs. rewrite scored_map_fst.
    now apply filter_filter_positive.
Qed.

Lemma weave_step (piece sep : str) (pieces seps : list str) :
  weave (piece :: pieces) (sep :: seps) = piece ++ sep ++ weave pieces seps.
Proof. destruct pieces; reflexivity. Qed.

Lemma re_split_sentences_rebuilt (s : str) :
  forall mode cur, rebuilt mode cur s.
Proof.
  induction s as [|c s IH]; intros mode cur; unfold rebuilt.
  - destruct mode as [|pend|]; cbn [re_split_sentences].
    + exists []. repeat split; [constructor|]. cbn. now rewrite app_nil_r.
    + intros _ _. exists []. repeat split; [constructor|].
      cbn. now rewrite rev_app_distr, app_nil_r.
    + exists [], [], []. repeat split; try constructor.
      cbn. now rewrite app_nil_r.
  - destruct mode as [|pend|]; cbn [re_split_sentences].
    + destruct (is_sentence_end c) eqn:Hend.
      * destruct (IH (AfterPunct [c]) cur) as (seps & H1 & H2 & H3);
          [discriminate|repeat constructor; exact Hend|].
        exists seps. cbn [rev app] in H3. auto.
      * destruct (IH InPiece (c :: cur)) as (seps & H1 & H2 & H3).
        exists seps. cbn [rev] in H3. rewrite <- app_assoc in H3. auto.
    + intros Hne Hpend. destruct (is_sentence_end c) eqn:Hend.
      * destruct (IH (AfterPunct (c :: pend)) cur) as (seps & H1 & H2 & H3);
          [discriminate|constructor; assumption|].
        exists seps. cbn [rev] in H3. rewrite <- !app_assoc in H3. auto.
      * destruct (isspace c) eqn:Hsp.
        -- destruct (IH InSeparator [])
             as (blanks & rest & seps & Hs & Hb & H1 & H2 & H3).
           exists ((rev pend ++ c :: blanks) :: seps).
           split; [cbn [length]; now rewrite H1|]. split.
           ++ constructor; [|exact H2].
              exists (rev pend), (c :: blanks).
              repeat split; try discriminate.
              ** intros Hrev. apply Hne.
                 apply (f_equal (@rev ascii)) in Hrev.
                 now rewrite rev_involutive in Hrev.
              ** now apply List.Forall_rev.
              ** now constructor.
           ++ rewrite weave_step. cbn [rev app] in H3. rewrite H3, Hs.
              now rewrite <- !app_assoc.
        -- destruct (IH InPiece (c :: pend ++ cur)) as (seps & H1 & H2 & H3).
           exists seps. cbn [rev] in H3.
           rewrite rev_app_distr, <- !app_assoc in H3. auto.
    + destruct (isspace c) eqn:Hsp.
      * destruct (IH InSeparator cur)
          as (blanks & rest & seps & Hs & Hb & H1 & H2 & H3).
        exists (c :: blanks), rest, seps.
        repeat split; auto. now rewrite Hs.
      * destruct (is_sentence_end c) eqn:Hend.
        -- destruct (IH (AfterPunct [c]) cur) as (seps & H1 & H2 & H3);
             [discriminate|repeat constructor; exact Hend|].
           exists [], (c :: s), seps. cbn [rev app] in H3.
           repeat split; auto.
        -- destruct (IH InPiece (c :: cur)) as (seps & H1 & H2 & H3).
           exists [], (c :: s), seps. cbn [rev] in H3.
           rewrite <- app_assoc in H3. repeat split; auto.
Qed.

(** Splitting a text into sentences loses nothing but the separators: with
    a run of [.!?] and whitespace put back between the pieces, the text is
    there again. *)
Theorem split_sentences_can_be_rebuilt (text : str) :
  exists seps,
    length (re_split_sentences InPiece [] text) = S (length seps)
    /\ Forall is_separator seps
    /\ weave (re_split_sentences InPiece [] text) seps = text.
Proof.
  destruct (re_split_sentences_rebuilt text InPiece [])
    as (seps & Hcount & Hseps & Hweave).
  exists seps. split; [exact Hcount|]. split; [exact Hseps|].
  exact Hweave.
Qed.

End RankingProperties.

(** ** The quiz loop *)

Module QuizSessionProperties.
Import PyStr PyStrFacts PyStrMore Py Random Evaluator QuizSession
  QuizInvariants.

Section WithLibraries.

Variable ratio : str -> str -> float.
Variable format_percent : float -> str.
Variable word_tokenize : str -> result (list str).
Variable pos_tag : list str -> result (list (str * str)).
Variables V M : Type.
Variable cosine_similarities : V -> M -> str -> result (list float).
Variable argsort : list float -> list nat.

Local Abbreviation ask := (ask ratio format_percent).
Local Abbreviation generate_questions :=
  (QuestionGenerator.generate_questions word_tokenize pos_tag V M
     cosine_similarities argsort).
Local Abbreviation run_quiz :=
  (run_quiz ratio format_percent word_tokenize pos_tag V M
     cosine_similarities argsort).

(** The results of the questions answered by the lines at hand. *)
Lemma ask_all_spec (questions : list QuestionGenerator.QuestionRecord)
    (stdin : list str) (results : list QuizRunner.QuizResult) :
  ask_all ratio format_percent questions stdin results
  = (results ++ map (fun '(q, line) => ask q line) (combine questions stdin),
     skipn (length questions) stdin,
     length questions <=? length stdin).
Proof.
  revert stdin results.
  induction questions as [|q questions IH]; intros stdin results.
  - cbn. now rewrite app_nil_r.
  - destruct stdin as [|line stdin]; cbn [ask_all].
    + cbn. now rewrite app_nil_r.
    + rewrite IH. cbn [combine map length skipn].
      rewrite <- app_assoc. reflexivity.
Qed.

Lemma generate_questions_returns
    (self : QuestionGenerator.generator V M) (g : rng) (topic : option str)
    (n : nat) :
  exists records, generate_questions self g topic n = Ok records
                  /\ length records <= n.
Proof.
  destruct (AssemblerFacts.generate_questions_run_distinct word_tokenize
              pos_tag V M cosine_similarities argsort self g topic n)
    as (st & Hrun & _).
  unfold QuestionGenerator.generate_questions. rewrite Hrun. cbn [bind].
  eexists. split; [reflexivity|]. apply firstn_le_length.
Qed.

(** With a line for every question, the quiz comes to its end: each result
    pairs a question with the line typed for it, the totals count those
    results, and the lines behind them are left unread. *)
Theorem quiz_with_enough_answers_completes
    (self_results : list QuizRunner.QuizResult)
    (question_generator : QuestionGenerator.generator V M) (g : rng)
    (topic : option str) (num_questions : nat) (stdin : list str) :
  num_questions <= length stdin ->
  exists records s,
    generate_questions question_generator g topic num_questions = Ok records
    /\ run_quiz self_results question_generator g topic num_questions stdin
       = (Returned s,
          match records with [] => self_results | _ :: _ => results s end,
          match records with
          | [] => stdin
          | _ :: _ => skipn (length records) stdin
          end)
    /\ results s
       = map (fun '(q, line) => ask q line) (combine records stdin)
    /\ total s = length records
    /\ total s <= num_questions
    /\ correct s = length (List.filter QuizRunner.is_correct (results s))
    /\ correct s <= total s.
Proof.
  intros Hlines.
  destruct (generate_questions_returns question_generator g topic
              num_questions) as (records & Hgen & Hlen).
  exists records. unfold QuizSession.run_quiz. rewrite Hgen.
  destruct records as [|q records].
  - exists no_questions. cbn. repeat split; lia.
  - rewrite ask_all_spec.
    assert (Hle : (length (q :: records) <=? length stdin) = true)
      by (apply Nat.leb_le; lia).
    rewrite Hle. cbn [app]. eexists (Build_summary _ _ _ _).
    cbn [results total correct]. split; [reflexivity|].
    split; [reflexivity|].
    set (stored := map _ (combine (q :: records) stdin)).
    assert (Hstored : length stored = length (q :: records)).
    { subst stored. rewrite length_map, length_combine.
      apply Nat.leb_le in Hle. lia. }
    repeat split; try reflexivity; try lia.
    apply filter_length_le.
Qed.

(** When the input ends before the last question, the call ends with the
    error of [input]; the results of the answered questions have replaced
    those of the quiz before. *)
Theorem input_ends_during_quiz
    (self_results : list QuizRunner.QuizResult)
    (question_generator : QuestionGenerator.generator V M) (g : rng)
    (topic : option str) (num_questions : nat) (stdin : list str)
    (records : list QuestionGenerator.QuestionRecord) :
  generate_questions question_generator g topic num_questions = Ok records ->
  length stdin < length records ->
  run_quiz self_results question_generator g topic num_questions stdin
  = (EOFError,
     map (fun '(q, line) => ask q line) (combine records stdin), [])
  /\ length (map (fun '(q, line) => ask q line) (combine records stdin))
     = length stdin.
Proof.
  intros Hgen Hshort. unfold QuizSession.run_quiz. rewrite Hgen.
  destruct records as [|q records]; [cbn in Hshort; lia|].
  rewrite ask_all_spec.
  assert (Hle : (length (q :: records) <=? length stdin) = false)
    by (apply Nat.leb_gt; lia).
  rewrite Hle. cbn [app]. rewrite skipn_all2 by lia.
  split; [reflexivity|]. rewrite length_map, length_combine. lia.
Qed.

Lemma ask_fields (q : QuestionGenerator.QuestionRecord) (line : str) :
  QuizRunner.question (ask q line) = QuestionGenerator.question q
  /\ QuizRunner.correct_answer (ask q line) = QuestionGenerator.answer q.
Proof.
  unfold QuizSession.ask.
  destruct (if negb (truthy (strip line)) then _ else _) as [verdict feedback].
  split; reflexivity.
Qed.

Lemma ask_recorded (q : QuestionGenerator.QuestionRecord) (line : str) :
  recorded ratio format_percent (ask q line).
Proof.
  unfold recorded, QuizSession.ask.
  destruct (truthy (strip line)) eqn:Hline; cbn [negb].
  - destruct (evaluate_answer _ _ _ _ _ _ _) as [verdict feedback] eqn:Heval.
    cbn [QuizRunner.user_answer QuizRunner.is_correct
         QuizRunner.correct_answer QuizRunner.question QuizRunner.context].
    split; [apply strip_idem|]. now rewrite Heval.
  - cbn [QuizRunner.user_answer QuizRunner.is_correct
         QuizRunner.correct_answer QuizRunner.question QuizRunner.context].
    split; [apply strip_idem|].
    destruct (strip line); [|discriminate]. reflexivity.
Qed.

(** Whatever is typed and however the call ends, every stored result
    holds the answer stripped and the verdict the evaluator gives on the
    stored texts; a blank answer is stored as wrong. *)
Theorem stored_results_can_be_rechecked
    (self_results : list QuizRunner.QuizResult)
    (question_generator : QuestionGenerator.generator V M) (g : rng)
    (topic : option str) (num_questions : nat) (stdin : list str) :
  Forall (recorded ratio format_percent) self_results ->
  let new_results :=
    snd (fst (run_quiz self_results question_generator g topic num_questions
                stdin)) in
  Forall (recorded ratio format_percent) new_results
  /\ forall r, In r new_results ->
       QuizRunner.is_correct r = true -> QuizRunner.user_answer r <> [].
Proof.
  intros Hself new_results.
  assert (Hrec : Forall (recorded ratio format_percent) new_results).
  { subst new_results. unfold QuizSession.run_quiz.
    destruct (generate_questions _ _ _ _) as [[|q records]|];
      try exact Hself.
    rewrite ask_all_spec. cbn [app].
    destruct (_ <=? _); cbn [fst snd];
      apply List.Forall_forall; intros r Hr;
      apply in_map_iff in Hr as ([q0 line] & <- & _); apply ask_recorded. }
  split; [exact Hrec|].
  intros r Hr Hcorrect Hblank.
  rewrite List.Forall_forall in Hrec. destruct (Hrec r Hr) as [_ Hverdict].
  rewrite Hverdict, Hblank in Hcorrect. discriminate Hcorrect.
Qed.

(** After a quiz that came to its end, [explain_question] finds every
    number from 1 to the total, and shows the question generated at that
    position with its answer. *)
Theorem explain_question_after_quiz
    (self_results : list QuizRunner.QuizResult)
    (question_generator : QuestionGenerator.generator V M) (g : rng)
    (topic : option str) (num_questions : nat) (stdin stdin' : list str)
    (s : summary) (new_results : list QuizRunner.QuizResult)
    (question_number : Z) :
  run_quiz self_results question_generator g topic num_questions stdin
  = (Returned s, new_results, stdin') ->
  (1 <= question_number <= Z.of_nat (total s))%Z ->
  exists records q rest,
    generate_questions question_generator g topic num_questions = Ok records
    /\ nth_error records (Z.to_nat (question_number - 1)) = Some q
    /\ QuizRunner.explain_question new_results question_number
       = Ok (QuizRunner.nl ++ lit "Question: "
               ++ QuestionGenerator.question q ++ QuizRunner.nl
               ++ lit "Correct Answer: "
               ++ QuestionGenerator.answer q ++ QuizRunner.nl ++ rest).
Proof.
  unfold QuizSession.run_quiz.
  destruct (generate_questions_returns question_generator g topic
              num_questions) as (records & Hgen & _).
  rewrite Hgen. intros Hrun Hk. exists records.
  destruct records as [|q0 records];
    [injection Hrun as <- _ _; cbn in Hk; exfalso; clear -Hk; lia|].
  rewrite ask_all_spec in Hrun. cbn [app] in Hrun.
  set (stored := map (fun '(q, line) => ask q line)
                     (combine (q0 :: records) stdin)) in *.
  destruct (length (q0 :: records) <=? length stdin) eqn:Hle;
    [|discriminate Hrun].
  apply Nat.leb_le in Hle.
  injection Hrun as <- <- _. cbn [total] in Hk.
  assert (Hlen : length stored = length (q0 :: records))
    by (subst stored; rewrite length_map, length_combine; lia).
  destruct (QuizRunnerFacts.index_in_range stored (question_number - 1))
    as (r & Hnth & Hindex); [lia|].
  assert (Hq : exists q line,
             nth_error (q0 :: records) (Z.to_nat (question_number - 1))
             = Some q /\ r = ask q line).
  { subst stored. rewrite nth_error_map in Hnth.
    destruct (nth_error (combine (q0 :: records) stdin) _) as [[q line]|]
      eqn:Hpair; [|discriminate Hnth].
    injection Hnth as <-. exists q, line. split; [|reflexivity].
    revert Hpair. generalize (Z.to_nat (question_number - 1)).
    generalize (q0 :: records) stdin. clear.
    induction l as [|x l IH]; intros [|y l0] [|i]; cbn; try discriminate.
    - now intros [= -> _].
    - apply IH. }
  destruct Hq as (q & line & Hq & ->).
  destruct (ask_fields q line) as (Hquestion & Hanswer).
  exists q.
  exists ((if truthy (QuizRunner.context (ask q line))
           then lit "Source: " ++ prefix 200 (QuizRunner.context (ask q line))
                ++ lit "..." ++ QuizRunner.nl
           else [])
          ++ lit "Your Answer: " ++ QuizRunner.user_answer (ask q line)
          ++ QuizRunner.nl ++ lit "Result: "
          ++ (if QuizRunner.is_correct (ask q line)
              then QuizRunner.mark_correct else QuizRunner.mark_incorrect)
          ++ QuizRunner.nl).
  split; [reflexivity|]. split; [exact Hq|].
  unfold QuizRunner.explain_question. rewrite Hindex, Hlen.
  assert (H1 : (question_number <? 1)%Z = false) by (apply Z.ltb_ge; lia).
  assert (H2 : (Z.of_nat (length (q0 :: records)) <? question_number)%Z
               = false) by (apply Z.ltb_ge; lia).
  rewrite H1, H2. cbn [length Nat.ltb Nat.leb negb orb bind].
  rewrite Hquestion, Hanswer. f_equal.
  destruct (truthy (QuizRunner.context (ask q line)));
    now rewrite <- ?app_assoc.
Qed.

End WithLibraries.

Lemma quiz_with_enough_answers_completes_witness :
  1 <= length [QuizSessionScenario.typed; lit "more"]
  /\ exists s,
       fst (fst (QuizSessionScenario.run []
                   [QuizSessionScenario.typed; lit "more"]))
       = Returned s
       /\ total s <= 1 /\ correct s <= total s.
Proof.
  assert (H : 1 <= length [QuizSessionScenario.typed; lit "more"])
    by (cbn; lia).
  split; [exact H|].
  destruct (quiz_with_enough_answers_completes
              EvaluatorScenario.scenario_ratio
              EvaluatorScenario.scenario_percent
              SynthesizerScenario.tokenizer_missing
              SynthesizerScenario.tagger_missing unit unit
              AgileScenario.agile_similarities RankerScenario.stable_argsort
              [] AgileScenario.agile_generator [] (Some (lit "agile")) 1
              [QuizSessionScenario.typed; lit "more"] H)
    as (records & s & _ & Hrun & _ & _ & Htotal & _ & Hcorrect).
  exists s. unfold QuizSessionScenario.run. rewrite Hrun.
  split; [reflexivity|]. split; assumption.
Defined.

Lemma input_ends_during_quiz_witness :
  QuestionGenerator.generate_questions SynthesizerScenario.tokenizer_missing
    SynthesizerScenario.tagger_missing unit unit
    AgileScenario.agile_similarities RankerScenario.stable_argsort
    AgileScenario.agile_generator [] (Some (lit "agile")) 1
  = Ok [ {| QuestionGenerator.question := lit "What is Scrum?";
            QuestionGenerator.answer :=
              lit "a framework for Agile";
            QuestionGenerator.context :=
              AgileScenario.sentence_scrum |} ]
  /\ QuizSessionScenario.run [QuizSessionScenario.stored] []
     = (EOFError, [], []).
Proof.
  assert (H : QuestionGenerator.generate_questions
                SynthesizerScenario.tokenizer_missing
                SynthesizerScenario.tagger_missing unit unit
                AgileScenario.agile_similarities RankerScenario.stable_argsort
                AgileScenario.agile_generator [] (Some (lit "agile")) 1
              = Ok [ {| QuestionGenerator.question := lit "What is Scrum?";
                        QuestionGenerator.answer :=
                          lit "a framework for Agile";
                        QuestionGenerator.context :=
                          AgileScenario.sentence_scrum |} ])
    by (vm_compute; reflexivity).
  split; [exact H|].
  exact (proj1 (input_ends_during_quiz
                  EvaluatorScenario.scenario_ratio
                  EvaluatorScenario.scenario_percent
                  SynthesizerScenario.tokenizer_missing
                  SynthesizerScenario.tagger_missing unit unit
                  AgileScenario.agile_similarities
                  RankerScenario.stable_argsort
                  [QuizSessionScenario.stored] AgileScenario.agile_generator
                  [] (Some (lit "agile")) 1 [] _ H
                  ltac:(cbn; lia))).
Defined.

Lemma stored_results_can_be_rechecked_witness :
  Forall (recorded EvaluatorScenario.scenario_ratio
            EvaluatorScenario.scenario_percent) []
  /\ Forall (recorded EvaluatorScenario.scenario_ratio
               EvaluatorScenario.scenario_percent)
       (snd (fst (QuizSessionScenario.run [] [QuizSessionScenario.typed]))).
Proof.
  assert (H : Forall (recorded EvaluatorScenario.scenario_ratio
                        EvaluatorScenario.scenario_percent) [])
    by constructor.
  split; [exact H|].
  exact (proj1 (stored_results_can_be_rechecked
                  EvaluatorScenario.scenario_ratio
                  EvaluatorScenario.scenario_percent
                  SynthesizerScenario.tokenizer_missing
                  SynthesizerScenario.tagger_missing unit unit
                  AgileScenario.agile_similarities
                  RankerScenario.stable_argsort
                  [] AgileScenario.agile_generator [] (Some (lit "agile")) 1
                  [QuizSessionScenario.typed] H)).
Defined.

Lemma explain_question_after_quiz_witness :
  QuizSessionScenario.run [] [QuizSessionScenario.typed]
  = (Returned {| total := 1; correct := 1; accuracy := 100%float;
                 results := [QuizSessionScenario.stored] |},
     [QuizSessionScenario.stored], [])
  /\ (1 <= 1 <= Z.of_nat 1)%Z
  /\ exists rest,
       QuizRunner.explain_question [QuizSessionScenario.stored] 1
       = Ok (QuizRunner.nl ++ lit "Question: " ++ lit "What is Scrum?"
               ++ QuizRunner.nl ++ lit "Correct Answer: "
               ++ lit "a framework for Agile"
               ++ QuizRunner.nl ++ rest).
Proof.
  assert (H : QuizSessionScenario.run [] [QuizSessionScenario.typed]
              = (Returned {| total := 1; correct := 1; accuracy := 100%float;
                             results := [QuizSessionScenario.stored] |},
                 [QuizSessionScenario.stored], []))
    by (vm_compute; reflexivity).
  assert (Hk : (1 <= 1 <= Z.of_nat 1)%Z) by (cbn; lia).
  split; [exact H|]. split; [exact Hk|].
  destruct (explain_question_after_quiz
              EvaluatorScenario.scenario_ratio
              EvaluatorScenario.scenario_percent
              SynthesizerScenario.tokenizer_missing
              SynthesizerScenario.tagger_missing unit unit
              AgileScenario.agile_similarities RankerScenario.stable_argsort
              [] AgileScenario.agile_generator [] (Some (lit "agile")) 1
              [QuizSessionScenario.typed] [] _ _ 1 H Hk)
    as (records & q & rest & Hgen & Hq & Hexplain).
  exists rest. rewrite Hexplain.
  assert (Hrecords : records
                     = [ {| QuestionGenerator.question := lit "What is Scrum?";
                            QuestionGenerator.answer :=
                              lit "a framework for Agile";
                            QuestionGenerator.context :=
                              AgileScenario.sentence_scrum |} ]).
  { assert (Hc : QuestionGenerator.generate_questions
                   SynthesizerScenario.tokenizer_missing
                   SynthesizerScenario.tagger_missing unit unit
                   AgileScenario.agile_similarities
                   RankerScenario.stable_argsort
                   AgileScenario.agile_generator [] (Some (lit "agile")) 1
                 = Ok [ {| QuestionGenerator.question := lit "What is Scrum?";
                           QuestionGenerator.answer :=
                             lit "a framework for Agile";
                           QuestionGenerator.context :=
                             AgileScenario.sentence_scrum |} ])
      by (vm_compute; reflexivity).
    rewrite Hc in Hgen. now injection Hgen as <-. }
  subst records. cbn in Hq. injection Hq as <-. reflexivity.
Defined.

End QuizSessionProperties.

(** ** Commands *)

Module CommandProperties.
Import PyStr PyStrFacts PyStrMore Py PyMore Main CommandScenario.

(** *** The matcher on the patterns of [parse_command] *)

Lemma run_rep {T : Type} (greedy : bool) (lo : nat) (hi : option nat)
    (r : Re.regex) (before after : str) (caps : Re.captures)
    (k : str -> str -> Re.captures -> option T) :
  Re.run (Re.Rep greedy lo hi r) before after caps k
  = ReLoop.rep_loop greedy lo hi r k (S (length after)) 0 before after caps.
Proof. reflexivity. Qed.

Lemma run_grp {T : Type} (i : nat) (r : Re.regex) (before after : str)
    (caps : Re.captures) (k : str -> str -> Re.captures -> option T) :
  Re.run (Re.Grp i r) before after caps k
  = Re.run r before after caps
      (fun b a c =>
         k b a ((i, firstn (length after - length a) after) :: c)).
Proof. reflexivity. Qed.

(** No character of the class at hand: [p+] does not match. *)
Lemma plus_none {T : Type} (p : ascii -> bool)
    (k : str -> str -> Re.captures -> option T) (before after : str)
    (caps : Re.captures) :
  match after with [] => True | c :: _ => p c = false end ->
  Re.run (Re.plus (Re.Chr p)) before after caps k = None.
Proof.
  intros Hhead. unfold Re.plus. rewrite run_rep. cbn.
  destruct after as [|c after]; [reflexivity|]. now rewrite Hhead.
Qed.

(** A greedy [p*] or [p+] takes the whole run of characters of the class
    when what follows the pattern accepts that. *)
Lemma rep_greedy_run {T : Type} (p : ascii -> bool) (lo : nat)
    (k : str -> str -> Re.captures -> option T) (rest : str)
    (caps : Re.captures) (x : T) (ds : str) :
  forall fuel count before,
    Forall (fun c => p c = true) ds ->
    match rest with [] => True | c :: _ => p c = false end ->
    length ds < fuel -> lo <= count + length ds ->
    k (rev ds ++ before) rest caps = Some x ->
    ReLoop.rep_loop true lo None (Re.Chr p) k fuel count before (ds ++ rest)
      caps
    = Some x.
Proof.
  induction ds as [|d ds IH]; intros fuel count before Hds Hrest Hfuel Hlo Hk.
  - destruct fuel as [|fuel]; [cbn in Hfuel; lia|].
    cbn [app rev] in *. cbn [ReLoop.rep_loop Re.below Re.run].
    assert (Hle : (lo <=? count) = true)
      by (apply Nat.leb_le; cbn in Hlo; lia).
    rewrite Hle, Hk.
    destruct rest as [|c rest]; [reflexivity|]. now rewrite Hrest.
  - destruct fuel as [|fuel]; [cbn in Hfuel; lia|].
    inversion Hds as [|? ? Hd Hds']; subst.
    cbn [app]. cbn [ReLoop.rep_loop Re.below Re.run]. rewrite Hd.
    assert (Hlt : (length (ds ++ rest) <? length (d :: ds ++ rest)) = true)
      by (apply Nat.ltb_lt; cbn; lia).
    rewrite Hlt.
    rewrite (IH fuel (S count) (d :: before)); try assumption.
    + reflexivity.
    + cbn in Hfuel. lia.
    + cbn in Hlo. lia.
    + cbn [rev] in Hk. now rewrite <- app_assoc in Hk.
Qed.

Lemma run_text {T : Type} (w : str) :
  forall (before after : str) (caps : Re.captures)
         (k : str -> str -> Re.captures -> option T),
    w <> [] ->
    Re.run (Re.text_with Re.is_char w) before after caps k
    = if startswith w after
      then k (rev w ++ before) (skipn (length w) after) caps
      else None.
Proof.
  induction w as [|c w IH]; intros before after caps k Hne; [congruence|].
  destruct w as [|c2 w].
  - cbn [Re.text_with Re.is_char Re.run startswith].
    destruct after as [|a after]; [reflexivity|].
    destruct (eqb_char c a) eqn:Hca; [|reflexivity].
    apply eqb_char_eq in Hca. subst a. cbn. reflexivity.
  - change (Re.text_with Re.is_char (c :: c2 :: w))
      with (Re.Cat (Re.is_char c) (Re.text_with Re.is_char (c2 :: w))).
    cbn [Re.run Re.is_char].
    destruct after as [|a after]; [reflexivity|].
    change (startswith (c :: c2 :: w) (a :: after))
      with (eqb_char c a && startswith (c2 :: w) after).
    destruct (eqb_char c a) eqn:Hca; [|reflexivity].
    apply eqb_char_eq in Hca. subst a.
    rewrite IH by discriminate. cbn [andb].
    destruct (startswith (c2 :: w) after); [|reflexivity].
    cbn [rev length skipn]. now rewrite <- !app_assoc.
Qed.

(** [re.match] of the question words. *)
Lemma match_question (command : str) :
  (asks command = true -> exists m, re_match pattern_question command = Some m)
  /\ (asks command = false -> re_match pattern_question command = None).
Proof.
  unfold asks, re_match, pattern_question, question_words, Re.text.
  cbn [existsb map Re.any_of Re.run].
  repeat (rewrite run_text by discriminate;
          destruct (startswith _ command);
          [split; [intros _; eexists; reflexivity|discriminate]|]).
  split; [discriminate|reflexivity].
Qed.

Lemma firstn_matched (ds rest : str) :
  firstn (length (ds ++ rest) - length rest) (ds ++ rest) = ds.
Proof.
  rewrite length_app. replace (length ds + length rest - length rest)
    with (length ds + 0) by lia.
  rewrite firstn_app_2. cbn. apply app_nil_r.
Qed.

Lemma search_from_found (r : Re.regex) (before after : str)
    (m : Re.match_object) :
  Re.run r before after []
    (fun b a c =>
       Some {| Re.pre := rev before;
               Re.matched := firstn (length after - length a) after;
               Re.post := a;
               Re.groups := c |})
  = Some m ->
  Re.search_from r before after = Some m.
Proof. intros H. destruct after; cbn [Re.search_from]; now rewrite H. Qed.

(** [re.search] of the number. *)
Lemma number_skip (c : ascii) (before after : str) :
  isdigit c = false ->
  Re.search_from pattern_number before (c :: after)
  = Re.search_from pattern_number (c :: before) after.
Proof.
  intros Hc. cbn [Re.search_from]. unfold pattern_number at 1.
  cbn [Re.run]. fold (Re.plus (Re.Chr isdigit)).
  now rewrite plus_none.
Qed.

Lemma number_none (s : str) :
  forall before,
    Forall (fun c => isdigit c = false) s ->
    Re.search_from pattern_number before s = None.
Proof.
  induction s as [|c s IH]; intros before Hs.
  - cbn [Re.search_from]. unfold pattern_number.
    cbn [Re.run]. fold (Re.plus (Re.Chr isdigit)).
    now rewrite plus_none.
  - inversion Hs; subst. rewrite number_skip by assumption. now apply IH.
Qed.

Lemma number_found (ds rest before : str) :
  ds <> [] -> Forall (fun c => isdigit c = true) ds ->
  match rest with [] => True | c :: _ => isdigit c = false end ->
  exists m, Re.search_from pattern_number before (ds ++ rest) = Some m
            /\ Re.group m 1 = ds.
Proof.
  intros Hne Hds Hrest.
  assert (Hrun : forall T (k : str -> str -> Re.captures -> option T) x,
             k (rev ds ++ before) rest
               [(1, firstn (length (ds ++ rest) - length rest) (ds ++ rest))]
             = Some x ->
             Re.run pattern_number before (ds ++ rest) [] k = Some x).
  { intros T k x Hk. unfold pattern_number, Re.plus.
    rewrite run_grp, run_rep.
    apply rep_greedy_run; try assumption.
    - rewrite length_app. lia.
    - destruct ds; [congruence|cbn; lia]. }
  eexists. split.
  - rewrite search_from_found with (1 := Hrun _ _ _ eq_refl). reflexivity.
  - unfold Re.group. cbn. apply firstn_matched.
Qed.

(** [re.sub] of the trailing request word. *)
Lemma request_untouched (t : str) :
  Forall (fun c => isspace c = false) t ->
  Re.delete_all pattern_request t = t.
Proof.
  intros Ht. unfold Re.delete_all. cbn [Re.delete_from].
  assert (Hnone : forall s before,
             Forall (fun c => isspace c = false) s ->
             Re.search_from pattern_request before s = None).
  { induction s as [|c s IH]; intros before Hs.
    - cbn [Re.search_from]. unfold pattern_request, Re.spaces.
      cbn [Re.seq_of Re.run]. now rewrite plus_none.
    - inversion Hs; subst. cbn [Re.search_from].
      unfold pattern_request at 1, Re.spaces.
      cbn [Re.seq_of Re.run]. rewrite plus_none by assumption.
      now apply IH. }
  now rewrite Hnone.
Qed.

(** *** Decimal numbers *)

Lemma digit_facts (c : ascii) :
  isdigit c = true ->
  isspace c = false /\ int_space c = false /\ lower_char c = c
  /\ eqb_char c "-"%char = false /\ eqb_char c "+"%char = false
  /\ eqb_char "o"%char c = false.
Proof.
  destruct c as [[] [] [] [] [] [] [] []]; intros H;
    try discriminate H; repeat split; reflexivity.
Qed.

Lemma uint_digits (u : Decimal.uint) :
  Forall (fun c => isdigit c = true) (lit (NilEmpty.string_of_uint u)).
Proof.
  induction u; cbn; constructor; try reflexivity; assumption.
Qed.

Lemma decimal_digits (n : nat) :
  decimal n <> [] /\ Forall (fun c => isdigit c = true) (decimal n).
Proof.
  split; [|apply uint_digits].
  unfold decimal. intros Hnil.
  destruct (Nat.to_uint n) as [| | | | | | | | | |] eqn:Hu;
    try discriminate Hnil.
  pose proof (Unsigned.of_to n) as Hn. rewrite Hu in Hn. cbn in Hn.
  subst n. discriminate Hu.
Qed.

Ltac eval_digit :=
  match goal with
  | |- context [digit_value ?c] =>
      let d := eval vm_compute in (digit_value c) in
      change (digit_value c) with d
  end.

Lemma int_digits_uint (u : Decimal.uint) :
  forall acc count,
    int_digits (lit (NilEmpty.string_of_uint u)) (Z.of_nat acc) count true
    = Some (Z.of_nat (Nat.of_uint_acc u acc),
            count + length (lit (NilEmpty.string_of_uint u))).
Proof.
  induction u as [|u IH|u IH|u IH|u IH|u IH|u IH|u IH|u IH|u IH|u IH];
    intros acc count;
    [cbn; now rewrite Nat.add_0_r| | | | | | | | | |];
    cbn [NilEmpty.string_of_uint lit list_ascii_of_string int_digits];
    change (isdigit _) with true; cbv iota;
    match goal with
    | |- int_digits _ ?v _ _ = Some (Z.of_nat (Nat.of_uint_acc _ _), _) =>
        cbn [Nat.of_uint_acc];
        match goal with
        | |- _ = Some (Z.of_nat (Nat.of_uint_acc _ ?a), _) =>
            replace v with (Z.of_nat a)
              by (eval_digit; rewrite Nat.tail_mul_spec; lia)
        end
    end;
    rewrite IH; cbn [length]; rewrite Nat.add_succ_r; reflexivity.
Qed.

Lemma strip_chars_digits (p : ascii -> bool) (s : str) :
  Forall (fun c => p c = false) s ->
  rstrip_chars p (lstrip_chars p s) = s.
Proof.
  intros Hs.
  assert (Hl : forall t, Forall (fun c => p c = false) t ->
                 lstrip_chars p t = t).
  { intros t Ht. destruct Ht as [|c t Hc Ht]; [reflexivity|].
    cbn. now rewrite Hc. }
  unfold rstrip_chars. rewrite (Hl s Hs), Hl; [apply rev_involutive|].
  now apply List.Forall_rev.
Qed.

(** [int(str(n)) == n], within the limit on the number of digits. *)
Lemma int_decimal (n : nat) :
  length (decimal n) <= int_max_str_digits ->
  int (decimal n) = Ok (Z.of_nat n).
Proof.
  intros Hlen. destruct (decimal_digits n) as [Hne Hds].
  unfold int. rewrite strip_chars_digits
    by (eapply List.Forall_impl; [|exact Hds];
        intros c Hc; now apply digit_facts in Hc).
  unfold decimal in *.
  destruct (Nat.to_uint n) as [|u|u|u|u|u|u|u|u|u|u] eqn:Hu;
    [cbn in Hne; congruence| | | | | | | | | |];
    cbn [NilEmpty.string_of_uint lit list_ascii_of_string] in *;
    change (eqb_char _ "-"%char) with false;
    change (eqb_char _ "+"%char) with false; cbv iota;
    cbn [int_digits]; change (isdigit _) with true; cbv iota;
    pose proof (Unsigned.of_to n) as Hn; rewrite Hu in Hn;
    unfold Nat.of_uint in Hn; cbn [Nat.of_uint_acc] in Hn;
    match goal with
    | |- context [int_digits _ ?v 1 true] =>
        match type of Hn with
        | Nat.of_uint_acc _ ?a = _ =>
            replace v with (Z.of_nat a) by (eval_digit; cbn; lia)
        end
    end;
    rewrite (int_digits_uint u), Hn;
    (destruct (int_max_str_digits <? _) eqn:Hmax;
     [apply Nat.ltb_lt in Hmax; cbn [length] in Hlen; unfold lit in *; lia
     |reflexivity]).
Qed.

(** *** [parse_command] *)

Lemma word_of_digits (ds : str) :
  ds <> [] -> Forall (fun c => isdigit c = true) ds -> word ds.
Proof.
  intros Hne Hds. split; [exact Hne|].
  intros c Hc. rewrite List.Forall_forall in Hds.
  specialize (Hds c Hc). now apply digit_facts in Hds.
Qed.

Lemma word_of_literal (w : str) :
  w <> [] -> forallb (fun c => negb (isspace c)) w = true -> word w.
Proof.
  intros Hne Hw. split; [exact Hne|].
  intros c Hc. rewrite forallb_forall in Hw.
  now apply negb_true_iff, Hw.
Qed.

Lemma map_fixed {A : Type} (f : A -> A) (l : list A) :
  map f l = l -> forall x, In x l -> f x = x.
Proof.
  induction l as [|a l IH]; [intros _ x []|].
  cbn. intros [= Ha Hl] x [<-|Hx]; auto.
Qed.

(** A number of an explanation is read back as it was written. *)
Theorem explain_command_round_trip (n : nat) :
  length (decimal n) <= int_max_str_digits ->
  parse_command (lit "explain question " ++ decimal n)
  = Ok (None, Some (Z.of_nat n), lit "explain", None).
Proof.
  intros Hlen. pose proof (int_decimal n Hlen) as Hint.
  destruct (decimal_digits n) as [Hne Hds].
  remember (decimal n) as d eqn:Hd. clear Hd Hlen.
  pose proof (word_of_digits d Hne Hds) as Hword.
  assert (Hwords : forall w, In w [lit "explain"; lit "question"; d] -> word w).
  { intros w [<-|[<-|[<-|[]]]]; try exact Hword;
      apply word_of_literal; (discriminate || reflexivity). }
  assert (Hjoin : lit "explain question " ++ d
                  = join [space] [lit "explain"; lit "question"; d])
    by reflexivity.
  unfold parse_command.
  assert (Hstrip : strip (lit "explain question " ++ d)
                   = lit "explain question " ++ d)
    by (rewrite Hjoin; now apply strip_join).
  assert (Hlower : lower (lit "explain question " ++ d)
                   = lit "explain question " ++ d).
  { rewrite Hjoin. apply map_join; [reflexivity|].
    intros w c [<-|[<-|[<-|[]]]] Hc.
    - repeat (destruct Hc as [<-|Hc]; [reflexivity|]). destruct Hc.
    - repeat (destruct Hc as [<-|Hc]; [reflexivity|]). destruct Hc.
    - rewrite List.Forall_forall in Hds. now apply digit_facts, Hds. }
  rewrite Hstrip, Hlower.
  change (eqb (lit "explain question " ++ d) (lit "autoquiz")) with false.
  change (startswith (lit "explain question") (lit "explain question " ++ d))
    with true.
  cbv iota. rewrite Hjoin, (split_join _ Hwords).
  change (index [lit "explain"; lit "question"; d] (-1)) with (Ok d).
  cbn [bind]. rewrite Hint. reflexivity.
Qed.

Lemma asks_excludes (command : str) :
  asks command = true ->
  eqb command (lit "autoquiz") = false
  /\ startswith (lit "explain question") command = false.
Proof.
  unfold asks, question_words. cbn [existsb].
  intros H.
  repeat (apply orb_true_iff in H as [H|H];
          [apply startswith_spec in H as [rest ->]; split; reflexivity|]).
  discriminate H.
Qed.

(** A command that begins with a question word is a question to be
    answered, whatever follows the word, and is handed on as it was typed,
    without the whitespace around it. *)
Theorem question_word_makes_a_question (command : str) :
  asks (lower (strip command)) = true ->
  parse_command command = Ok (None, None, lit "qa", Some (strip command)).
Proof.
  intros Hasks. unfold parse_command.
  destruct (asks_excludes _ Hasks) as [Hauto Hexplain].
  rewrite Hauto, Hexplain.
  destruct (proj1 (match_question _) Hasks) as [m ->]. reflexivity.
Qed.

Lemma lstrip_Forall (P : ascii -> Prop) (s : str) :
  Forall P s -> Forall P (lstrip s).
Proof.
  intros Hs. destruct (lstrip_suffix s) as [pre Hpre].
  rewrite Hpre in Hs. now apply Forall_app in Hs.
Qed.

Lemma strip_Forall (P : ascii -> Prop) (s : str) :
  Forall P s -> Forall P (strip s).
Proof.
  intros Hs. unfold strip.
  now apply List.Forall_rev, lstrip_Forall, List.Forall_rev, lstrip_Forall.
Qed.

Lemma lower_no_digit (s : str) :
  Forall (fun c => isdigit c = false) s ->
  Forall (fun c => isdigit c = false) (lower s).
Proof.
  intros Hs. unfold lower. apply Forall_map.
  eapply List.Forall_impl; [|exact Hs].
  intros c. destruct c as [[] [] [] [] [] [] [] []]; intros H;
    try discriminate H; reflexivity.
Qed.

Lemma lstrip_chars_Forall (P : ascii -> Prop) (p : ascii -> bool) (s : str) :
  Forall P s -> Forall P (lstrip_chars p s).
Proof.
  induction 1 as [|c s Hc Hs IH]; [constructor|].
  cbn. destruct (p c); [exact IH|now constructor].
Qed.

Lemma int_without_digits (s : str) :
  Forall (fun c => isdigit c = false) s -> int s = Raise ValueError.
Proof.
  intros Hs. unfold int.
  assert (Hbody : Forall (fun c => isdigit c = false)
                    (rstrip_chars int_space (lstrip_chars int_space s))).
  { unfold rstrip_chars.
    now apply List.Forall_rev, lstrip_chars_Forall, List.Forall_rev,
      lstrip_chars_Forall. }
  assert (Hnone : forall t acc count,
             Forall (fun c => isdigit c = false) t ->
             int_digits t acc count false = None).
  { intros t acc count Ht. destruct Ht as [|c t Hc Ht]; [reflexivity|].
    cbn. rewrite Hc. now rewrite andb_false_r. }
  destruct (rstrip_chars _ _) as [|c body]; [reflexivity|].
  inversion Hbody; subst.
  destruct (eqb_char c "-"%char); [now rewrite Hnone|].
  destruct (eqb_char c "+"%char); [now rewrite Hnone|].
  now rewrite Hnone by assumption.
Qed.

Lemma after_first_contains (sep s : str) :
  contains sep s = true -> exists t, after_first sep s = Ok t.
Proof.
  induction s as [|c s IH]; cbn [contains after_first].
  - rewrite orb_false_r. intros ->. eauto.
  - destruct (startswith sep (c :: s)); [eauto|]. exact IH.
Qed.

Lemma topic_of_returns (command : str) :
  exists topic, topic_of command = Ok topic.
Proof.
  unfold topic_of.
  destruct (contains (lit "on ") command) eqn:Hon;
    [destruct (after_first_contains _ _ Hon) as [t ->]; cbn; eauto|].
  destruct (contains (lit "about ") command) eqn:Habout;
    [destruct (after_first_contains _ _ Habout) as [t ->]; cbn; eauto|].
  destruct (contains (lit "regarding ") command) eqn:Hregarding;
    [destruct (after_first_contains _ _ Hregarding) as [t ->]; cbn; eauto|].
  eauto.
Qed.

Lemma index_In {A : Type} (l : list A) (i : Z) (x : A) :
  index l i = Ok x -> In x l.
Proof.
  unfold index. destruct (_ <? 0)%Z; [discriminate|].
  destruct (nth_error l _) eqn:Hnth; [|discriminate].
  intros [= <-]. now apply nth_error_In in Hnth.
Qed.

(** A command without a digit is never an explanation and never raises; as
    a quiz request it asks for five questions; and nothing is invalid but
    a command that begins with [explain question]. *)
Theorem command_without_digits (command : str) :
  Forall (fun c => isdigit c = false) command ->
  exists p,
    parse_command command = Ok p
    /\ command_type p <> lit "explain"
    /\ (command_type p = lit "quiz" -> snd (fst (fst p)) = Some 5%Z)
    /\ (command_type p = lit "invalid" ->
        startswith (lit "explain question") (lower (strip command)) = true).
Proof.
  intros Hdigits.
  assert (Hcmd : Forall (fun c => isdigit c = false) (lower (strip command)))
    by now apply lower_no_digit, strip_Forall.
  unfold parse_command.
  destruct (eqb (lower (strip command)) (lit "autoquiz"));
    [eexists; split; [reflexivity|]; repeat split; discriminate|].
  destruct (startswith (lit "explain question") (lower (strip command))).
  - match goal with
    | |- context [try_except ?r _] =>
        assert (Hinvalid : r = Raise IndexError \/ r = Raise ValueError)
    end.
    { destruct (index _ _) as [last|e] eqn:Hindex.
      - right. cbn [bind]. rewrite int_without_digits; [reflexivity|].
        apply index_In, split_words in Hindex as [_ Hin].
        apply List.Forall_forall. intros c Hc.
        rewrite List.Forall_forall in Hcmd. auto.
      - unfold index in Hindex. destruct (_ <? 0)%Z.
        + injection Hindex as <-. now left.
        + destruct (nth_error _ _); [discriminate|].
          injection Hindex as <-. now left. }
    destruct Hinvalid as [-> | ->]; cbn [try_except];
      (eexists; split; [reflexivity|]; repeat split; (discriminate || auto)).
  - destruct (re_match pattern_question (lower (strip command)));
      [eexists; split; [reflexivity|]; repeat split; discriminate|].
    unfold Re.search. rewrite number_none by exact Hcmd. cbn [bind].
    destruct (topic_of_returns (lower (strip command))) as [topic ->].
    cbn [bind]. eexists. split; [reflexivity|].
    repeat split; (discriminate || auto).
Qed.

Lemma after_first_skip (sep : str) (c : ascii) (s : str) :
  startswith sep (c :: s) = false ->
  after_first sep (c :: s) = after_first sep s.
Proof. intros H. cbn [after_first]. now rewrite H. Qed.

Lemma after_first_digits (ds s : str) :
  Forall (fun c => isdigit c = true) ds ->
  after_first (lit "on ") (ds ++ s) = after_first (lit "on ") s.
Proof.
  induction 1 as [|c ds Hc Hds IH]; [reflexivity|].
  cbn [app]. rewrite after_first_skip; [exact IH|].
  change (startswith (lit "on ") (c :: ds ++ s))
    with (eqb_char "o"%char c && startswith (lit "n ") (ds ++ s)).
  apply digit_facts in Hc as (_ & _ & _ & _ & _ & Ho). now rewrite Ho.
Qed.

(** A request in the words of the help text is read back: the number of
    questions and the topic are those it was written with. *)
Theorem quiz_request_round_trip (n : nat) (topic : str) :
  length (decimal n) <= int_max_str_digits ->
  topic <> [] ->
  Forall (fun c => isspace c = false) topic ->
  lower topic = topic ->
  parse_command (lit "give me " ++ decimal n ++ lit " questions on " ++ topic)
  = Ok (Some topic, Some (Z.of_nat n), lit "quiz", None).
Proof.
  intros Hlen Hne Htopic Hlow. pose proof (int_decimal n Hlen) as Hint.
  destruct (decimal_digits n) as [Hdne Hds].
  remember (decimal n) as d eqn:Hd. clear Hd Hlen.
  assert (Hwt : word topic).
  { split; [exact Hne|]. intros c Hc.
    rewrite List.Forall_forall in Htopic. auto. }
  set (ws := [lit "give"; lit "me"; d; lit "questions"; lit "on"; topic]).
  assert (Hwords : forall w, In w ws -> word w).
  { intros w [<-|[<-|[<-|[<-|[<-|[<-|[]]]]]]]; try exact Hwt;
      try (now apply word_of_digits);
      apply word_of_literal; (discriminate || reflexivity). }
  set (cmd := lit "give me " ++ d ++ lit " questions on " ++ topic).
  assert (Hjoin : cmd = join [space] ws).
  { subst cmd ws. reflexivity. }
  assert (Hstrip : strip cmd = cmd) by (rewrite Hjoin; now apply strip_join).
  assert (Hlower : lower cmd = cmd).
  { rewrite Hjoin. apply map_join; [reflexivity|].
    intros w c [<-|[<-|[<-|[<-|[<-|[<-|[]]]]]]] Hc;
      try (repeat (destruct Hc as [<-|Hc]; [reflexivity|]); now destruct Hc).
    - rewrite List.Forall_forall in Hds. now apply digit_facts, Hds.
    - now apply (map_fixed lower_char topic Hlow). }
  unfold parse_command. rewrite Hstrip, Hlower.
  assert (Hauto : eqb cmd (lit "autoquiz") = false) by reflexivity.
  assert (Hexplain : startswith (lit "explain question") cmd = false)
    by reflexivity.
  assert (Hasks : asks cmd = false) by reflexivity.
  rewrite Hauto, Hexplain, (proj2 (match_question cmd) Hasks).
  assert (Hnumber : exists m, Re.search pattern_number cmd = Some m
                              /\ Re.group m 1 = d).
  { unfold Re.search. subst cmd. cbn [lit list_ascii_of_string app].
    do 8 (rewrite number_skip by reflexivity).
    apply number_found; [exact Hdne|exact Hds|reflexivity]. }
  destruct Hnumber as (m & -> & ->). rewrite Hint. cbn [bind].
  assert (Htopic_of : topic_of cmd = Ok (Some topic)).
  { unfold topic_of.
    assert (Hon : contains (lit "on ") cmd = true).
    { replace cmd
        with ((lit "give me " ++ d ++ lit " questions ")
              ++ lit "on " ++ topic)
        by (subst cmd; now rewrite <- !app_assoc).
      apply contains_app. }
    rewrite Hon.
    assert (Hafter : after_first (lit "on ") cmd = Ok topic).
    { subst cmd. cbn [lit list_ascii_of_string app].
      do 8 (rewrite after_first_skip by reflexivity).
      rewrite after_first_digits by exact Hds.
      do 11 (rewrite after_first_skip by reflexivity).
      reflexivity. }
    rewrite Hafter. cbn [bind].
    replace (strip topic) with topic; [reflexivity|].
    symmetry. apply (strip_join [topic]). intros w [<-|[]]. exact Hwt. }
  rewrite Htopic_of. cbn [bind].
  destruct topic as [|c topic]; [congruence|]. cbn [truthy].
  rewrite request_untouched by exact Htopic.
  replace (strip (c :: topic)) with (c :: topic); [reflexivity|].
  symmetry. apply (strip_join [c :: topic]). intros w [<-|[]]. exact Hwt.
Qed.

Lemma explain_command_round_trip_witness :
  length (decimal 12) <= int_max_str_digits
  /\ parse_command (lit "explain question 12")
     = Ok (None, Some 12%Z, lit "explain", None).
Proof.
  assert (H : length (decimal 12) <= int_max_str_digits)
    by (vm_compute; lia).
  split; [exact H|]. exact (explain_command_round_trip 12 H).
Defined.

Lemma question_word_makes_a_question_witness :
  asks (lower (strip (lit " Can you give me 5 questions on Agile? "))) = true
  /\ parse_command (lit " Can you give me 5 questions on Agile? ")
     = Ok (None, None, lit "qa",
           Some (lit "Can you give me 5 questions on Agile?")).
Proof.
  assert (H : asks (lower (strip (lit " Can you give me 5 questions on Agile? ")))
              = true) by reflexivity.
  split; [exact H|].
  exact (question_word_makes_a_question
           (lit " Can you give me 5 questions on Agile? ") H).
Defined.

Lemma command_without_digits_witness :
  Forall (fun c => isdigit c = false) (lit "quiz me about sprints")
  /\ exists p,
       parse_command (lit "quiz me about sprints") = Ok p
       /\ command_type p <> lit "explain".
Proof.
  assert (H : Forall (fun c => isdigit c = false)
                (lit "quiz me about sprints"))
    by (repeat constructor).
  split; [exact H|].
  destruct (command_without_digits (lit "quiz me about sprints") H)
    as (p & Hp & Hne & _).
  exists p. split; assumption.
Defined.

Lemma quiz_request_round_trip_witness :
  length (decimal 3) <= int_max_str_digits
  /\ lit "scrum" <> []
  /\ Forall (fun c => isspace c = false) (lit "scrum")
  /\ lower (lit "scrum") = lit "scrum"
  /\ parse_command (lit "give me 3 questions on scrum")
     = Ok (Some (lit "scrum"), Some 3%Z, lit "quiz", None).
Proof.
  assert (H1 : length (decimal 3) <= int_max_str_digits)
    by (vm_compute; lia).
  assert (H2 : lit "scrum" <> []) by discriminate.
  assert (H3 : Forall (fun c => isspace c = false) (lit "scrum"))
    by (repeat constructor).
  assert (H4 : lower (lit "scrum") = lit "scrum") by reflexivity.
  repeat (split; [assumption|]).
  exact (quiz_request_round_trip 3 (lit "scrum") H1 H2 H3 H4).
Defined.

End CommandProperties.

(** ** The section parser *)

Module LoaderProperties.
Import PyStr PyStrFacts PyStrMore PyMore Loader LoaderScenario.

(** *** The matcher on the pattern of a header *)

Lemma rep_none {T : Type} (p : ascii -> bool) (lo : nat) (hi : option nat)
    (k : str -> str -> Re.captures -> option T) (before after : str)
    (caps : Re.captures) :
  match after with [] => True | c :: _ => p c = false end ->
  Re.run (Re.Rep true (S lo) hi (Re.Chr p)) before after caps k = None.
Proof.
  intros Hhead. rewrite CommandProperties.run_rep.
  cbn [ReLoop.rep_loop Nat.leb].
  destruct (Re.below hi 0); [|reflexivity].
  cbn [Re.run]. destruct after as [|c after]; [reflexivity|].
  now rewrite Hhead.
Qed.

Lemma rep_loop_greedy {T : Type} (p : ascii -> bool) (lo : nat)
    (hi : option nat) (k : str -> str -> Re.captures -> option T)
    (rest : str) (caps : Re.captures) (x : T) (ds : str) :
  forall fuel count before,
    Forall (fun c => p c = true) ds ->
    match rest with [] => True | c :: _ => p c = false end ->
    match hi with Some h => count + length ds <= h | None => True end ->
    length ds < fuel -> lo <= count + length ds ->
    k (rev ds ++ before) rest caps = Some x ->
    ReLoop.rep_loop true lo hi (Re.Chr p) k fuel count before (ds ++ rest)
      caps
    = Some x.
Proof.
  induction ds as [|d ds IH];
    intros fuel count before Hds Hrest Hhi Hfuel Hlo Hk.
  - destruct fuel as [|fuel]; [cbn in Hfuel; lia|].
    cbn [app rev] in *. cbn [ReLoop.rep_loop Re.run].
    assert (Hle : (lo <=? count) = true)
      by (apply Nat.leb_le; cbn in Hlo; lia).
    rewrite Hle, Hk.
    destruct (Re.below hi count); [|reflexivity].
    destruct rest as [|c rest]; [reflexivity|]. now rewrite Hrest.
  - destruct fuel as [|fuel]; [cbn in Hfuel; lia|].
    inversion Hds as [|? ? Hd Hds']; subst.
    cbn [app]. cbn [ReLoop.rep_loop Re.run]. rewrite Hd.
    assert (Hbelow : Re.below hi count = true).
    { destruct hi as [h|]; [|reflexivity].
      apply Nat.ltb_lt. cbn in Hhi. lia. }
    rewrite Hbelow.
    assert (Hlt : (length (ds ++ rest) <? length (d :: ds ++ rest)) = true)
      by (apply Nat.ltb_lt; cbn; lia).
    rewrite Hlt.
    rewrite (IH fuel (S count) (d :: before)); try assumption.
    + reflexivity.
    + destruct hi as [h|]; [|exact I]. cbn in Hhi. lia.
    + cbn in Hfuel. lia.
    + cbn in Hlo. lia.
    + cbn [rev] in Hk. now rewrite <- app_assoc in Hk.
Qed.

Lemma run_greedy {T : Type} (p : ascii -> bool) (lo : nat) (hi : option nat)
    (k : str -> str -> Re.captures -> option T) (before ds rest : str)
    (caps : Re.captures) (x : T) :
  Forall (fun c => p c = true) ds ->
  match rest with [] => True | c :: _ => p c = false end ->
  match hi with Some h => length ds <= h | None => True end ->
  lo <= length ds ->
  k (rev ds ++ before) rest caps = Some x ->
  Re.run (Re.Rep true lo hi (Re.Chr p)) before (ds ++ rest) caps k = Some x.
Proof.
  intros Hds Hrest Hhi Hlo Hk. rewrite CommandProperties.run_rep.
  apply rep_loop_greedy; try assumption.
  rewrite length_app. lia.
Qed.

Lemma run_cat {T : Type} (r1 r2 : Re.regex) (before after : str)
    (caps : Re.captures) (k : str -> str -> Re.captures -> option T) :
  Re.run (Re.Cat r1 r2) before after caps k
  = Re.run r1 before after caps (fun b a c => Re.run r2 b a c k).
Proof. reflexivity. Qed.

Lemma run_bol {T : Type} (after : str) (caps : Re.captures)
    (k : str -> str -> Re.captures -> option T) :
  Re.run Re.Bol [] after caps k = k [] after caps.
Proof. reflexivity. Qed.

Lemma header_none (line : str) :
  startswith (lit "#") line = false -> re_match pattern_header line = None.
Proof.
  intros Hline. unfold re_match, pattern_header.
  cbn [Re.seq_of]. rewrite run_cat, run_bol, run_cat.
  rewrite CommandProperties.run_grp.
  unfold Re.is_char. apply rep_none.
  destruct line as [|c line]; [exact I|].
  cbn in Hline. now rewrite andb_true_r in Hline.
Qed.

Lemma strip_head (t : str) (c : ascii) (r : str) :
  strip t = t -> t = c :: r -> isspace c = false.
Proof.
  intros Hstrip ->. destruct (strip_trimmed (c :: r)) as [Hhead _].
  rewrite Hstrip in Hhead. exact (Hhead c r eq_refl).
Qed.

Lemma header_found (p : part) :
  well_formed p ->
  exists m, re_match pattern_header (header_line p) = Some m
            /\ strip (Re.group m 2) = heading p.
Proof.
  intros (Hlevel & Hne & Hstrip & Hnl & _).
  unfold re_match, pattern_header, header_line.
  cbn [Re.seq_of].
  eexists. split.
  - rewrite run_cat, run_bol, run_cat.
    rewrite CommandProperties.run_grp. unfold Re.is_char.
    apply run_greedy.
    + apply List.Forall_forall. intros c Hc.
      apply repeat_spec in Hc. now subst c.
    + reflexivity.
    + rewrite repeat_length. lia.
    + rewrite repeat_length. lia.
    + cbv beta. unfold Re.spaces, Re.plus.
      change (space :: heading p) with ([space] ++ heading p).
      rewrite run_cat.
      apply run_greedy.
      * repeat constructor.
      * destruct (heading p) as [|c r] eqn:Hh; [exact I|].
        rewrite <- Hh in Hstrip. exact (strip_head _ c r Hstrip Hh).
      * exact I.
      * cbn. lia.
      * cbv beta. rewrite run_cat.
        rewrite CommandProperties.run_grp.
        rewrite <- (app_nil_r (heading p)) at 1.
        apply run_greedy.
        -- apply List.Forall_forall. intros c Hc.
           apply negb_true_iff. destruct (eqb_char c "010"%char) eqn:Heq;
             [|reflexivity].
           apply eqb_char_eq in Heq. subst c. contradiction.
        -- exact I.
        -- exact I.
        -- destruct (heading p); [congruence|cbn; lia].
        -- cbv beta. cbn [Re.run Re.at_end]. reflexivity.
  - unfold Re.group. cbn [Re.groups find fst snd Nat.eqb].
    cbn [length]. rewrite Nat.sub_0_r, firstn_all.
    exact Hstrip.
Qed.

(** *** Lines *)

Lemma split_lines_line (line : str) :
  ~ In nl line -> split_lines line = [line].
Proof.
  induction line as [|c line IH]; intros Hnl; [reflexivity|].
  cbn [split_lines].
  destruct (eqb_char c "010"%char) eqn:Heq.
  - apply eqb_char_eq in Heq. subst c. exfalso. apply Hnl. now left.
  - rewrite IH; [reflexivity|]. intros Hin. apply Hnl. now right.
Qed.

Lemma split_lines_app (line rest : str) :
  ~ In nl line -> split_lines (line ++ nl :: rest) = line :: split_lines rest.
Proof.
  induction line as [|c line IH]; intros Hnl; [reflexivity|].
  cbn [app split_lines].
  destruct (eqb_char c "010"%char) eqn:Heq.
  - apply eqb_char_eq in Heq. subst c. exfalso. apply Hnl. now left.
  - rewrite IH; [reflexivity|]. intros Hin. apply Hnl. now right.
Qed.

Lemma split_lines_join (lines : list str) :
  lines <> [] -> Forall (fun line => ~ In nl line) lines ->
  split_lines (text_of lines) = lines.
Proof.
  unfold text_of.
  induction lines as [|line lines IH]; intros Hne Hlines; [congruence|].
  inversion Hlines as [|? ? Hline Hrest]; subst.
  destruct lines as [|line2 lines].
  - cbn [join]. now apply split_lines_line.
  - change (join [nl] (line :: line2 :: lines))
      with (line ++ nl :: join [nl] (line2 :: lines)).
    rewrite split_lines_app by exact Hline.
    now rewrite IH.
Qed.

Lemma split_lines_concat (s : str) :
  concat (map (fun line => line ++ [nl]) (split_lines s)) = s ++ [nl].
Proof.
  induction s as [|c s IH]; [reflexivity|].
  cbn [split_lines].
  destruct (eqb_char c "010"%char) eqn:Heq.
  - apply eqb_char_eq in Heq. subst c. cbn [map concat app].
    now rewrite IH.
  - destruct (split_lines s) as [|line lines];
      [destruct s; discriminate IH|].
    cbn [map concat app] in *. now rewrite IH.
Qed.

(** *** The loop *)

Lemma scan_plain (lines rest : list str) (current_section : section)
    (found : list section) :
  Forall (fun line => startswith (lit "#") line = false) lines ->
  scan (lines ++ rest) current_section found
  = scan rest
      {| title := title current_section;
         content :=
           content current_section
           ++ concat (map (fun line => line ++ [nl]) lines) |}
      found.
Proof.
  intros Hlines. revert current_section.
  induction Hlines as [|line lines Hline Hlines IH]; intros current_section.
  - cbn [app map concat]. rewrite app_nil_r. now destruct current_section.
  - cbn [app scan]. rewrite (header_none line Hline), IH.
    cbn [title content map concat]. now rewrite <- !app_assoc.
Qed.

Lemma keep_kept (current_section : section) (found : list section) :
  strip (title current_section) = title current_section ->
  Forall kept_section found ->
  Forall kept_section (keep current_section found).
Proof.
  intros Htitle Hfound. unfold keep.
  destruct (truthy (strip (content current_section))) eqn:Hcontent;
    [|exact Hfound].
  apply Forall_app. split; [exact Hfound|]. repeat constructor; [|exact Htitle].
  rewrite <- EvaluatorCascade.strip_blank, Hcontent. reflexivity.
Qed.

Lemma scan_kept (lines : list str) :
  forall current_section found,
    strip (title current_section) = title current_section ->
    Forall kept_section found ->
    Forall kept_section (scan lines current_section found).
Proof.
  induction lines as [|line lines IH]; intros current_section found Ht Hfound.
  - now apply keep_kept.
  - cbn [scan]. destruct (re_match pattern_header line) as [m|].
    + apply IH; [apply strip_idem|now apply keep_kept].
    + apply IH; assumption.
Qed.

Lemma scan_document (document : list part) :
  Forall well_formed document ->
  forall current_section found,
    scan (lines_of document) current_section found
    = keep current_section found ++ map section_of document.
Proof.
  induction 1 as [|p document Hp Hdoc IH]; intros current_section found.
  - cbn. now rewrite app_nil_r.
  - cbn [lines_of flat_map]. fold (lines_of document).
    cbn [app scan].
    destruct (header_found p Hp) as (m & -> & ->).
    destruct Hp as (_ & _ & Hstrip & _ & Hbody & Hblank).
    rewrite scan_plain
      by (eapply List.Forall_impl; [|exact Hbody]; now intros line [_ H]).
    rewrite IH. cbn [title content app map].
    fold (section_of p).
    assert (Hkeep : forall l, keep (section_of p) l = l ++ [section_of p]).
    { intros l. unfold keep.
      destruct (truthy (strip (content (section_of p)))) eqn:Hc;
        [reflexivity|].
      exfalso.
      assert (Hall : forallb isspace (content (section_of p)) = true)
        by (rewrite <- EvaluatorCascade.strip_blank, Hc; reflexivity).
      assert (Hsub : forallb isspace (concat (body p)) = true).
      { apply forallb_forall. intros c Hc0.
        rewrite forallb_forall in Hall. apply Hall.
        cbn [section_of content].
        apply in_concat in Hc0 as (line & Hline & Hc0).
        apply in_concat. exists (line ++ [nl]). split.
        - apply in_map_iff. now exists line.
        - apply in_or_app. now left. }
      rewrite Hsub in Hblank. discriminate Hblank. }
    rewrite Hkeep, <- app_assoc. reflexivity.
Qed.

Section WithFiles.

Variable read_file : str -> io_result str.

(** A section that is returned has text in it, and its title has no
    whitespace around it. *)
Theorem sections_have_content (self self' : loader) (found : list section) :
  get_sections read_file self = Read (found, self') ->
  sections self' = found
  /\ Forall kept_section found.
Proof.
  unfold get_sections.
  destruct (if negb (truthy (self_content self)) then _ else _)
    as [loaded|e]; [|discriminate].
  intros [= <- <-]. split; [reflexivity|].
  apply scan_kept; [reflexivity|constructor].
Qed.

(** A text without a line that begins with [#] is one section, titled
    [Introduction], that holds all of it; or none when it is blank. *)
Theorem text_without_headers_is_the_introduction (self : loader) :
  self_content self <> [] ->
  Forall (fun line => startswith (lit "#") line = false)
    (split_lines (self_content self)) ->
  exists self',
    get_sections read_file self
    = Read (if forallb isspace (self_content self) then []
            else [ {| title := lit "Introduction";
                      content := self_content self ++ [nl] |} ],
            self').
Proof.
  intros Hne Hlines. unfold get_sections.
  destruct (self_content self) as [|c text] eqn:Htext; [congruence|].
  cbn [truthy negb]. rewrite Htext. eexists. f_equal. f_equal.
  rewrite <- (app_nil_r (split_lines (c :: text))).
  rewrite scan_plain by exact Hlines.
  cbn [scan title content app]. rewrite split_lines_concat.
  unfold keep. cbn [content].
  pose proof (EvaluatorCascade.strip_blank ((c :: text) ++ [nl])) as Hblank.
  rewrite forallb_app in Hblank. cbn [forallb] in Hblank.
  change (isspace nl) with true in Hblank.
  rewrite !andb_true_r in Hblank.
  cbn [forallb app] in *.
  destruct (isspace c && forallb isspace text);
    destruct (truthy (strip _)); try discriminate Hblank; reflexivity.
Qed.

(** A document written as headers with lines of text below them is read
    back: one section for each header, with its title and its lines. *)
Theorem get_sections_round_trip (self : loader) (document : list part) :
  document <> [] ->
  Forall well_formed document ->
  self_content self = text_of (lines_of document) ->
  exists self',
    get_sections read_file self = Read (map section_of document, self').
Proof.
  intros Hne Hdoc Htext.
  assert (Hlines : lines_of document <> []).
  { destruct document as [|p document]; [congruence|discriminate]. }
  assert (Hfree : Forall (fun line => ~ In nl line) (lines_of document)).
  { apply List.Forall_forall. intros line Hline.
    apply in_flat_map in Hline as (p & Hp & Hline).
    rewrite List.Forall_forall in Hdoc.
    destruct (Hdoc p Hp) as (_ & _ & _ & Hnl & Hbody & _).
    destruct Hline as [<-|Hline].
    - unfold header_line. intros Hin. apply in_app_or in Hin as [Hin|Hin].
      + apply repeat_spec in Hin. discriminate Hin.
      + destruct Hin as [Hin|Hin]; [discriminate Hin|contradiction].
    - rewrite List.Forall_forall in Hbody. now apply Hbody. }
  unfold get_sections.
  destruct (self_content self) as [|c text] eqn:Hcontent.
  - exfalso. destruct document as [|p document]; [congruence|].
    inversion Hdoc as [|? ? (Hlevel & _) _]; subst.
    unfold text_of in Htext. cbn [lines_of flat_map app] in Htext.
    unfold header_line in Htext.
    destruct (level p) as [|k]; [lia|].
    cbn [repeat app] in Htext.
    destruct (body p ++ flat_map _ document); discriminate Htext.
  - cbn [truthy negb]. rewrite Hcontent, Htext.
    rewrite (split_lines_join _ Hlines Hfree).
    rewrite (scan_document document Hdoc). eexists. reflexivity.
Qed.

End WithFiles.

Lemma sections_have_content_witness :
  get_sections no_file
    {| file_path := lit "notes.md"; self_content := scrum_text;
       sections := []; sentences := [] |}
  = Read (map section_of scrum_document,
          {| file_path := lit "notes.md"; self_content := scrum_text;
             sections := map section_of scrum_document; sentences := [] |})
  /\ Forall kept_section (map section_of scrum_document).
Proof.
  assert (H : get_sections no_file
                {| file_path := lit "notes.md"; self_content := scrum_text;
                   sections := []; sentences := [] |}
              = Read (map section_of scrum_document,
                      {| file_path := lit "notes.md";
                         self_content := scrum_text;
                         sections := map section_of scrum_document;
                         sentences := [] |}))
    by (vm_compute; reflexivity).
  split; [exact H|].
  exact (proj2 (sections_have_content no_file _ _ _ H)).
Defined.

Lemma text_without_headers_is_the_introduction_witness :
  lit "Plain notes." <> []
  /\ Forall (fun line => startswith (lit "#") line = false)
       (split_lines (lit "Plain notes."))
  /\ exists self',
       get_sections no_file
         {| file_path := lit "notes.md"; self_content := lit "Plain notes.";
            sections := []; sentences := [] |}
       = Read ([ {| title := lit "Introduction";
                    content := lit "Plain notes." ++ [nl] |} ], self').
Proof.
  assert (H1 : lit "Plain notes." <> []) by discriminate.
  assert (H2 : Forall (fun line => startswith (lit "#") line = false)
                 (split_lines (lit "Plain notes.")))
    by (repeat constructor).
  split; [exact H1|]. split; [exact H2|].
  exact (text_without_headers_is_the_introduction no_file
           {| file_path := lit "notes.md"; self_content := lit "Plain notes.";
              sections := []; sentences := [] |} H1 H2).
Defined.

Lemma get_sections_round_trip_witness :
  scrum_document <> []
  /\ Forall well_formed scrum_document
  /\ scrum_text = text_of (lines_of scrum_document)
  /\ exists self',
       get_sections no_file
         {| file_path := lit "notes.md"; self_content := scrum_text;
            sections := []; sentences := [] |}
       = Read (map section_of scrum_document, self').
Proof.
  assert (H1 : scrum_document <> []) by discriminate.
  assert (H2 : Forall well_formed scrum_document).
  { repeat constructor; cbn; try lia; try discriminate;
      intros H; repeat (destruct H as [H|H]; [discriminate H|]);
      exact H. }
  assert (H3 : scrum_text = text_of (lines_of scrum_document))
    by reflexivity.
  split; [exact H1|]. split; [exact H2|]. split; [exact H3|].
  exact (get_sections_round_trip no_file
           {| file_path := lit "notes.md"; self_content := scrum_text;
              sections := []; sentences := [] |} scrum_document H1 H2 H3).
Defined.

End LoaderProperties.

(** ** What the verdict depends on *)

Module EvaluatorInvariance.
Import PyStr PyStrFacts PyStrMore Evaluator EvaluatorFacts EvaluatorCascade.

Section WithLibraries.

Variable ratio : str -> str -> float.
Variable format_percent : float -> str.

(** Two answers that are not blank and differ only in case, punctuation
    and spacing get the same verdict and the same feedback; the question
    and the context play no part. *)
Theorem verdict_depends_on_normalised_answer (threshold : float)
    (answer1 answer2 correct_answer question1 question2 context1 context2
       : str) :
  forallb isspace answer1 = false ->
  forallb isspace answer2 = false ->
  _normalize_text answer1 = _normalize_text answer2 ->
  evaluate_answer ratio format_percent threshold answer1 correct_answer
    question1 context1
  = evaluate_answer ratio format_percent threshold answer2 correct_answer
      question2 context2.
Proof.
  intros H1 H2 Hnorm.
  unfold evaluate_answer, _fuzzy_match, _check_key_phrases, _extract_keywords.
  rewrite !strip_blank, H1, H2, Hnorm. reflexivity.
Qed.

(** When nothing of the correct answer is left after normalising, every
    answer that is not blank is correct. *)
Theorem empty_correct_answer_accepts_any_answer (threshold : float)
    (user_answer correct_answer question context : str) :
  forallb isspace user_answer = false ->
  _normalize_text correct_answer = [] ->
  evaluate_answer ratio format_percent threshold user_answer correct_answer
    question context
  = (true, lit "Correct!").
Proof.
  intros Hblank Hempty. unfold evaluate_answer.
  rewrite strip_blank, Hblank, Hempty. cbn [negb].
  destruct (eqb _ []); [reflexivity|].
  destruct (_normalize_text user_answer); reflexivity.
Qed.

End WithLibraries.

Lemma verdict_depends_on_normalised_answer_witness :
  forallb isspace (lit "Iterative, development!") = false
  /\ forallb isspace (lit "  iterative   development ") = false
  /\ _normalize_text (lit "Iterative, development!")
     = _normalize_text (lit "  iterative   development ")
  /\ evaluate_answer EvaluatorScenario.scenario_ratio
       EvaluatorScenario.scenario_percent default_threshold
       (lit "Iterative, development!") EvaluatorScenario.scenario_correct
       (lit "What is Agile?") []
     = evaluate_answer EvaluatorScenario.scenario_ratio
         EvaluatorScenario.scenario_percent default_threshold
         (lit "  iterative   development ")
         EvaluatorScenario.scenario_correct [] (lit "Agile is iterative.").
Proof.
  assert (H1 : forallb isspace (lit "Iterative, development!") = false)
    by reflexivity.
  assert (H2 : forallb isspace (lit "  iterative   development ") = false)
    by reflexivity.
  assert (H3 : _normalize_text (lit "Iterative, development!")
               = _normalize_text (lit "  iterative   development "))
    by (vm_compute; reflexivity).
  repeat (split; [assumption|]).
  exact (verdict_depends_on_normalised_answer
           EvaluatorScenario.scenario_ratio EvaluatorScenario.scenario_percent
           default_threshold _ _ EvaluatorScenario.scenario_correct
           (lit "What is Agile?") [] [] (lit "Agile is iterative.")
           H1 H2 H3).
Defined.

Lemma empty_correct_answer_accepts_any_answer_witness :
  forallb isspace (lit "no idea") = false
  /\ _normalize_text (lit "...") = []
  /\ evaluate_answer EvaluatorScenario.scenario_ratio
       EvaluatorScenario.scenario_percent default_threshold
       (lit "no idea") (lit "...") [] []
     = (true, lit "Correct!").
Proof.
  assert (H1 : forallb isspace (lit "no idea") = false) by reflexivity.
  assert (H2 : _normalize_text (lit "...") = []) by reflexivity.
  repeat (split; [assumption|]).
  exact (empty_correct_answer_accepts_any_answer
           EvaluatorScenario.scenario_ratio EvaluatorScenario.scenario_percent
           default_threshold (lit "no idea") (lit "...") [] [] H1 H2).
Defined.

End EvaluatorInvariance.

(** ** The marker of the topic *)

Module TopicProperties.
Import PyStr PyStrFacts PyStrMore Py PyMore Main CommandScenario
  CommandProperties.

Lemma not_space (c : ascii) : isspace c = false -> eqb_char space c = false.
Proof.
  intros Hc. destruct (eqb_char space c) eqn:Heq; [|reflexivity].
  apply eqb_char_eq in Heq. subst c. discriminate Hc.
Qed.

Lemma after_first_stem (stem topic : str) :
  Forall (fun c => isspace c = false) stem ->
  after_first (lit "on ") (stem ++ lit "on " ++ topic) = Ok topic.
Proof.
  induction 1 as [|c stem Hc Hstem IH]; [reflexivity|].
  cbn [app]. rewrite after_first_skip; [exact IH|].
  destruct Hstem as [|c2 stem Hc2 Hstem].
  - cbn. now rewrite andb_false_r.
  - destruct Hstem as [|c3 stem Hc3 Hstem].
    + cbn. now rewrite !andb_false_r.
    + change (eqb_char "o"%char c
              && (eqb_char "n"%char c2 && (eqb_char space c3 && true))
              = false).
      rewrite (not_space c3 Hc3). now rewrite !andb_false_r.
Qed.

(** The marker [on] is looked for first and anywhere in the command: in a
    request about a subject with a word that ends in [on], the topic is
    only what follows that word. *)
Theorem topic_follows_the_first_on (n : nat) (stem topic : str) :
  length (decimal n) <= int_max_str_digits ->
  Forall (fun c => isspace c = false) stem -> lower stem = stem ->
  topic <> [] -> Forall (fun c => isspace c = false) topic ->
  lower topic = topic ->
  parse_command
    (lit "give me " ++ decimal n ++ lit " questions about "
       ++ stem ++ lit "on " ++ topic)
  = Ok (Some topic, Some (Z.of_nat n), lit "quiz", None).
Proof.
  intros Hlen Hstem Hslow Hne Htopic Hlow.
  pose proof (int_decimal n Hlen) as Hint.
  destruct (decimal_digits n) as [Hdne Hds].
  remember (decimal n) as d eqn:Hd. clear Hd Hlen.
  assert (Hwt : word topic).
  { split; [exact Hne|]. intros c Hc.
    rewrite List.Forall_forall in Htopic. auto. }
  assert (Hws : word (stem ++ lit "on")).
  { split; [destruct stem; discriminate|]. intros c Hc.
    apply in_app_or in Hc as [Hc|[<-|[<-|[]]]]; try reflexivity.
    rewrite List.Forall_forall in Hstem. auto. }
  set (ws := [lit "give"; lit "me"; d; lit "questions"; lit "about";
              stem ++ lit "on"; topic]).
  assert (Hwords : forall w, In w ws -> word w).
  { intros w [<-|[<-|[<-|[<-|[<-|[<-|[<-|[]]]]]]]];
      try exact Hwt; try exact Hws; try (now apply word_of_digits);
      apply word_of_literal; (discriminate || reflexivity). }
  set (cmd := lit "give me " ++ d ++ lit " questions about "
                ++ stem ++ lit "on " ++ topic).
  assert (Hjoin : cmd = join [space] ws).
  { subst cmd ws. cbn [join]. rewrite <- (app_assoc stem). reflexivity. }
  assert (Hstrip : strip cmd = cmd) by (rewrite Hjoin; now apply strip_join).
  assert (Hlower : lower cmd = cmd).
  { rewrite Hjoin. apply map_join; [reflexivity|].
    intros w c [<-|[<-|[<-|[<-|[<-|[<-|[<-|[]]]]]]]] Hc;
      try (repeat (destruct Hc as [<-|Hc]; [reflexivity|]); now destruct Hc).
    - rewrite List.Forall_forall in Hds. now apply digit_facts, Hds.
    - apply in_app_or in Hc as [Hc|[<-|[<-|[]]]]; try reflexivity.
      now apply (map_fixed lower_char stem Hslow).
    - now apply (map_fixed lower_char topic Hlow). }
  unfold parse_command. rewrite Hstrip, Hlower.
  assert (Hauto : eqb cmd (lit "autoquiz") = false) by reflexivity.
  assert (Hexplain : startswith (lit "explain question") cmd = false)
    by reflexivity.
  assert (Hasks : asks cmd = false) by reflexivity.
  rewrite Hauto, Hexplain, (proj2 (match_question cmd) Hasks).
  assert (Hnumber : exists m, Re.search pattern_number cmd = Some m
                              /\ Re.group m 1 = d).
  { unfold Re.search. subst cmd. cbn [lit list_ascii_of_string app].
    do 8 (rewrite number_skip by reflexivity).
    apply number_found; [exact Hdne|exact Hds|reflexivity]. }
  destruct Hnumber as (m & -> & ->). rewrite Hint. cbn [bind].
  assert (Htopic_of : topic_of cmd = Ok (Some topic)).
  { unfold topic_of.
    assert (Hon : contains (lit "on ") cmd = true).
    { replace cmd
        with ((lit "give me " ++ d ++ lit " questions about " ++ stem)
              ++ lit "on " ++ topic)
        by (subst cmd; now rewrite <- !app_assoc).
      apply contains_app. }
    rewrite Hon.
    assert (Hafter : after_first (lit "on ") cmd = Ok topic).
    { subst cmd. cbn [lit list_ascii_of_string app].
      do 8 (rewrite after_first_skip by reflexivity).
      rewrite after_first_digits by exact Hds.
      do 17 (rewrite after_first_skip by reflexivity).
      now apply after_first_stem. }
    rewrite Hafter. cbn [bind].
    replace (strip topic) with topic; [reflexivity|].
    symmetry. apply (strip_join [topic]). intros w [<-|[]]. exact Hwt. }
  rewrite Htopic_of. cbn [bind].
  destruct topic as [|c topic]; [congruence|]. cbn [truthy].
  rewrite request_untouched by exact Htopic.
  replace (strip (c :: topic)) with (c :: topic); [reflexivity|].
  symmetry. apply (strip_join [c :: topic]). intros w [<-|[]]. exact Hwt.
Qed.

Lemma topic_follows_the_first_on_witness :
  length (decimal 5) <= int_max_str_digits
  /\ parse_command (lit "give me 5 questions about version control")
     = Ok (Some (lit "control"), Some 5%Z, lit "quiz", None).
Proof.
  assert (H1 : length (decimal 5) <= int_max_str_digits)
    by (vm_compute; lia).
  split; [exact H1|].
  exact (topic_follows_the_first_on 5 (lit "versi") (lit "control") H1
           ltac:(repeat constructor) eq_refl ltac:(discriminate)
           ltac:(repeat constructor) eq_refl).
Defined.

End TopicProperties.

(** ** How often a sentence is tried *)

Module AttemptProperties.
Import PyStr Py Random QuestionGenerator AssemblerScenario.

Lemma NoDup_sublist {A : Type} (l1 l2 : list A) :
  sublist l1 l2 -> NoDup l2 -> NoDup l1.
Proof. intros Hsub Hnd. eapply sublist_NoDup; eassumption. Qed.

Lemma remove_at_sublist {A : Type} (i : nat) (l : list A) :
  sublist (remove_at i l) l.
Proof.
  revert i. induction l as [|a l IH]; intros [|i]; cbn;
    try reflexivity.
  - now apply sublist_cons.
  - now apply sublist_skip.
Qed.

Lemma remove_at_nth {A : Type} (i : nat) (l : list A) (x : A) :
  NoDup l -> nth_error l i = Some x -> ~ In x (remove_at i l).
Proof.
  revert i. induction l as [|a l IH]; intros [|i] Hnd Hnth;
    try discriminate.
  - cbn in *. injection Hnth as ->. inversion Hnd; subst.
    now rewrite <- list_elem_of_In.
  - cbn in *. inversion Hnd as [|? ? Ha Hl]; subst.
    intros [->|Hx].
    + apply Ha. apply list_elem_of_In. now apply nth_error_In in Hnth.
    + now apply (IH i Hl Hnth).
Qed.

(** A sample of distinct elements has distinct elements. *)
Lemma choose_NoDup {A : Type} (k : nat) (pool : list A) (g : rng) :
  NoDup pool -> NoDup (fst (choose k pool g)).
Proof.
  revert pool g. induction k as [|k IH]; intros pool g Hpool;
    [constructor|].
  cbn [choose]. destruct (draw g (length pool)) as [i g'].
  destruct (nth_error pool i) as [x|] eqn:Hnth; [|constructor].
  pose proof (GeneratorProperties.choose_In k (remove_at i pool) g') as Hin.
  specialize (IH (remove_at i pool) g'
                (NoDup_sublist _ _ (remove_at_sublist i pool) Hpool)).
  destruct (choose k (remove_at i pool) g') as [rest g''].
  cbn [fst] in *. constructor; [|exact IH].
  rewrite list_elem_of_In. intros Hx. apply Hin in Hx.
  exact (remove_at_nth i pool x Hpool Hnth Hx).
Qed.

Lemma filter_NoDup {A : Type} (p : A -> bool) (l : list A) :
  NoDup l -> NoDup (List.filter p l).
Proof.
  intros Hl.
  exact (NoDup_sublist _ _ (RankerFacts.sublist_filter_bool p l) Hl).
Qed.

Section WithLibraries.

Variable word_tokenize : str -> result (list str).
Variable pos_tag : list str -> result (list (str * str)).

Lemma first_pass_tried (n : nat) (sents : list str) :
  forall failures st,
    exists tried,
      attempted (first_pass word_tokenize pos_tag n sents failures st)
      = attempted st ++ tried
      /\ sublist tried sents.
Proof.
  induction sents as [|s sents IH]; intros failures st.
  - exists []. cbn. now rewrite app_nil_r.
  - cbn [first_pass]. destruct (n <=? length (questions st)).
    + exists []. rewrite app_nil_r. split; [reflexivity|apply sublist_nil_l].
    + pose proof (AssemblerFacts.attempt_log word_tokenize pos_tag s st)
        as [Hlog _].
      destruct (attempt word_tokenize pos_tag s st) as [st' added].
      cbn [fst] in Hlog.
      destruct (50 <? _).
      * exists [s]. split; [exact Hlog|].
        apply sublist_skip, sublist_nil_l.
      * destruct (IH (if added then 0 else S failures) st')
          as (tried & Htried & Hsub).
        exists (s :: tried). rewrite Htried, Hlog, <- app_assoc.
        split; [reflexivity|now apply sublist_skip].
Qed.

Lemma second_pass_tried (n : nat) (sents : list str) :
  forall st,
    exists tried,
      attempted (second_pass word_tokenize pos_tag n sents st)
      = attempted st ++ tried
      /\ sublist tried sents.
Proof.
  induction sents as [|s sents IH]; intros st.
  - exists []. cbn. now rewrite app_nil_r.
  - cbn [second_pass]. destruct (n <=? length (questions st)).
    + exists []. rewrite app_nil_r. split; [reflexivity|apply sublist_nil_l].
    + pose proof (AssemblerFacts.attempt_log word_tokenize pos_tag s st)
        as [Hlog _].
      destruct (IH (fst (attempt word_tokenize pos_tag s st)))
        as (tried & Htried & Hsub).
      exists (s :: tried). rewrite Htried, Hlog, <- app_assoc.
      split; [reflexivity|now apply sublist_skip].
Qed.

Lemma third_pass_tried (n : nat) (tried_sentences : gset str)
    (sents : list str) :
  forall st,
    exists tried,
      attempted (third_pass word_tokenize pos_tag n tried_sentences sents st)
      = attempted st ++ tried
      /\ sublist tried sents
      /\ forall s, In s tried -> s ∉ tried_sentences.
Proof.
  induction sents as [|s sents IH]; intros st.
  - exists []. cbn. rewrite app_nil_r. repeat split; [constructor|intros ? []].
  - cbn [third_pass]. destruct (n <=? length (questions st)).
    + exists []. rewrite app_nil_r.
      repeat split; [apply sublist_nil_l|intros ? []].
    + case_bool_decide as Hs.
      * destruct (IH st) as (tried & Htried & Hsub & Hfresh).
        exists tried. repeat split; try assumption.
        now apply sublist_cons.
      * pose proof (AssemblerFacts.attempt_log word_tokenize pos_tag s st)
          as [Hlog _].
        destruct (IH (fst (attempt word_tokenize pos_tag s st)))
          as (tried & Htried & Hsub & Hfresh).
        exists (s :: tried). rewrite Htried, Hlog, <- app_assoc.
        repeat split; [now apply sublist_skip|].
        intros x [<-|Hx]; [exact Hs|now apply Hfresh].
Qed.

Section WithIndex.

Variables V M : Type.
Variable cosine_similarities : V -> M -> str -> result (list float).
Variable argsort : list float -> list nat.

(** Without a topic and with sentences that are all different, no
    sentence is handed to the synthesizer more than twice in a call of
    [generate_questions], and nothing but sentences of the corpus. *)
Theorem no_sentence_is_tried_more_than_twice (self : generator V M)
    (g : rng) (num_questions : nat) :
  NoDup (sentences self) ->
  exists st,
    generate_questions_run word_tokenize pos_tag V M cosine_similarities
      argsort self g None num_questions = Ok st
    /\ (forall s, count_occ str_eq_dec (attempted st) s <= 2)
    /\ (forall s, In s (attempted st) -> In s (sentences self)).
Proof.
  intros Hcorpus. unfold generate_questions_run.
  change (truthy_opt None) with false. cbv iota.
  set (pool := if _ <? length (sentences self) then _ else _).
  assert (Hpool : exists l g', pool = Ok (l, g') /\ NoDup l
                               /\ incl l (sentences self)).
  { subst pool. destruct (num_questions <? length (sentences self)).
    - unfold random_sample.
      destruct (length (sentences self) <? _) eqn:Hshort;
        [apply Nat.ltb_lt in Hshort; lia|].
      pose proof (choose_NoDup
                    (Nat.min (num_questions * 10) (length (sentences self)))
                    (sentences self) g Hcorpus) as Hnd.
      pose proof (fun x => GeneratorProperties.choose_In
                    (Nat.min (num_questions * 10) (length (sentences self)))
                    (sentences self) g x) as Hin.
      destruct (choose _ (sentences self) g) as [l g'].
      cbn [bind]. exists l, g'. repeat split; assumption.
    - exists (sentences self), g. repeat split; [exact Hcorpus|].
      intros x Hx. exact Hx. }
  destruct Hpool as (relevant & g1 & -> & Hrel & Hrelin). cbn [bind].
  set (valid := if _ <? num_questions * 2 then _ else _).
  assert (Hvalid : NoDup valid /\ incl valid (sentences self)).
  { subst valid. destruct (_ <? num_questions * 2); split;
      try (now apply filter_NoDup);
      now apply GeneratorProperties.incl_filter. }
  destruct Hvalid as [Hvalid Hvalidin].
  destruct (first_pass_tried num_questions valid 0 start)
    as (l1 & Hl1 & Hsub1).
  set (st1 := first_pass word_tokenize pos_tag num_questions valid 0 start)
    in *.
  cbn [attempted start app] in Hl1.
  assert (Hcount1 : forall l, NoDup l -> forall s,
                      count_occ str_eq_dec l s <= 1).
  { intros l Hl s. apply (proj1 (NoDup_count_occ str_eq_dec l)).
    now apply NoDup_ListNoDup. }
  assert (Hin1 : forall s, In s l1 -> In s valid)
    by (intros s; apply RankerFacts.sublist_In; exact Hsub1).
  destruct (length (questions st1) <? num_questions).
  2:{ eexists. split; [reflexivity|]. rewrite Hl1. split.
      - intros s.
        pose proof (Hcount1 l1 (NoDup_sublist _ _ Hsub1 Hvalid) s). lia.
      - intros s Hs. auto. }
  set (tried_sentences := list_to_set valid : gset str).
  set (remaining := List.filter _ (sentences self)).
  assert (Hrem : NoDup remaining /\ incl remaining (sentences self)).
  { subst remaining. split; [now apply filter_NoDup|].
    apply GeneratorProperties.incl_filter. intros x Hx. exact Hx. }
  destruct Hrem as [Hrem Hremin].
  set (second := match remaining with [] => _ | _ :: _ => _ end).
  assert (H2 : exists st2 g2 l2,
             second = Ok (st2, g2)
             /\ attempted st2 = l1 ++ l2
             /\ NoDup l2 /\ incl l2 (sentences self)).
  { subst second. destruct remaining as [|r0 rest] eqn:Hr.
    - exists st1, g1, []. rewrite app_nil_r.
      repeat split; [exact Hl1|constructor|intros ? []].
    - unfold random_sample.
      destruct (length (r0 :: rest) <? _) eqn:Hshort;
        [apply Nat.ltb_lt in Hshort; lia|].
      pose proof (choose_NoDup
                    (Nat.min (num_questions * 5) (length (r0 :: rest)))
                    (r0 :: rest) g1 Hrem) as Hnd.
      pose proof (fun x => GeneratorProperties.choose_In
                    (Nat.min (num_questions * 5) (length (r0 :: rest)))
                    (r0 :: rest) g1 x) as Hin.
      destruct (choose _ (r0 :: rest) g1) as [sample g2].
      cbn [bind fst] in *.
      destruct (second_pass_tried num_questions
                  (List.filter lenient_valid sample) st1)
        as (l2 & Hl2 & Hsub2).
      exists (second_pass word_tokenize pos_tag num_questions
                (List.filter lenient_valid sample) st1), g2, l2.
      split; [reflexivity|]. split; [now rewrite Hl2, Hl1|].
      split.
      + eapply NoDup_sublist; [exact Hsub2|]. now apply filter_NoDup.
      + intros x Hx. apply Hremin, Hin.
        apply (RankerFacts.sublist_In _ _ _ Hsub2) in Hx.
        apply filter_In in Hx. tauto. }
  destruct H2 as (st2 & g2 & l2 & -> & Hl2 & Hnd2 & Hin2). cbn [bind].
  destruct (length (questions st2) <? num_questions).
  2:{ eexists. split; [reflexivity|]. rewrite Hl2. split.
      - intros s. rewrite count_occ_app.
        pose proof (Hcount1 l1 (NoDup_sublist _ _ Hsub1 Hvalid) s).
        pose proof (Hcount1 l2 Hnd2 s). lia.
      - intros s Hs. apply in_app_or in Hs as [Hs|Hs]; auto. }
  match goal with
  | |- context [random_shuffle ?l g2] =>
      pose proof (fun x => GeneratorProperties.choose_In (length l) l g2 x)
        as Hin3;
      pose proof (choose_NoDup (length l) l g2
                    (filter_NoDup _ _ Hcorpus)) as Hnd3;
      fold (random_shuffle l g2) in Hin3, Hnd3;
      destruct (random_shuffle l g2) as [shuffled g3]
  end.
  cbn [fst] in *.
  destruct (third_pass_tried num_questions tried_sentences shuffled st2)
    as (l3 & Hl3 & Hsub3 & Hfresh).
  eexists. split; [reflexivity|]. rewrite Hl3, Hl2. split.
  - intros s. rewrite !count_occ_app.
    assert (H13 : NoDup (l1 ++ l3)).
    { apply NoDup_app. split; [exact (NoDup_sublist _ _ Hsub1 Hvalid)|].
      split; [|exact (NoDup_sublist _ _ Hsub3 Hnd3)].
      intros x Hx1 Hx3. apply list_elem_of_In in Hx1, Hx3.
      apply (Hfresh x Hx3). subst tried_sentences.
      apply elem_of_list_to_set, list_elem_of_In. auto. }
    pose proof (Hcount1 (l1 ++ l3) H13 s) as H. rewrite count_occ_app in H.
    pose proof (Hcount1 l2 Hnd2 s). lia.
  - intros s Hs. apply in_app_or in Hs as [Hs|Hs].
    + apply in_app_or in Hs as [Hs|Hs]; auto.
    + apply (RankerFacts.sublist_In _ _ _ Hsub3), Hin3 in Hs.
      apply filter_In in Hs. tauto.
Qed.

End WithIndex.

End WithLibraries.

Lemma no_sentence_is_tried_more_than_twice_witness :
  NoDup (sentences AgileScenario.agile_generator)
  /\ exists st,
       generate_questions_run SynthesizerScenario.tokenizer_missing
         SynthesizerScenario.tagger_missing unit unit
         AgileScenario.agile_similarities RankerScenario.stable_argsort
         AgileScenario.agile_generator [] None 5 = Ok st
       /\ forall s, count_occ str_eq_dec (attempted st) s <= 2.
Proof.
  assert (H : NoDup (sentences AgileScenario.agile_generator)).
  { repeat constructor; rewrite list_elem_of_In; cbn;
      intros Hin; repeat (destruct Hin as [Hin|Hin]; [discriminate Hin|]);
      exact Hin. }
  split; [exact H|].
  destruct (no_sentence_is_tried_more_than_twice
              SynthesizerScenario.tokenizer_missing
              SynthesizerScenario.tagger_missing unit unit
              AgileScenario.agile_similarities RankerScenario.stable_argsort
              AgileScenario.agile_generator [] 5 H)
    as (st & Hrun & Hcount & _).
  exists st. split; assumption.
Defined.

End AttemptProperties.

(** ** The two filters of the candidates *)

Module FilterProperties.
Import PyStr Py QuestionGenerator.

Section WithLibraries.

Variable word_tokenize : str -> result (list str).
Variable pos_tag : list str -> result (list (str * str)).

Lemma strict_needs (s : str) :
  _is_valid_sentence_for_question word_tokenize pos_tag s = true ->
  20 <= length (strip s) /\ starts_upper s = true
  /\ count_char ","%char s <= 8.
Proof.
  unfold _is_valid_sentence_for_question.
  destruct (length (strip s) <? 20) eqn:Hlen; [discriminate|].
  destruct (starts_upper s); [|discriminate]. cbn [negb].
  destruct (8 <? count_char ","%char s) eqn:Hcommas; [discriminate|].
  intros _. apply Nat.ltb_ge in Hlen, Hcommas. auto.
Qed.

(** On sentences longer than 20 characters, as those of the corpus are,
    relaxing the filter loses no candidate: the relaxed list contains the
    strict list, in the same order. *)
Theorem relaxed_filter_keeps_strict_candidates
    (relevant_sentences : list str) :
  Forall (fun s => 20 < length (strip s)) relevant_sentences ->
  sublist
    (List.filter (_is_valid_sentence_for_question word_tokenize pos_tag)
       relevant_sentences)
    (List.filter lenient_valid relevant_sentences).
Proof.
  induction 1 as [|s relevant_sentences Hs Hrest IH]; [constructor|].
  cbn [List.filter].
  destruct (_is_valid_sentence_for_question word_tokenize pos_tag s)
    eqn:Hstrict.
  - apply strict_needs in Hstrict as (_ & Hupper & _).
    unfold lenient_valid. rewrite Hupper.
    apply Nat.ltb_lt in Hs. rewrite Hs. cbn [andb].
    now apply sublist_skip.
  - destruct (lenient_valid s); [now apply sublist_cons|exact IH].
Qed.

End WithLibraries.

Lemma relaxed_filter_keeps_strict_candidates_witness :
  Forall (fun s => 20 < length (strip s)) AgileScenario.agile_corpus
  /\ sublist
       (List.filter
          (_is_valid_sentence_for_question
             SynthesizerScenario.tokenizer_missing
             SynthesizerScenario.tagger_missing)
          AgileScenario.agile_corpus)
       (List.filter lenient_valid AgileScenario.agile_corpus).
Proof.
  assert (H : Forall (fun s => 20 < length (strip s))
                AgileScenario.agile_corpus)
    by (repeat constructor; vm_compute; lia).
  split; [exact H|].
  exact (relaxed_filter_keeps_strict_candidates
           SynthesizerScenario.tokenizer_missing
           SynthesizerScenario.tagger_missing AgileScenario.agile_corpus H).
Defined.

End FilterProperties.
